(** * Virtual wardrobe: metadata store and outfit-suggestion parsing

    A shallow embedding of the logic of [try_main_code.py]: the metadata
    helpers [save_metadata], [load_metadata], [delete_item] over the CSV
    file, and [get_outfit_suggestions] with its defensive parsing of the
    completion text; then the upload helper, the background image and the
    three pages that call them.

    Python strings are sequences of Unicode code points; they are modelled
    as lists of code points ([N]).  The library calls the program makes
    ([str.strip], [str.split], [re.search], [json.loads], [pandas.read_csv],
    [DataFrame.to_csv]) are embedded as functions with the behaviour the
    program relies on; each one says what it leaves out. *)

From stdpp Require Import base list numbers strings sets.
From Stdlib Require Import Ascii.

Local Open Scope N_scope.

(** ** Text *)

Module Text.

Definition char := N.
Definition text := list char.

(** An ASCII literal of the source, as code points. *)
Fixpoint py (s : string) : text :=
  match s with
  | EmptyString => []
  | String a s' => N_of_ascii a :: py s'
  end.

(** The same for a literal that holds double quotes, written here with
    apostrophes in their place. *)
Definition dq (s : string) : text :=
  map (fun c => if c =? 39 then 34 else c) (py s).

(** The line feed. *)
Definition nl : text := [10].

(** A call that returns, or raises a [KeyError] the program does not
    catch. *)
Inductive result (A : Type) :=
| Done (a : A)
| KeyError (key : text).
Arguments Done {A}. Arguments KeyError {A}.

Definition char_eqb (a b : char) : bool := N.eqb a b.

Fixpoint text_eqb (a b : text) : bool :=
  match a, b with
  | [], [] => true
  | x :: a', y :: b' => char_eqb x y && text_eqb a' b'
  | _, _ => false
  end.

(** [str.isspace] on one code point: the white space of [str.strip] and of
    [\s] in a [str] pattern. *)
Definition is_space (c : char) : bool :=
  ((9 <=? c) && (c <=? 13)) || ((28 <=? c) && (c <=? 32))
  || (c =? 133) || (c =? 160) || (c =? 5760)
  || ((8192 <=? c) && (c <=? 8202))
  || (c =? 8232) || (c =? 8233) || (c =? 8239) || (c =? 8287) || (c =? 12288).

Fixpoint lstrip (s : text) : text :=
  match s with
  | [] => []
  | c :: s' => if is_space c then lstrip s' else s
  end.

Fixpoint rstrip (s : text) : text :=
  match s with
  | [] => []
  | c :: s' =>
      match rstrip s' with
      | [] => if is_space c then [] else [c]
      | r => c :: r
      end
  end.

(** [s.strip()] *)
Definition strip (s : text) : text := rstrip (lstrip s).

(** [s.startswith(p)] *)
Fixpoint startswith (s p : text) {struct p} : bool :=
  match p, s with
  | [], _ => true
  | x :: p', y :: s' => char_eqb x y && startswith s' p'
  | _ :: _, [] => false
  end.

(** [sub in s] *)
Fixpoint contains (sub s : text) : bool :=
  startswith s sub ||
  match s with
  | [] => false
  | _ :: s' => contains sub s'
  end.

(** [s.split(sep)] for a non-empty [sep]: the pieces between the leftmost
    non-overlapping occurrences of [sep].  [skip] counts the characters of
    an occurrence still to be passed over. *)
Fixpoint split_from (sep : text) (skip : nat) (s : text) : list text :=
  match s with
  | [] => [[]]
  | c :: s' =>
      match skip with
      | S k => split_from sep k s'
      | O =>
          if startswith s sep then [] :: split_from sep (pred (length sep)) s'
          else match split_from sep 0 s' with
               | p :: ps => (c :: p) :: ps
               | [] => [[c]]
               end
      end
  end.

Definition split (s sep : text) : list text := split_from sep 0 s.

(** [sep.join(parts)] *)
Fixpoint join (sep : text) (parts : list text) : text :=
  match parts with
  | [] => []
  | [p] => p
  | p :: ps => p ++ sep ++ join sep ps
  end.

(** ASCII digits and the number a run of them denotes. *)
Definition is_digit (c : char) : bool := (48 <=? c) && (c <=? 57).

Fixpoint span_digits (s : text) : text * text :=
  match s with
  | c :: s' =>
      if is_digit c then let '(ds, r) := span_digits s' in (c :: ds, r)
      else ([], s)
  | [] => ([], [])
  end.

Definition int_of_digits (ds : text) : Z :=
  fold_left (fun acc c => (10 * acc + Z.of_N (c - 48))%Z) ds 0%Z.

(** [str(n)] for a non-negative integer. *)
Fixpoint digits_of_uint (d : Decimal.uint) : text :=
  match d with
  | Decimal.Nil => []
  | Decimal.D0 d' => 48 :: digits_of_uint d'
  | Decimal.D1 d' => 49 :: digits_of_uint d'
  | Decimal.D2 d' => 50 :: digits_of_uint d'
  | Decimal.D3 d' => 51 :: digits_of_uint d'
  | Decimal.D4 d' => 52 :: digits_of_uint d'
  | Decimal.D5 d' => 53 :: digits_of_uint d'
  | Decimal.D6 d' => 54 :: digits_of_uint d'
  | Decimal.D7 d' => 55 :: digits_of_uint d'
  | Decimal.D8 d' => 56 :: digits_of_uint d'
  | Decimal.D9 d' => 57 :: digits_of_uint d'
  end.

Definition str_N (n : N) : text := digits_of_uint (N.to_uint n).

Definition str_Z (z : Z) : text :=
  match z with
  | Zneg p => 45 :: str_N (Npos p)
  | _ => str_N (Z.to_N z)
  end.

End Text.

Import Text.

(** ** Regular expressions

    [re.search] for patterns that are a sequence of single characters,
    character classes and starred single-character items: the backtracking
    matcher of [re], which tries the alternatives of a greedy star longest
    first and those of a lazy star shortest first, and the leftmost start. *)

Module Re.

Inductive atom :=
| Lit (c : char)      (* an escaped or plain literal *)
| Space               (* [\s] *)
| AnyChar.            (* [.] under [re.DOTALL] *)

Inductive item :=
| One (a : atom)
| Star (a : atom)     (* [a*] *)
| LazyStar (a : atom). (* [a*?] *)

Definition pattern := list item.

Definition atom_matches (a : atom) (c : char) : bool :=
  match a with
  | Lit x => char_eqb x c
  | Space => is_space c
  | AnyChar => true
  end.

(** [match_here p s]: the rest of [s] after the first way, in the
    matcher's order, in which [p] matches a prefix of [s]. *)
Fixpoint match_here (p : pattern) (s : text) {struct p} : option text :=
  match p with
  | [] => Some s
  | One a :: p' =>
      match s with
      | c :: s' => if atom_matches a c then match_here p' s' else None
      | [] => None
      end
  | Star a :: p' =>
      (fix star (s : text) : option text :=
         match s with
         | c :: s' =>
             if atom_matches a c then
               match star s' with
               | Some r => Some r
               | None => match_here p' s
               end
             else match_here p' s
         | [] => match_here p' s
         end) s
  | LazyStar a :: p' =>
      (fix star (s : text) : option text :=
         match match_here p' s with
         | Some r => Some r
         | None =>
             match s with
             | c :: s' => if atom_matches a c then star s' else None
             | [] => None
             end
         end) s
  end.

(** [m.group(0)] of [re.search(p, s)]: the matched text at the leftmost
    position where [p] matches. *)
Fixpoint search (p : pattern) (s : text) : option text :=
  match match_here p s with
  | Some r => Some (take (length s - length r) s)
  | None =>
      match s with
      | [] => None
      | _ :: s' => search p s'
      end
  end.

End Re.

(** ** JSON decoding

    [json.loads] on a [str], with the default decoder: the scanner of
    [json.scanner], strings in strict mode, the constants [NaN],
    [Infinity] and [-Infinity] accepted.  A float is kept as the lexeme it
    is read from (binary floating point is outside the model), an integer
    as its value.  The messages are those of CPython 3.11.  The limits of
    the interpreter on the depth of nesting and on the number of digits
    of an integer are not outcomes of [loads]: [within_limits] is a
    condition under which they are not met. *)

Module Json.

#[local] Set Warnings "-register-all".

Inductive value :=
| JNull
| JBool (b : bool)
| JInt (z : Z)
| JFloat (lexeme : text)
| JStr (s : text)
| JArr (items : list value)
| JObj (members : list (text * value)).

(** [json.JSONDecodeError]: the message and the position in the document. *)
Record JSONDecodeError := { msg : text; pos : nat }.

(** What a scanning step gives: a value and the text after it, the
    scanner's [StopIteration] at a position, a decoding error at a
    position, or [Deep] when the recursion budget is used up.  Positions
    are given by the text that starts there. *)
Inductive scanned (A : Type) :=
| Found (a : A) (rest : text)
| Stop (at_ : text)
| Fail (m : text) (at_ : text)
| Deep.
Arguments Found {A}. Arguments Stop {A}. Arguments Fail {A}. Arguments Deep {A}.

Definition is_ws (c : char) : bool :=
  (c =? 32) || (c =? 9) || (c =? 10) || (c =? 13).

Fixpoint skip_ws (s : text) : text :=
  match s with
  | c :: s' => if is_ws c then skip_ws s' else s
  | [] => []
  end.

Definition hex_digit (c : char) : option N :=
  if is_digit c then Some (c - 48)
  else if (97 <=? c) && (c <=? 102) then Some (c - 87)
  else if (65 <=? c) && (c <=? 70) then Some (c - 55)
  else None.

Definition hex4 (a b c d : char) : option N :=
  match hex_digit a, hex_digit b, hex_digit c, hex_digit d with
  | Some x, Some y, Some z, Some w => Some (((x * 16 + y) * 16 + z) * 16 + w)
  | _, _, _, _ => None
  end.

Definition is_high_surrogate (c : N) : bool := (55296 <=? c) && (c <=? 56319).
Definition is_low_surrogate (c : N) : bool := (56320 <=? c) && (c <=? 57343).
Definition join_surrogates (hi lo : N) : N :=
  65536 + ((hi - 55296) * 1024 + (lo - 56320)).

Definition escape_char (e : char) : option char :=
  if e =? 34 then Some 34 else if e =? 92 then Some 92
  else if e =? 47 then Some 47 else if e =? 98 then Some 8
  else if e =? 102 then Some 12 else if e =? 110 then Some 10
  else if e =? 114 then Some 13 else if e =? 116 then Some 9
  else None.

Definition cons_found (c : char) (r : scanned text) : scanned text :=
  match r with
  | Found cs rest => Found (c :: cs) rest
  | other => other
  end.

(** [scanstring]: the characters of a string whose opening quote has been
    read; [start] is the text at that quote.  The four digits of a
    [\u] escape must not end the text, and a second escape is read as the
    low half of a pair only if it does not end the text either. *)
Fixpoint scanstring (start s : text) {struct s} : scanned text :=
  match s with
  | [] => Fail (py "Unterminated string starting at") start
  | c :: s1 =>
      if c =? 34 then Found [] s1
      else if c =? 92 then
        match s1 with
        | [] => Fail (py "Unterminated string starting at") start
        | e :: s2 =>
            if e =? 117 then
              match s2 with
              | h1 :: h2 :: h3 :: h4 :: ((_ :: _) as s3) =>
                  match hex4 h1 h2 h3 h4 with
                  | None => Fail (py "Invalid \uXXXX escape") s1
                  | Some u =>
                      match s3 with
                      | b :: u' :: g1 :: g2 :: g3 :: g4 :: ((_ :: _) as s4) =>
                          if is_high_surrogate u && (b =? 92) && (u' =? 117) then
                            match hex4 g1 g2 g3 g4 with
                            | None => Fail (py "Invalid \uXXXX escape") (u' :: g1 :: g2 :: g3 :: g4 :: s4)
                            | Some l =>
                                if is_low_surrogate l
                                then cons_found (join_surrogates u l) (scanstring start s4)
                                else cons_found u (scanstring start s3)
                            end
                          else cons_found u (scanstring start s3)
                      | _ => cons_found u (scanstring start s3)
                      end
                  end
              | _ => Fail (py "Invalid \uXXXX escape") s1
              end
            else
              match escape_char e with
              | Some x => cons_found x (scanstring start s2)
              | None => Fail (py "Invalid \escape") s
              end
        end
      else if c <=? 31 then Fail (py "Invalid control character at") s
      else cons_found c (scanstring start s1)
  end.

(** The number at the head of [s], if any: an integer part, an optional
    fraction and an optional exponent. *)
Definition match_number (s : text) : option (value * text) :=
  let '(sign, s1) := match s with
                     | c :: s' => if c =? 45 then ([c], s') else ([], s)
                     | [] => ([], s)
                     end in
  let int_part :=
    match s1 with
    | c :: s2 =>
        if c =? 48 then Some ([c], s2)
        else if is_digit c then let '(ds, r) := span_digits s2 in Some (c :: ds, r)
        else None
    | [] => None
    end in
  match int_part with
  | None => None
  | Some (int_ds, r1) =>
      let '(frac, r2) :=
        match r1 with
        | dot :: d :: r =>
            if (dot =? 46) && is_digit d
            then let '(ds, r') := span_digits r in (dot :: d :: ds, r')
            else ([], r1)
        | _ => ([], r1)
        end in
      let '(exp, r3) :=
        match r2 with
        | e :: r =>
            if (e =? 101) || (e =? 69) then
              let '(sg, ra) := match r with
                               | c :: r' => if (c =? 45) || (c =? 43) then ([c], r') else ([], r)
                               | [] => ([], r)
                               end in
              match span_digits ra with
              | ([], _) => ([], r2)
              | (ds, rb) => (e :: sg ++ ds, rb)
              end
            else ([], r2)
        | [] => ([], r2)
        end in
      match frac, exp with
      | [], [] =>
          let n := int_of_digits int_ds in
          Some (JInt (match sign with [] => n | _ => (- n)%Z end), r3)
      | _, _ => Some (JFloat (sign ++ int_ds ++ frac ++ exp), r3)
      end
  end.

(** [d[k] = v] on a dict kept in insertion order. *)
Fixpoint dict_set (k : text) (v : value) (d : list (text * value)) : list (text * value) :=
  match d with
  | [] => [(k, v)]
  | (k', v') :: d' => if text_eqb k k' then (k, v) :: d' else (k', v') :: dict_set k v d'
  end.

Definition expecting_value {A} (r : scanned A) : scanned A :=
  match r with
  | Stop at_ => Fail (py "Expecting value") at_
  | other => other
  end.

(** [scan_once], [JSONArray] and [JSONObject].  [depth] bounds the calls
    still allowed; [loads] gives two more than twice the length of the
    document, which is never used up ([loads_not_exhausted]). *)
Fixpoint scan_once (depth : nat) (s : text) {struct depth} : scanned value :=
  match depth with
  | O => Deep
  | S depth' =>
      match s with
      | [] => Stop s
      | c :: s' =>
          if c =? 34 then
            match scanstring s s' with
            | Found cs rest => Found (JStr cs) rest
            | Stop at_ => Stop at_
            | Fail m at_ => Fail m at_
            | Deep => Deep
            end
          else if c =? 123 then
            match skip_ws s' with
            | (c' :: r) as s1 =>
                if c' =? 125 then Found (JObj []) r
                else parse_members depth' [] s1
            | [] => parse_members depth' [] []
            end
          else if c =? 91 then
            match skip_ws s' with
            | (c' :: r) as s1 =>
                if c' =? 93 then Found (JArr []) r
                else parse_items depth' [] s1
            | [] => parse_items depth' [] []
            end
          else if startswith s (py "null") then Found JNull (drop 4 s)
          else if startswith s (py "true") then Found (JBool true) (drop 4 s)
          else if startswith s (py "false") then Found (JBool false) (drop 5 s)
          else if startswith s (py "NaN") then Found (JFloat (py "NaN")) (drop 3 s)
          else if startswith s (py "Infinity") then Found (JFloat (py "Infinity")) (drop 8 s)
          else if startswith s (py "-Infinity") then Found (JFloat (py "-Infinity")) (drop 9 s)
          else
            match match_number s with
            | Some (v, rest) => Found v rest
            | None => Stop s
            end
      end
  end
with parse_items (depth : nat) (acc : list value) (s : text) {struct depth} : scanned value :=
  match depth with
  | O => Deep
  | S depth' =>
      match expecting_value (scan_once depth' s) with
      | Found v rest =>
          match skip_ws rest with
          | (c :: r) as s1 =>
              if c =? 93 then Found (JArr (acc ++ [v])) r
              else if c =? 44 then parse_items depth' (acc ++ [v]) (skip_ws r)
              else Fail (py "Expecting ',' delimiter") s1
          | [] => Fail (py "Expecting ',' delimiter") []
          end
      | Stop at_ => Stop at_
      | Fail m at_ => Fail m at_
      | Deep => Deep
      end
  end
with parse_members (depth : nat) (acc : list (text * value)) (s : text) {struct depth} : scanned value :=
  match depth with
  | O => Deep
  | S depth' =>
      match s with
      | q :: s' =>
          if q =? 34 then
            match scanstring s s' with
            | Found key rest =>
                match skip_ws rest with
                | (c :: r) as s1 =>
                    if c =? 58 then
                      match expecting_value (scan_once depth' (skip_ws r)) with
                      | Found v rest' =>
                          match skip_ws rest' with
                          | (c' :: r') as s2 =>
                              if c' =? 125 then Found (JObj (dict_set key v acc)) r'
                              else if c' =? 44 then parse_members depth' (dict_set key v acc) (skip_ws r')
                              else Fail (py "Expecting ',' delimiter") s2
                          | [] => Fail (py "Expecting ',' delimiter") []
                          end
                      | Stop at_ => Stop at_
                      | Fail m at_ => Fail m at_
                      | Deep => Deep
                      end
                    else Fail (py "Expecting ':' delimiter") s1
                | [] => Fail (py "Expecting ':' delimiter") []
                end
            | Stop at_ => Stop at_
            | Fail m at_ => Fail m at_
            | Deep => Deep
            end
          else Fail (py "Expecting property name enclosed in double quotes") s
      | [] => Fail (py "Expecting property name enclosed in double quotes") []
      end
  end.

Inductive loaded :=
| Loaded (v : value)
| Raised (e : JSONDecodeError)
| Exhausted.

Definition error_at (doc : text) (m : text) (at_ : text) : loaded :=
  Raised {| msg := m; pos := length doc - length at_ |}.

(** [json.loads(doc)], for a document that stays within the limits of the
    interpreter ([within_limits] below): beyond them the call can end with
    a [RecursionError] or a [ValueError], which are not outcomes here. *)
Definition loads (doc : text) : loaded :=
  if startswith doc [65279] then
    error_at doc (py "Unexpected UTF-8 BOM (decode using utf-8-sig)") doc
  else
    match expecting_value (scan_once (2 * length doc + 2) (skip_ws doc)) with
    | Found v rest =>
        match skip_ws rest with
        | [] => Loaded v
        | r => error_at doc (py "Extra data") r
        end
    | Stop at_ => error_at doc (py "Expecting value") at_
    | Fail m at_ => error_at doc m at_
    | Deep => Exhausted
    end.

(** A step of the scanner advances: what it leaves is shorter than [n],
    and its budget was enough. *)
Definition advances {A} (n : nat) (r : scanned A) : Prop :=
  match r with
  | Found _ rest => (length rest < n)%nat
  | Stop _ | Fail _ _ => True
  | Deep => False
  end.

(** [str(e)] for a [JSONDecodeError] raised on [doc]. *)
Fixpoint line_col (s : text) (n : nat) (line col : nat) : nat * nat :=
  match n, s with
  | S n', c :: s' =>
      if c =? 10 then line_col s' n' (S line) 1%nat
      else line_col s' n' line (S col)
  | _, _ => (line, col)
  end.

Definition str_error (doc : text) (e : JSONDecodeError) : text :=
  let '(line, col) := line_col doc (pos e) 1%nat 1%nat in
  msg e ++ py ": line " ++ str_N (N.of_nat line) ++ py " column " ++ str_N (N.of_nat col)
        ++ py " (char " ++ str_N (N.of_nat (pos e)) ++ py ")".

(** The limits of the interpreter that [json.loads] can meet: the number
    of nested calls still allowed where it is called
    ([sys.getrecursionlimit()] less the depth of the stack there), and
    [sys.get_int_max_str_digits()], where 0 stands for no limit. *)
Record Interpreter := {
  recursion_remaining : nat;
  int_max_str_digits : nat
}.

(** The opening brackets and braces of a text: the arrays and objects of a
    document are nested no deeper. *)
Fixpoint brackets (s : text) : nat :=
  match s with
  | [] => 0%nat
  | c :: s' =>
      if (c =? 91) || (c =? 123) then S (brackets s') else brackets s'
  end.

(** The longest run of digits of a text, after [run] digits: no integer of
    a document has more digits. *)
Fixpoint longest_digits (run : nat) (s : text) : nat :=
  match s with
  | [] => run
  | c :: s' =>
      if is_digit c then longest_digits (S run) s'
      else Nat.max run (longest_digits 0 s')
  end.

(** A condition under which decoding meets neither limit.  The scanner
    enters one call for each array or object it is in; the calls of
    [loads], of the decoder and of the construction of a
    [JSONDecodeError] take less than ten more. *)
Definition within_limits (limits : Interpreter) (doc : text) : bool :=
  (brackets doc + 10 <=? recursion_remaining limits)%nat
  && ((int_max_str_digits limits =? 0)%nat
      || (longest_digits 0 doc <=? int_max_str_digits limits)%nat).

(** The limits of an interpreter as it is installed, a hundred calls deep. *)
Definition default_limits : Interpreter :=
  {| recursion_remaining := 900; int_max_str_digits := 4300 |}.

End Json.

(** ** The metadata table

    [pandas] is modelled at the level of fields.  A CSV file is its header
    and its lines of field texts, as the tokenizer delivers them and as
    the writer receives them; quoting, which carries a field's text
    unchanged, is below the model.  The model is that of a well-formed
    file ([wf_csv]): at least one column, distinct and non-empty column
    names, and one field per name in every line.  These are the files the
    program writes; on others [read_csv] renames columns, takes fields
    for an index, or raises.  Where it raises is [read_csv_raises]; the
    rest the model leaves out.

    [read_csv] infers a type for every column, in the order of the C
    parser: int64, then uint64 on overflow, float64, bool, and object
    otherwise.  Binary floating point is outside the model: which tokens
    convert to a float64, and the text written for a float64, are the
    operations of [Floats]; a float64 is kept as a token it is read from. *)

Module Store.

Class Floats := {
  (** the tokenizer converts the token to a float64 *)
  parses_as_float : text -> bool;
  (** [repr] of the float64 read from the token *)
  float_repr : text -> text
}.

Inductive dtype := int64 | uint64 | float64 | bool_ | object.

Inductive cell :=
| CStr (s : text)
| CInt (z : Z)
| CFloat (tok : text)
| CBool (b : bool)
| CNaN.

Definition dtype_eqb (a b : dtype) : bool :=
  match a, b with
  | int64, int64 | uint64, uint64 | float64, float64 | bool_, bool_ | object, object => true
  | _, _ => false
  end.

(** A frame with the default [RangeIndex]: row labels are positions. *)
Record DataFrame := {
  columns : list (text * dtype);
  rows : list (list cell)
}.

Definition names (df : DataFrame) : list text := (columns df).*1.

Record csv := {
  header : list text;
  lines : list (list text)
}.

(** The metadata file: absent, or a file with its contents. *)
Definition file := option csv.

Definition wf_csv (f : csv) : Prop :=
  header f <> [] /\ NoDup (header f) /\ ([] ∉ header f) /\
  Forall (fun l => length l = length (header f)) (lines f).

Definition wf_file (st : file) : Prop :=
  match st with
  | Some f => wf_csv f
  | None => True
  end.

(** [col in cols] *)
Fixpoint text_in (x : text) (l : list text) : bool :=
  match l with
  | [] => false
  | y :: l' => text_eqb x y || text_in x l'
  end.

(** *** Reading *)

(** The default NA markers of [read_csv]: the empty field and these. *)
Definition na_values : list text :=
  [] :: map py ["-1.#IND"; "1.#QNAN"; "1.#IND"; "-1.#QNAN"; "#N/A N/A"; "#N/A";
                "N/A"; "n/a"; "NA"; "<NA>"; "#NA"; "NULL"; "null"; "NaN"; "-NaN";
                "nan"; "-nan"; "None"]%string.

Definition is_na (tok : text) : bool := text_in tok na_values.

Definition isspace_ascii (c : char) : bool :=
  (c =? 32) || ((9 <=? c) && (c <=? 13)).

Fixpoint skip_spaces (s : text) : text :=
  match s with
  | c :: s' => if isspace_ascii c then skip_spaces s' else s
  | [] => []
  end.

Inductive conv := Conv (z : Z) | Invalid | Overflow.

Definition INT64_MIN : Z := (- 2 ^ 63)%Z.
Definition INT64_MAX : Z := (2 ^ 63 - 1)%Z.
Definition UINT64_MAX : Z := (2 ^ 64 - 1)%Z.

(** [str_to_int64] of the tokenizer. *)
Definition str_to_int64 (tok : text) : conv :=
  let s := skip_spaces tok in
  let '(neg, s1) := match s with
                    | c :: s' => if c =? 45 then (true, s')
                                 else if c =? 43 then (false, s') else (false, s)
                    | [] => (false, s)
                    end in
  match span_digits s1 with
  | ([], _) => Invalid
  | (ds, r) =>
      let n := if neg then (- int_of_digits ds)%Z else int_of_digits ds in
      if (n <? INT64_MIN)%Z || (INT64_MAX <? n)%Z then Overflow
      else match skip_spaces r with
           | [] => Conv n
           | _ => Invalid
           end
  end.

Record uint_state := { seen_sint : bool; seen_uint : bool; seen_null : bool }.

(** [str_to_uint64] of the tokenizer: a conversion, or a signed token seen. *)
Definition str_to_uint64 (st : uint_state) (tok : text) : uint_state * conv :=
  let s := skip_spaces tok in
  match s with
  | c :: s' =>
      if c =? 45 then
        ({| seen_sint := true; seen_uint := seen_uint st; seen_null := seen_null st |}, Conv 0)
      else
        let s1 := if c =? 43 then s' else s in
        match span_digits s1 with
        | ([], _) => (st, Invalid)
        | (ds, r) =>
            let n := int_of_digits ds in
            if (UINT64_MAX <? n)%Z then (st, Overflow)
            else match skip_spaces r with
                 | [] =>
                     (if (INT64_MAX <? n)%Z
                      then {| seen_sint := seen_sint st; seen_uint := true; seen_null := seen_null st |}
                      else st, Conv n)
                 | _ => (st, Invalid)
                 end
        end
  | [] => (st, Invalid)
  end.

Inductive scan := ScanOk | ScanInvalid | ScanOverflow.

(** [_try_int64]: stops at the first token that does not convert. *)
Fixpoint try_int64 (toks : list text) : scan :=
  match toks with
  | [] => ScanOk
  | t :: ts =>
      if is_na t then try_int64 ts
      else match str_to_int64 t with
           | Conv _ => try_int64 ts
           | Invalid => ScanInvalid
           | Overflow => ScanOverflow
           end
  end.

(** [_try_uint64] *)
Fixpoint try_uint64 (st : uint_state) (toks : list text) : uint_state * scan :=
  match toks with
  | [] => (st, ScanOk)
  | t :: ts =>
      if is_na t then
        try_uint64 {| seen_sint := seen_sint st; seen_uint := seen_uint st; seen_null := true |} ts
      else match str_to_uint64 st t with
           | (st', Conv _) => try_uint64 st' ts
           | (st', Invalid) => (st', ScanInvalid)
           | (st', Overflow) => (st', ScanOverflow)
           end
  end.

(** The lower case of an ASCII letter. *)
Definition lower (c : char) : char :=
  if (65 <=? c) && (c <=? 90) then c + 32 else c.

(** The boolean conversion: after the spellings [True], [TRUE], [true],
    [False], [FALSE], [false], [to_boolean] of the tokenizer compares the
    token with [TRUE] and [FALSE] without regard to the case of ASCII
    letters. *)
Definition is_bool (tok : text) : bool :=
  text_in (lower <$> tok) [py "true"; py "false"].

Definition bool_of (tok : text) : bool :=
  text_eqb (lower <$> tok) (py "true").

(** What the conversion of a column settles on. *)
Inductive kind :=
| KInt (with_na : bool)      (* int64; with NA values upcast to float64 *)
| KUInt
| KFloat
| KBool (with_na : bool)     (* bool; with NA values upcast to object *)
| KObject (na_filter : bool). (* strings; NA markers read as NaN when filtered *)

Section Reading.
Context `{Floats}.

Definition after_int (toks : list text) : kind :=
  if forallb (fun t => is_na t || parses_as_float t) toks then KFloat
  else if forallb (fun t => is_na t || is_bool t) toks then KBool (existsb is_na toks)
  else KObject true.

(** [_convert_tokens]: the first type of the cast order that converts the
    whole column.  An overflow of uint64, or signed and unsigned values
    together, leaves the column as strings. *)
Definition decide_kind (toks : list text) : kind :=
  match toks with
  | [] => KObject true
  | _ =>
      match try_int64 toks with
      | ScanOk => KInt (existsb is_na toks)
      | ScanInvalid => after_int toks
      | ScanOverflow =>
          match try_uint64 {| seen_sint := false; seen_uint := false; seen_null := false |} toks with
          | (_, ScanInvalid) => after_int toks
          | (_, ScanOverflow) => KObject true
          | (st, ScanOk) =>
              if seen_uint st && (seen_null st || seen_sint st) then KObject false
              else if seen_sint st then KObject true
              else KUInt
          end
      end
  end.

Definition dtype_of (k : kind) : dtype :=
  match k with
  | KInt false => int64
  | KInt true => float64
  | KUInt => uint64
  | KFloat => float64
  | KBool false => bool_
  | KBool true => object
  | KObject _ => object
  end.

Definition int_value (tok : text) : Z :=
  match str_to_int64 tok with
  | Conv z => z
  | _ => 0%Z
  end.

Definition uint_value (tok : text) : Z :=
  match str_to_uint64 {| seen_sint := false; seen_uint := false; seen_null := false |} tok with
  | (_, Conv z) => z
  | _ => 0%Z
  end.

(** The value a token takes in a column of the given kind. *)
Definition convert (k : kind) (tok : text) : cell :=
  match k with
  | KInt false => CInt (int_value tok)
  | KInt true => if is_na tok then CNaN else CFloat (str_Z (int_value tok))
  | KUInt => CInt (uint_value tok)
  | KFloat => if is_na tok then CNaN else CFloat tok
  | KBool false => CBool (bool_of tok)
  | KBool true => if is_na tok then CNaN else CBool (bool_of tok)
  | KObject true => if is_na tok then CNaN else CStr tok
  | KObject false => CStr tok
  end.

(** The field of a line under column [k]; a short line is padded with
    empty fields. *)
Definition field (k : nat) (line : list text) : text := default [] (line !! k).

Definition column_tokens (k : nat) (ls : list (list text)) : list text :=
  field k <$> ls.

Definition kinds (f : csv) : list kind :=
  imap (fun k _ => decide_kind (column_tokens k (lines f))) (header f).

(** [pd.read_csv(METADATA_FILE)]: the frame for a well-formed file. *)
Definition read_csv (f : csv) : DataFrame :=
  let ks := kinds f in
  {| columns := zip (header f) (dtype_of <$> ks);
     rows := (fun line => imap (fun k kd => convert kd (field k line)) ks) <$> lines f |}.

(** What comes out of [pd.read_csv] when it does not return a frame:
    [EmptyDataError] (No columns to parse from file) for a file without a
    header line, a file of zero bytes or of blank lines only, and
    [ParserError] (Error tokenizing data) for a line with too many
    fields. *)
Inductive read_error :=
| EmptyDataError
| ParserError.

(** The number of fields the tokenizer allows in a line: it takes the
    line after the header as it is, and pads a shorter line with empty
    fields. *)
Definition expected_fields (f : csv) : nat :=
  match lines f with
  | l :: _ => Nat.max (length (header f)) (length l)
  | [] => length (header f)
  end.

(** The exception of [pd.read_csv(METADATA_FILE)], if any. *)
Definition read_csv_raises (f : csv) : option read_error :=
  match header f with
  | [] => Some EmptyDataError
  | _ :: _ =>
      if forallb (fun l => (length l <=? expected_fields f)%nat) (lines f) then None
      else Some ParserError
  end.

End Reading.

(** *** Writing and frame operations *)

Section Frames.
Context `{Floats}.

(** [str(v)] of a value of the frame. *)
Definition str_cell (c : cell) : text :=
  match c with
  | CStr s => s
  | CInt z => str_Z z
  | CFloat tok => float_repr tok
  | CBool true => py "True"
  | CBool false => py "False"
  | CNaN => py "nan"
  end.

(** The text [to_csv] writes for a value: a missing value is empty. *)
Definition csv_text (c : cell) : text :=
  match c with
  | CNaN => []
  | _ => str_cell c
  end.

(** [df.to_csv(METADATA_FILE, index=False)] *)
Definition to_csv (df : DataFrame) : csv :=
  {| header := names df;
     lines := (fun row : list cell => csv_text <$> row) <$> rows df |}.

(** [pd.DataFrame(columns=REQUIRED_COLUMNS)] and the like. *)
Definition empty_frame (cols : list text) : DataFrame :=
  {| columns := (fun c => (c, object)) <$> cols; rows := [] |}.

(** [df.empty] *)
Definition empty (df : DataFrame) : bool :=
  match columns df, rows df with
  | [], _ | _, [] => true
  | _, _ => false
  end.

(** [index in df.index] for the default index. *)
Definition in_index (index : Z) (df : DataFrame) : bool :=
  (0 <=? index)%Z && (index <? Z.of_nat (length (rows df)))%Z.

(** The position of a column name. *)
Fixpoint position (x : text) (l : list text) : option nat :=
  match l with
  | [] => None
  | y :: l' => if text_eqb x y then Some O else S <$> position x l'
  end.

(** [row[col]]: [None] stands for the [KeyError]. *)
Definition get (cols : list text) (row : list cell) (col : text) : option cell :=
  k ← position col cols; row !! k.

(** [df.at[index, col]] *)
Definition at_ (df : DataFrame) (index : nat) (col : text) : option cell :=
  row ← rows df !! index; get (names df) row col.

(** [df.drop(index).reset_index(drop=True)] *)
Definition drop_row (df : DataFrame) (index : nat) : DataFrame :=
  {| columns := columns df; rows := delete index (rows df) |}.

(** A missing value enters a column: integers become floats and booleans
    objects. *)
Definition upcast_dtype (d : dtype) : dtype :=
  match d with
  | int64 | uint64 => float64
  | bool_ => object
  | other => other
  end.

Definition upcast_cell (d : dtype) (c : cell) : cell :=
  match d, c with
  | (int64 | uint64), CInt z => CFloat (str_Z z)
  | _, _ => c
  end.

(** [pd.concat([df, new_entry], ignore_index=True)] for a one-row
    [new_entry] of strings, given as its columns and values: the columns
    of [df], then the new ones; a column one side lacks is filled with
    missing values there. *)
Definition concat_row (df : DataFrame) (entry : list (text * text)) : DataFrame :=
  let fresh := filter (fun kv => negb (text_in kv.1 (names df))) entry in
  let old_cols :=
    (fun cd : text * dtype =>
       (cd.1, if text_in cd.1 entry.*1 then object else upcast_dtype cd.2))
    <$> columns df in
  let old_row (row : list cell) :=
    zip_with (fun (cd : text * dtype) c =>
                if text_in cd.1 entry.*1 then c else upcast_cell cd.2 c)
             (columns df) row
    ++ ((fun _ => CNaN) <$> fresh) in
  let value (col : text) : cell :=
    match position col entry.*1 with
    | Some k => default CNaN (CStr <$> (entry.*2 !! k))
    | None => CNaN
    end in
  {| columns := old_cols ++ ((fun kv => (kv.1, object)) <$> fresh);
     rows := (old_row <$> rows df) ++ [value <$> names df ++ fresh.*1] |}.

(** The type of the rows [df.iterrows()] yields: that of the columns when
    they agree, float64 for numeric columns that differ, object
    otherwise. *)
Definition is_numeric (d : dtype) : bool :=
  match d with
  | int64 | uint64 | float64 => true
  | _ => false
  end.

Definition row_dtype (ds : list dtype) : dtype :=
  match ds with
  | [] => object
  | d :: ds' =>
      if forallb (dtype_eqb d) ds' then d
      else if forallb is_numeric ds then float64
      else object
  end.

Definition as_row_dtype (d : dtype) (c : cell) : cell :=
  match d, c with
  | float64, CInt z => CFloat (str_Z z)
  | _, _ => c
  end.

(** The rows of [df.iterrows()], in index order. *)
Definition iterrows (df : DataFrame) : list (list cell) :=
  (fun row : list cell => as_row_dtype (row_dtype (columns df).*2) <$> row) <$> rows df.

End Frames.

(** *** The helpers of the program *)

Definition REQUIRED_COLUMNS : list text :=
  map py ["Image URL"; "Public ID"; "Category"; "Color"; "Season"]%string.

(** What the helpers do to the outside: a call of
    [cloudinary.uploader.destroy], and [st.warning]. *)
Inductive effect :=
| destroy_call (public_id : cell)
| st_warning (message : text).

Section Helpers.
Context `{Floats}.

(** [cloudinary.uploader.destroy]: [None] when it returns, [Some e] when
    it raises an [Exception] whose text is [e]. *)
Variable destroy : cell -> option text.

(** The frame both [save_metadata] and [load_metadata] start from. *)
Definition load_metadata (st : file) : DataFrame :=
  match st with
  | Some f =>
      let df := read_csv f in
      if forallb (fun col => text_in col (names df)) REQUIRED_COLUMNS
      then df
      else empty_frame REQUIRED_COLUMNS
  | None => empty_frame REQUIRED_COLUMNS
  end.

(** [load_metadata] has no handler: what [pd.read_csv] raises on a file
    that exists comes out of it. *)
Definition load_metadata_raises (st : file) : option read_error :=
  match st with
  | Some f => read_csv_raises f
  | None => None
  end.

Definition save_metadata (image_url public_id category color season : text) (st : file) : file :=
  let df := match st with
            | Some f =>
                let df := read_csv f in
                if forallb (fun col => text_in col (names df)) REQUIRED_COLUMNS
                then df
                else empty_frame REQUIRED_COLUMNS
            | None => empty_frame REQUIRED_COLUMNS
            end in
  let new_entry := [(py "Image URL", image_url); (py "Public ID", public_id);
                    (py "Category", category); (py "Color", color);
                    (py "Season", season)] in
  let df := concat_row df new_entry in
  Some (to_csv df).

(** [delete_item(index)]: the file afterwards and the effects, in order. *)
Definition delete_item (index : Z) (st : file) : result (file * list effect) :=
  let df := load_metadata st in
  if negb (empty df) && in_index index df then
    match at_ df (Z.to_nat index) (py "Public ID") with
    | Some public_id =>
        let effects :=
          match destroy public_id with
          | None => [destroy_call public_id]
          | Some e =>
              [destroy_call public_id;
               st_warning (py "Could not delete from Cloudinary: " ++ e)]
          end in
        let df := drop_row df (Z.to_nat index) in
        Done (Some (to_csv df), effects)
    | None => KeyError (py "Public ID")
    end
  else Done (st, []).

End Helpers.

(** *** Notions for the properties *)

Section Notions.
Context `{Floats}.

(** A text that every conversion but the one to a string refuses: not an
    NA marker, not a number, not a boolean. *)
Definition plain (tok : text) : Prop :=
  is_na tok = false /\ str_to_int64 tok = Invalid /\
  parses_as_float tok = false /\ is_bool tok = false.

(** [new] is what [read_csv] makes, in a column of some type, of the text
    [to_csv] writes for [old]. *)
Definition rereads (old new : cell) : Prop :=
  exists k, new = convert k (csv_text old).

Definition plain_cell (c : cell) : Prop :=
  exists tok, c = CStr tok /\ plain tok.

(** A value kept through [to_csv] and [read_csv]: re-read from its text,
    and itself when it is a plain string. *)
Definition kept (old new : cell) : Prop :=
  rereads old new /\ (plain_cell old -> new = old).

(** The row [concat_row] appends for an entry whose columns the table has. *)
Definition appended (T : DataFrame) (entry : list (text * text)) : list cell :=
  (fun col => match position col entry.*1 with
              | Some k => default CNaN (CStr <$> (entry.*2 !! k))
              | None => CNaN
              end) <$> names T.

(** The entry [save_metadata] appends. *)
Definition entry_of (image_url public_id category color season : text) : list (text * text) :=
  [(py "Image URL", image_url); (py "Public ID", public_id);
   (py "Category", category); (py "Color", color); (py "Season", season)].

(** The field of a line of the file under a column of its header. *)
Definition get_field (hdr : list text) (line : list text) (col : text) : option text :=
  k ← position col hdr; line !! k.

(** The item is in the last line of the file, each field as it was given. *)
Definition stored_last (st : file) (image_url public_id category color season : text) : Prop :=
  exists f line,
    st = Some f /\ last (lines f) = Some line /\
    get_field (header f) line (py "Image URL") = Some image_url /\
    get_field (header f) line (py "Public ID") = Some public_id /\
    get_field (header f) line (py "Category") = Some category /\
    get_field (header f) line (py "Color") = Some color /\
    get_field (header f) line (py "Season") = Some season.

(** The value of the row under [col] is what [read_csv] makes of [fld],
    and [fld] itself, as a string, when it is a plain text. *)
Definition loaded_field (cols : list text) (row : list cell) (col fld : text) : Prop :=
  exists c, get cols row col = Some c /\ rereads (CStr fld) c /\
            (plain fld -> c = CStr fld).

(** The four fields of a row, as the line shows them. *)
Definition shown (cols : list text) (row : list cell) : option (list text) :=
  url ← get cols row (py "Image URL");
  category ← get cols row (py "Category");
  color ← get cols row (py "Color");
  season ← get cols row (py "Season");
  Some [str_cell url; str_cell category; str_cell color; str_cell season].

(** The value of a row under a column: the cell at the first place where
    the name of the column stands. *)
Definition under (cols : list text) (row : list cell) (col : text) (c : cell) : Prop :=
  exists k : nat,
    cols !! k = Some col /\ (forall j : nat, (j < k)%nat -> cols !! j <> Some col) /\
    row !! k = Some c.

(** The columns the serialization reads. *)
Definition has_wardrobe_columns (cols : list text) : Prop :=
  text_in (py "Image URL") cols = true /\ text_in (py "Category") cols = true /\
  text_in (py "Color") cols = true /\ text_in (py "Season") cols = true.

(** A table with a value under every column in every row. *)
Definition rectangular (T : DataFrame) : Prop :=
  forall row, row ∈ rows T -> length row = length (names T).

(** What [read_csv] makes of the line written for [row]. *)
Definition reread_row (T : DataFrame) (row : list cell) : list cell :=
  imap (fun k kd => convert kd (field k (csv_text <$> row))) (kinds (to_csv T)).

End Notions.

(** *** Floats in decimal notation

    An instance of [Floats] for closed examples: the decimal and infinity
    notations the tokenizer accepts, and for the text of a float64 the
    decimal of the token as [repr] writes it.  That is the text of the
    float64 for a token of at most 15 significant digits in the range of
    the normal numbers, for which the nearest float64 has the digits of
    the token as its shortest decimal; tokens of more digits are outside
    the instance.  No example of this development reads or writes a
    float64. *)

Definition decimal_token (tok : text) : bool :=
  let s := skip_spaces tok in
  let s := match s with
           | c :: s' => if (c =? 45) || (c =? 43) then s' else s
           | [] => s
           end in
  let '(ip, r) := span_digits s in
  let '(fp, r) := match r with
                  | c :: r' => if c =? 46 then span_digits r' else ([], r)
                  | [] => ([], r)
                  end in
  match ip ++ fp with
  | [] => false
  | _ =>
      let r := match r with
               | e :: r' =>
                   if (e =? 101) || (e =? 69) then
                     let r'' := match r' with
                                | c :: t => if (c =? 45) || (c =? 43) then t else r'
                                | [] => r'
                                end in
                     match span_digits r'' with
                     | ([], _) => r
                     | (_, rest) => rest
                     end
                   else r
               | [] => r
               end in
      match skip_spaces r with
      | [] => true
      | _ => false
      end
  end.

Definition infinity_token (tok : text) : bool :=
  text_in (map lower tok)
          (map py ["inf"; "+inf"; "-inf"; "infinity"; "+infinity"; "-infinity"]%string).

Fixpoint drop_zeros (ds : text) : text :=
  match ds with
  | c :: ds' => if c =? 48 then drop_zeros ds' else ds
  | [] => []
  end.

(** The sign of a decimal token, its significant digits, without the
    zeros in front and at the end, and the number of those digits that
    come before the point. *)
Definition decimal_parts (tok : text) : bool * text * Z :=
  let s := skip_spaces tok in
  let '(neg, s) := match s with
                   | c :: s' => if c =? 45 then (true, s')
                                else if c =? 43 then (false, s') else (false, s)
                   | [] => (false, s)
                   end in
  let '(ip, r) := span_digits s in
  let '(fp, r) := match r with
                  | c :: r' => if c =? 46 then span_digits r' else ([], r)
                  | [] => ([], r)
                  end in
  let exp := match r with
             | e :: r' =>
                 if (e =? 101) || (e =? 69) then
                   let '(eneg, r'') := match r' with
                                       | c :: t => if c =? 45 then (true, t)
                                                   else if c =? 43 then (false, t)
                                                   else (false, r')
                                       | [] => (false, r')
                                       end in
                   let n := int_of_digits (span_digits r'').1 in
                   if eneg then (- n)%Z else n
                 else 0%Z
             | [] => 0%Z
             end in
  let ds := ip ++ fp in
  let nz := drop_zeros ds in
  (neg, reverse (drop_zeros (reverse nz)),
   (Z.of_nat (length ip) + exp - Z.of_nat (length ds - length nz))%Z).

Definition zeros (n : nat) : text := replicate n 48.

(** [repr] of a float: the shortest decimal, with the point in place
    where it comes after the first digit and at most 16 digits on, or up
    to three zeros before it, and with an exponent of two digits or more
    otherwise. *)
Definition decimal_repr (tok : text) : text :=
  if infinity_token tok then
    if startswith tok (py "-") then py "-inf" else py "inf"
  else
    let '(neg, sig, decpt) := decimal_parts tok in
    let sign := if neg then py "-" else [] in
    match sig with
    | [] => sign ++ py "0.0"
    | d :: ds =>
        if (-4 <? decpt)%Z && (decpt <=? 16)%Z then
          if (decpt <=? 0)%Z then
            sign ++ py "0." ++ zeros (Z.to_nat (- decpt)) ++ sig
          else if (Z.of_nat (length sig) <=? decpt)%Z then
            sign ++ sig ++ zeros (Z.to_nat decpt - length sig) ++ py ".0"
          else
            sign ++ take (Z.to_nat decpt) sig ++ py "." ++ drop (Z.to_nat decpt) sig
        else
          let e := (decpt - 1)%Z in
          let es := str_Z (Z.abs e) in
          sign ++ [d] ++ match ds with
                         | [] => []
                         | _ :: _ => py "." ++ ds
                         end
               ++ py "e" ++ (if (e <? 0)%Z then py "-" else py "+")
               ++ (if (length es <? 2)%nat then 48 :: es else es)
    end.

#[export] Instance decimal_floats : Floats := {|
  parses_as_float tok := decimal_token tok || infinity_token tok;
  float_repr tok := decimal_repr tok
|}.

(** *** Files of the scenarios *)

(** The table with the one row of the deletion scenario, and a table with
    a second row. *)
Definition one_row : file :=
  Some {| header := REQUIRED_COLUMNS;
          lines := [[py "https://x/a.png"; py "a"; py "Shirts"; py "Blue"; py "Summer"]] |}.

Definition two_rows : file :=
  Some {| header := REQUIRED_COLUMNS;
          lines := [[py "https://x/a.png"; py "a"; py "Shirts"; py "Blue"; py "Summer"];
                    [py "https://x/b.png"; py "b"; py "Pants"; py "Black"; py "Winter"]] |}.

(** A file of another program: no [Season] column. *)
Definition foreign : file :=
  Some {| header := [py "Image URL"; py "Color"];
          lines := [[py "https://x/a.png"; py "Blue"]] |}.

End Store.

(** ** Outfit suggestions *)

Module Suggest.
Import Store.

(** [st.error] and [st.code]. *)
Inductive ui :=
| st_error (message : text)
| st_code (body : text).

(** What [openrouter_client.chat.completions.create] does: it answers with
    the content of the first choice, or an exception with text [e] comes
    out of the call. *)
Inductive completion :=
| Replied (content : text)
| Failed (e : text).

Record request := {
  model : text;
  messages : list (text * text);
  temperature : text;
  max_tokens : N
}.

Definition system_message : text :=
  py "You are an AI fashion stylist. The user has a wardrobe of clothes. "
  ++ py "Choose outfit sets based on their request. "
  ++ py "Return ONLY a JSON array of arrays, where each inner array contains the Image URLs of one outfit. "
  ++ dq "Example: [['url1', 'url2'], ['url3', 'url4']]. "
  ++ py "Do NOT include any other text, markdown, or explanation " ++ [8212]
  ++ py " just the raw JSON.".

(** The pattern [\[\s*\[.*?\]\s*\]], compiled with [re.DOTALL]. *)
Definition array_of_arrays : Re.pattern :=
  [Re.One (Re.Lit 91); Re.Star Re.Space; Re.One (Re.Lit 91);
   Re.LazyStar Re.AnyChar;
   Re.One (Re.Lit 93); Re.Star Re.Space; Re.One (Re.Lit 93)].

Definition fence : text := py "```".

(** The handling of markdown code blocks; [None] stands for the
    [IndexError] of [[1]]. *)
Definition unfence (raw : text) : option text :=
  if contains fence raw then
    raw ← split raw fence !! 1%nat;
    let raw := if startswith raw (py "json") then drop 4 raw else raw in
    Some (strip raw)
  else Some raw.

(** The extraction of the array of arrays. *)
Definition extract (raw : text) : text :=
  match Re.search array_of_arrays raw with
  | Some m => m
  | None => raw
  end.

(** The body of the [try] once the completion has answered: the return
    value and the calls of the page.  Of the two branches of the general
    [except], the first is never taken ([unfence_total]); the second is
    where an exception of [json.loads] other than [JSONDecodeError] goes,
    which a document within the limits of the interpreter does not raise
    ([Json.within_limits], [loads_not_exhausted]). *)
Definition parse_response (content : text) : option Json.value * list ui :=
  let raw := strip content in
  match unfence raw with
  | None => (None, [st_error (py "Error getting outfit suggestions: list index out of range")])
  | Some raw =>
      let raw := extract raw in
      match Json.loads raw with
      | Json.Loaded outfits => (Some outfits, [])
      | Json.Raised e =>
          (None, [st_error (py "Error parsing AI response: " ++ Json.str_error raw e);
                  st_code raw])
      | Json.Exhausted =>
          (None, [st_error (py "Error getting outfit suggestions: maximum recursion depth exceeded")])
      end
  end.

Section Engine.
Context `{Floats}.

Variable OPENROUTER_MODEL : text.
Variable create : request -> completion.

(** One line of the wardrobe: the f-string over a row. *)
Definition clothes_line (cols : list text) (row : list cell) : result text :=
  match get cols row (py "Image URL") with
  | None => KeyError (py "Image URL")
  | Some url =>
  match get cols row (py "Category") with
  | None => KeyError (py "Category")
  | Some category =>
  match get cols row (py "Color") with
  | None => KeyError (py "Color")
  | Some color =>
  match get cols row (py "Season") with
  | None => KeyError (py "Season")
  | Some season =>
      Done (str_cell url ++ py "," ++ str_cell category ++ py ","
            ++ str_cell color ++ py "," ++ str_cell season)
  end end end end.

(** The lines the generator yields, in row order. *)
Fixpoint clothes_lines (cols : list text) (rs : list (list cell)) : result (list text) :=
  match rs with
  | [] => Done []
  | row :: rs' =>
      match clothes_line cols row with
      | KeyError k => KeyError k
      | Done l =>
          match clothes_lines cols rs' with
          | KeyError k => KeyError k
          | Done ls => Done (l :: ls)
          end
      end
  end.

Definition clothes_list (df : DataFrame) : result text :=
  match clothes_lines (names df) (iterrows df) with
  | KeyError k => KeyError k
  | Done ls => Done (join nl ls)
  end.

Definition user_message (clothes : text) (user_prompt : text) : text :=
  py "Here is my wardrobe:" ++ nl
  ++ py "Image URL, Category, Color, Season" ++ nl
  ++ clothes ++ nl ++ nl
  ++ py "Request: " ++ user_prompt.

(** The request of [get_outfit_suggestions]. *)
Definition request_for (clothes user_prompt : text) : request :=
  {| model := OPENROUTER_MODEL;
     messages := [(py "system", system_message);
                  (py "user", user_message clothes user_prompt)];
     temperature := py "0.7";
     max_tokens := 4096 |}.

Definition get_outfit_suggestions (user_prompt : text) (df : DataFrame)
  : result (option Json.value * list ui) :=
  match clothes_list df with
  | KeyError k => KeyError k
  | Done clothes =>
      match create (request_for clothes user_prompt) with
      | Replied content => Done (parse_response content)
      | Failed e => Done (None, [st_error (py "Error getting outfit suggestions: " ++ e)])
      end
  end.

End Engine.

(** Whether a decoded value has the expected shape: an array of arrays of
    strings. *)
Definition is_string (v : Json.value) : bool :=
  match v with
  | Json.JStr _ => true
  | _ => false
  end.

Definition is_outfit (v : Json.value) : bool :=
  match v with
  | Json.JArr items => forallb is_string items
  | _ => false
  end.

Definition is_outfits (v : Json.value) : bool :=
  match v with
  | Json.JArr items => forallb is_outfit items
  | _ => false
  end.

(** The answer of the refusal scenario. *)
Definition apology : text := py "Sorry, I can't help with that.".

(** The array of arrays of the parsing scenarios and its value. *)
Definition two_outfits_json : text := dq "[['a','b'],['c']]".

Definition two_outfits : Json.value :=
  Json.JArr [Json.JArr [Json.JStr (py "a"); Json.JStr (py "b")];
             Json.JArr [Json.JStr (py "c")]].

End Suggest.

(** ** The background image *)

Module Background.

(** The alphabet of [base64.b64encode]. *)
Definition alphabet : text :=
  py "ABCDEFGHIJKLMNOPQRSTUVWXYZabcdefghijklmnopqrstuvwxyz0123456789+/".

(** The character for the six low bits of [i]. *)
Definition b64_char (i : N) : char :=
  default 61 (alphabet !! N.to_nat (N.land i 63)).

(** [base64.b64encode(bs)] on bytes: three bytes give four characters, and
    one or two bytes left over are padded with [=]. *)
Fixpoint b64encode (bs : list N) : text :=
  match bs with
  | a :: b :: c :: r =>
      b64_char (N.shiftr a 2)
      :: b64_char (N.lor (N.shiftl (N.land a 3) 4) (N.shiftr b 4))
      :: b64_char (N.lor (N.shiftl (N.land b 15) 2) (N.shiftr c 6))
      :: b64_char (N.land c 63)
      :: b64encode r
  | [a; b] =>
      [b64_char (N.shiftr a 2);
       b64_char (N.lor (N.shiftl (N.land a 3) 4) (N.shiftr b 4));
       b64_char (N.shiftl (N.land b 15) 2);
       61]
  | [a] =>
      [b64_char (N.shiftr a 2); b64_char (N.shiftl (N.land a 3) 4); 61; 61]
  | [] => []
  end.

(** The f-string of [add_bg_from_local], before and after the encoded
    image. *)
Definition style_open : text :=
  nl ++ py "        <style>" ++ nl
  ++ py "        .stApp {" ++ nl
  ++ dq "            background-image: url('data:image/jpeg;base64,".

Definition style_close : text :=
  dq "');" ++ nl
  ++ py "            background-size: cover;" ++ nl
  ++ py "            background-position: center;" ++ nl
  ++ py "            background-repeat: no-repeat;" ++ nl
  ++ py "            background-attachment: fixed;" ++ nl
  ++ py "        }" ++ nl
  ++ py "        </style>" ++ nl
  ++ py "        ".

(** [add_bg_from_local(image_file)]: the markup given to [st.markdown],
    for the bytes of the file. *)
Definition add_bg_from_local (image : list N) : text :=
  let encoded_image := b64encode image in
  style_open ++ encoded_image ++ style_close.

(** A character of the encoding: a letter, a digit, [+], [/] or [=]. *)
Definition is_b64 (c : char) : bool :=
  ((65 <=? c) && (c <=? 90)) || ((97 <=? c) && (c <=? 122))
  || ((48 <=? c) && (c <=? 57)) || (c =? 43) || (c =? 47) || (c =? 61).

(** [s.count(c)] *)
Fixpoint count (c : char) (s : text) : nat :=
  match s with
  | [] => 0%nat
  | x :: s' => ((if char_eqb x c then 1 else 0) + count c s')%nat
  end.

End Background.

(** ** Uploads *)

Module Upload.
Import Suggest.

(** [s.rfind(c)] for one character: the last index, or -1. *)
Fixpoint rfind (c : char) (s : text) : Z :=
  match s with
  | [] => (-1)%Z
  | x :: s' =>
      let r := rfind c s' in
      if (0 <=? r)%Z then (r + 1)%Z
      else if char_eqb x c then 0%Z else (-1)%Z
  end.

(** The [while] loop of [_splitext]: whether one of the [n] characters from
    [filenameIndex] on is not a dot. *)
Fixpoint has_name (p : text) (filenameIndex n : nat) : bool :=
  match n with
  | O => false
  | S n' =>
      match p !! filenameIndex with
      | Some c => if char_eqb c 46 then has_name p (S filenameIndex) n' else true
      | None => true
      end
  end.

(** [os.path.splitext(p)] of [posixpath]: the extension starts at the last
    dot, when that dot comes after the last slash and after a character of
    the file name that is not a dot. *)
Definition splitext (p : text) : text * text :=
  let sepIndex := rfind 47 p in
  let dotIndex := rfind 46 p in
  if (sepIndex <? dotIndex)%Z
     && has_name p (Z.to_nat (sepIndex + 1)) (Z.to_nat (dotIndex - (sepIndex + 1)))
  then (take (Z.to_nat dotIndex) p, drop (Z.to_nat dotIndex) p)
  else (p, []).

(** The keyword arguments of [cloudinary.uploader.upload]. *)
Record upload_options := {
  folder : text;
  public_id : text;
  overwrite : bool;
  resource_type : text
}.

(** The two entries of the result the program reads; [None] for a key the
    result does not have. *)
Record upload_result := {
  secure_url : option text;
  returned_public_id : option text
}.

(** What [cloudinary.uploader.upload] does: it returns a result, or an
    [Exception] with text [e] comes out of it. *)
Inductive uploaded :=
| Returned (result : upload_result)
| UploadError (e : text).

Definition options_for (filename : text) : upload_options :=
  {| folder := py "wardrobe";
     public_id := (splitext filename).1;
     overwrite := true;
     resource_type := py "image" |}.

Section Uploader.
Variable upload : list N -> upload_options -> uploaded.

(** [upload_to_cloudinary(file_bytes, filename)]: the pair it returns
    ([None] for [(None, None)]) and what it shows.  A key missing in the
    result is a [KeyError], whose text is the quoted key. *)
Definition upload_to_cloudinary (file_bytes : list N) (filename : text)
  : option (text * text) * list ui :=
  match upload file_bytes (options_for filename) with
  | Returned result =>
      match secure_url result with
      | None => (None, [st_error (py "Cloudinary upload failed: " ++ py "'secure_url'")])
      | Some url =>
          match returned_public_id result with
          | None => (None, [st_error (py "Cloudinary upload failed: " ++ py "'public_id'")])
          | Some id => (Some (url, id), [])
          end
      end
  | UploadError e => (None, [st_error (py "Cloudinary upload failed: " ++ e)])
  end.

End Uploader.

End Upload.

(** ** Answers in compact JSON *)

Module Answers.

(** A string with nothing to escape, between its quotes. *)
Definition quoted (s : text) : text := 34 :: s ++ [34].

(** An outfit, and a list of outfits, written without white space. *)
Definition dump_outfit (urls : list text) : text :=
  91 :: join (py ",") (quoted <$> urls) ++ [93].

Definition dump_outfits (outfits : list (list text)) : text :=
  91 :: join (py ",") (dump_outfit <$> outfits) ++ [93].

(** The value the answer stands for. *)
Definition outfits_value (outfits : list (list text)) : Json.value :=
  Json.JArr ((fun urls : list text => Json.JArr (Json.JStr <$> urls)) <$> outfits).

(** A character a JSON string holds as it is, and that neither closes an
    array nor is part of a code fence. *)
Definition url_char (c : char) : bool :=
  negb (c =? 34) && negb (c =? 92) && negb (c <=? 31) && negb (c =? 93)
  && negb (c =? 96).

(** The text [p] is scanned as the value [v], whatever follows it, with a
    budget of [n] and more; it starts with a character that is neither
    white space nor a closing bracket. *)
Definition scans_as (n : nat) (p : text) (v : Json.value) : Prop :=
  (exists c p', p = c :: p' /\ Json.is_ws c = false /\ (c =? 93) = false) /\
  forall d rest, (n <= d)%nat -> Json.scan_once d (p ++ rest) = Json.Found v rest.

End Answers.

(** ** Items of the wardrobe *)

Module Items.
Import Store.

Record item := {
  item_url : text;
  item_id : text;
  item_category : text;
  item_color : text;
  item_season : text
}.

(** [save_metadata] for an item, and for a list of items, one call after
    the other. *)
Definition save_item `{Floats} (it : item) (st : file) : file :=
  save_metadata (item_url it) (item_id it) (item_category it) (item_color it)
                (item_season it) st.

Definition save_all `{Floats} (its : list item) (st : file) : file :=
  foldl (fun st it => save_item it st) st its.

(** The fields of an item in the order of [REQUIRED_COLUMNS]. *)
Definition line_of (it : item) : list text :=
  [item_url it; item_id it; item_category it; item_color it; item_season it].

(** The line of an item under a header: its field under each of the five
    columns, and an empty field under any other. *)
Definition line_for (hdr : list text) (it : item) : list text :=
  (fun col =>
     if text_eqb col (py "Image URL") then item_url it
     else if text_eqb col (py "Public ID") then item_id it
     else if text_eqb col (py "Category") then item_category it
     else if text_eqb col (py "Color") then item_color it
     else if text_eqb col (py "Season") then item_season it
     else []) <$> hdr.

Definition plain_item `{Floats} (it : item) : Prop := Forall plain (line_of it).

(** A file of the program whose fields are all plain texts. *)
Definition plain_csv `{Floats} (f : csv) : Prop :=
  wf_csv f /\ (forall col, col ∈ REQUIRED_COLUMNS -> col ∈ header f) /\
  Forall (Forall plain) (lines f).

End Items.

(** ** The pages

    The three pages as functions of what the user did and of the metadata
    file.  Markup is left out: a call of [st.markdown] is recorded by the
    values it interpolates. *)

Module Pages.
Import Store Suggest Upload.

Inductive event :=
| ui_call (u : ui)                       (* [st.error], [st.code] *)
| effect_call (e : effect)               (* [destroy], [st.warning] *)
| image_preview (file_bytes : list N)     (* [st.image] of the opened image *)
| upload_call (file_bytes : list N) (options : upload_options)
| success_toast
| item_count (n : text) (plural : text)  (* "{n} item{s} in your wardrobe" *)
| closet_card (index : nat) (image_url category color season : text)
| empty_closet
| st_rerun
| empty_wardrobe
| outfits_header (n : nat) (plural : text)
| outfit_header (number : nat)
| st_columns (n : nat)
| outfit_image (image_url : Json.value).

(** The exceptions that end a run of a page. *)
Inductive exn :=
| TypeError (message : text)
| StreamlitAPIException
| KeyError_ (key : text)
| PreviewError (message : text).

(** A run of the page: the calls made, and the exception that ended it,
    if any. *)
Definition run : Type := list event * option exn.

Definition then_ (events : list event) (r : run) : run := (events ++ r.1, r.2).

(** *** Add New Items *)

(** A select box with a free text for ['Other']. *)
Definition choice (selected typed : text) : text :=
  if text_eqb selected (py "Other") then typed else selected.

Section AddNewItems.
Context `{Floats}.
Variable upload : list N -> upload_options -> uploaded.

(** The preview of lines 483-486, [Image.open] and [st.image] on the
    bytes of the file: [None] when the image is shown, [Some e] when an
    exception with text [e] comes out of them. *)
Variable preview : list N -> option text.

(** A run of the page in which the button is pressed: [uploaded_image] is
    the content and the name of the file of the uploader, if any; each of
    the three tags is the entry of its select box and the text of its
    input.  The preview comes before the button: an exception out of it
    ends the run, and the button is not reached. *)
Definition add_new_items (uploaded_image : option (list N * text))
    (category category_text color color_text season season_text : text) (st : file)
  : file * run :=
  let category := choice category category_text in
  let color := choice color color_text in
  let season := choice season season_text in
  match uploaded_image with
  | Some (file_bytes, name) =>
      match preview file_bytes with
      | Some e => (st, ([], Some (PreviewError e)))
      | None =>
          let '(returned, messages) := upload_to_cloudinary upload file_bytes name in
          let events :=
            image_preview file_bytes :: upload_call file_bytes (options_for name)
            :: (ui_call <$> messages) in
          match returned with
          | Some ((_ :: _) as image_url, public_id) =>
              (save_metadata image_url public_id category color season st,
               (events ++ [success_toast], None))
          | _ => (st, (events, None))
          end
      end
  | None => (st, ([effect_call (st_warning (py "Please upload an image first."))], None))
  end.

End AddNewItems.

(** A PNG image of one pixel, and a preview that shows it and no other
    file. *)
Definition one_pixel : list N :=
  [137; 80; 78; 71; 13; 10; 26; 10; 0; 0; 0; 13; 73; 72; 68; 82; 0; 0; 0; 1; 0; 0; 0; 1;
   8; 0; 0; 0; 0; 58; 126; 155; 85; 0; 0; 0; 10; 73; 68; 65; 84; 120; 218; 99; 248; 15;
   0; 1; 1; 1; 0; 28; 176; 140; 153; 0; 0; 0; 0; 73; 69; 78; 68; 174; 66; 96; 130].

Definition shows_one_pixel (file_bytes : list N) : option text :=
  if bool_decide (file_bytes = one_pixel) then None
  else Some (py "cannot identify image file").

(** *** Your Closet *)

Section YourCloset.
Context `{Floats}.
Variable destroy : cell -> option text.

(** [Series.isin(values)] on a value of a column of the given type. *)
Variable isin : dtype -> list cell -> cell -> bool.

(** The rows of a frame under their labels. *)
Definition labelled (df : DataFrame) : list (nat * list cell) :=
  imap (fun i row => (i, row)) (rows df).

(** [df[df[col].isin(selected)]], when [selected] is not empty. *)
Definition where_isin (cols : list (text * dtype)) (col : text) (selected : list cell)
    (rs : list (nat * list cell)) : result (list (nat * list cell)) :=
  match selected with
  | [] => Done rs
  | _ =>
      match position col cols.*1 with
      | None => KeyError col
      | Some k =>
          Done (filter (fun lr : nat * list cell =>
                          isin (default object (cols.*2 !! k)) selected
                               (default CNaN (lr.2 !! k))) rs)
      end
  end.

(** The three filters of the side bar, after the look-up of the three
    columns for the options. *)
Definition filtered (selected_colors selected_categories selected_seasons : list cell)
    (df : DataFrame) : result (list (nat * list cell)) :=
  if negb (text_in (py "Color") (names df)) then KeyError (py "Color")
  else if negb (text_in (py "Category") (names df)) then KeyError (py "Category")
  else if negb (text_in (py "Season") (names df)) then KeyError (py "Season")
  else
    match where_isin (columns df) (py "Color") selected_colors (labelled df) with
    | KeyError k => KeyError k
    | Done rs =>
        match where_isin (columns df) (py "Category") selected_categories rs with
        | KeyError k => KeyError k
        | Done rs => where_isin (columns df) (py "Season") selected_seasons rs
        end
    end.

(** The card of a row of [df.iterrows()]. *)
Definition card (cols : list (text * dtype)) (index : nat) (row : list cell) : result event :=
  let row := as_row_dtype (row_dtype cols.*2) <$> row in
  match get cols.*1 row (py "Image URL") with
  | None => KeyError (py "Image URL")
  | Some url =>
  match get cols.*1 row (py "Category") with
  | None => KeyError (py "Category")
  | Some category =>
  match get cols.*1 row (py "Color") with
  | None => KeyError (py "Color")
  | Some color =>
  match get cols.*1 row (py "Season") with
  | None => KeyError (py "Season")
  | Some season =>
      Done (closet_card index (str_cell url) (str_cell category) (str_cell color)
                        (str_cell season))
  end end end end.

(** The loop over the rows: the cards, up to the one whose button is
    pressed, where [delete_item] and [st.rerun] end the run. *)
Fixpoint cards (cols : list (text * dtype)) (pressed : option nat)
    (rs : list (nat * list cell)) (st : file) : result (file * list event) :=
  match rs with
  | [] => Done (st, [])
  | (index, row) :: rs' =>
      match card cols index row with
      | KeyError k => KeyError k
      | Done c =>
          if bool_decide (pressed = Some index) then
            match delete_item destroy (Z.of_nat index) st with
            | KeyError k => KeyError k
            | Done (st', effects) => Done (st', c :: (effect_call <$> effects) ++ [st_rerun])
            end
          else
            match cards cols pressed rs' st with
            | KeyError k => KeyError k
            | Done (st', events) => Done (st', c :: events)
            end
      end
  end.

(** The page: [pressed] is the label of the delete button that was
    pressed, if any. *)
Definition your_closet (selected_colors selected_categories selected_seasons : list cell)
    (pressed : option nat) (st : file) : result (file * list event) :=
  let df := load_metadata st in
  match filtered selected_colors selected_categories selected_seasons df with
  | KeyError k => KeyError k
  | Done rs =>
      let n := length rs in
      let count := item_count (str_N (N.of_nat n)) (if (n =? 1)%nat then [] else py "s") in
      match columns df, rs with
      | [], _ | _, [] => Done (st, [count; empty_closet])
      | _, _ =>
          match cards (columns df) pressed rs st with
          | KeyError k => KeyError k
          | Done (st', events) => Done (st', count :: events)
          end
      end
  end.

End YourCloset.

(** *** Suggest Outfits *)

(** [type(v).__name__] *)
Definition type_name (v : Json.value) : text :=
  match v with
  | Json.JNull => py "NoneType"
  | Json.JBool _ => py "bool"
  | Json.JInt _ => py "int"
  | Json.JFloat _ => py "float"
  | Json.JStr _ => py "str"
  | Json.JArr _ => py "list"
  | Json.JObj _ => py "dict"
  end.

(** [len(v)]; [None] for the [TypeError]. *)
Definition len (v : Json.value) : option nat :=
  match v with
  | Json.JStr s => Some (length s)
  | Json.JArr items => Some (length items)
  | Json.JObj members => Some (length members)
  | _ => None
  end.

Definition no_len (v : Json.value) : exn :=
  TypeError (py "object of type '" ++ type_name v ++ py "' has no len()").

(** What a [for] loop over [v] yields: the items of a list, the characters
    of a string, the keys of a dict. *)
Definition iter (v : Json.value) : list Json.value :=
  match v with
  | Json.JStr s => (fun c => Json.JStr [c]) <$> s
  | Json.JArr items => items
  | Json.JObj members => (fun kv : text * Json.value => Json.JStr kv.1) <$> members
  | _ => []
  end.

Section SuggestOutfits.
Context `{Floats}.
Variable OPENROUTER_MODEL : text.
Variable create : request -> completion.

(** Whether the float read from a lexeme is zero. *)
Variable float_is_zero : text -> bool.

(** [bool(v)] *)
Definition truthy (v : Json.value) : bool :=
  match v with
  | Json.JNull => false
  | Json.JBool b => b
  | Json.JInt z => negb (z =? 0)%Z
  | Json.JFloat lexeme => negb (float_is_zero lexeme)
  | Json.JStr s => negb (bool_decide (s = []))
  | Json.JArr items => negb (bool_decide (items = []))
  | Json.JObj members => negb (bool_decide (members = []))
  end.

(** One pass of the outer loop: the header, the columns ([st.columns]
    refuses a number that is not positive), the images. *)
Definition render_outfit (i : nat) (outfit : Json.value) : run :=
  then_ [outfit_header (i + 1)%nat]
    match len outfit with
    | None => ([], Some (no_len outfit))
    | Some O => ([], Some StreamlitAPIException)
    | Some n => (st_columns n :: (outfit_image <$> iter outfit), None)
    end.

Fixpoint render_from (i : nat) (outfits : list Json.value) : run :=
  match outfits with
  | [] => ([], None)
  | outfit :: rest =>
      match render_outfit i outfit with
      | (events, None) => then_ events (render_from (S i) rest)
      | raised => raised
      end
  end.

(** The body of [if outfits:]. *)
Definition render (outfits : Json.value) : run :=
  if truthy outfits then
    match len outfits with
    | None => ([], Some (no_len outfits))
    | Some n =>
        then_ [outfits_header n (if (n =? 1)%nat then [] else py "s")]
              (render_from 0 (iter outfits))
    end
  else ([], None).

(** The button of the page. *)
Definition suggest_outfits (user_prompt : text) (st : file) : run :=
  match user_prompt with
  | [] => ([effect_call (st_warning (py "Please enter a prompt to get outfit suggestions."))], None)
  | _ =>
      let df := load_metadata st in
      if empty df then ([empty_wardrobe], None)
      else
        match get_outfit_suggestions OPENROUTER_MODEL create user_prompt df with
        | KeyError k => ([], Some (KeyError_ k))
        | Done (outfits, messages) =>
            then_ (ui_call <$> messages)
              match outfits with
              | Some v => render v
              | None => ([], None)
              end
        end
  end.

End SuggestOutfits.

End Pages.

(** * Properties *)

Import Store Suggest.

Local Open Scope nat_scope.

(** ** Text *)

Lemma char_eqb_eq (a b : char) : char_eqb a b = true <-> a = b.
Proof. unfold char_eqb. apply N.eqb_eq. Qed.

Lemma char_eqb_refl (a : char) : char_eqb a a = true.
Proof. by apply char_eqb_eq. Qed.

Lemma text_eqb_eq (a b : text) : text_eqb a b = true <-> a = b.
Proof.
  revert b. induction a as [|x a IH]; intros [|y b]; simpl; try (split; congruence).
  rewrite andb_true_iff, char_eqb_eq, IH. split; [intros [-> ->]|intros [= -> ->]]; done.
Qed.

Lemma startswith_app (p s : text) : startswith (p ++ s) p = true.
Proof. induction p as [|x p IH]; simpl; [done|]. by rewrite char_eqb_refl. Qed.

(** [startswith] reads no more than the length of the prefix. *)
Lemma startswith_take (s p : text) :
  startswith s p = startswith (take (length p) s) p.
Proof.
  revert s. induction p as [|x p IH]; intros s; simpl; [done|].
  destruct s as [|y s]; simpl; [done|]. by rewrite IH.
Qed.

Lemma startswith_app_long (s r p : text) :
  length p <= length s -> startswith (s ++ r) p = startswith s p.
Proof.
  intros Hl. rewrite (startswith_take (s ++ r)), (startswith_take s).
  by rewrite take_app_le.
Qed.

Lemma contains_cons (sub : text) (c : char) (s : text) :
  contains sub (c :: s) = startswith (c :: s) sub || contains sub s.
Proof. done. Qed.

Lemma contains_cons_false (sub : text) (c : char) (s : text) :
  contains sub (c :: s) = false ->
  startswith (c :: s) sub = false /\ contains sub s = false.
Proof. simpl. by intros [? ?]%orb_false_iff. Qed.

(** A text without the first character of [sub] does not contain it. *)
Lemma contains_absent (x : char) (sub s : text) :
  x ∉ s -> contains (x :: sub) s = false.
Proof.
  induction s as [|c s IH]; intros Hx; simpl; [done|].
  apply not_elem_of_cons in Hx as [Hc Hs].
  rewrite IH by done. rewrite orb_false_r.
  apply andb_false_iff. left. apply not_true_is_false.
  by intros ?%char_eqb_eq.
Qed.

(** *** [split] *)

Lemma split_from_skip (sep x r : text) :
  split_from sep (length x) (x ++ r) = split_from sep 0 r.
Proof. induction x as [|c x IH]; simpl; [by destruct r|done]. Qed.

(** The piece before an occurrence of the separator that is the first one:
    none starts earlier. *)
Lemma split_first (sep' : text) (l : char) (pre r : text) :
  contains (sep' ++ [l]) (pre ++ sep') = false ->
  split_from (sep' ++ [l]) 0 (pre ++ (sep' ++ [l]) ++ r)
  = pre :: split_from (sep' ++ [l]) 0 r.
Proof.
  set (sep := sep' ++ [l]).
  assert (Hlen : length sep = S (length sep')) by (unfold sep; rewrite length_app; simpl; lia).
  induction pre as [|c pre IH]; intros Hno.
  - simpl. destruct (sep ++ r) as [|c s] eqn:E.
    { unfold sep in E. by destruct sep'. }
    assert (Hs : startswith (c :: s) sep = true) by (rewrite <- E; apply startswith_app).
    simpl. rewrite Hs. f_equal.
    assert (exists x, sep = c :: x) as [x Hx].
    { unfold sep in *. destruct sep'; simpl in *; inversion E; eauto. }
    rewrite Hx in E. simpl in E. injection E as <-.
    rewrite Hlen. simpl. replace (length sep') with (length x).
    + apply split_from_skip.
    + rewrite Hx in Hlen. simpl in Hlen. lia.
  - change ((c :: pre) ++ sep') with (c :: (pre ++ sep')) in Hno.
    apply contains_cons_false in Hno as [Hst Hno].
    change ((c :: pre) ++ sep ++ r) with (c :: (pre ++ sep ++ r)).
    simpl.
    assert (Hst' : startswith (c :: pre ++ sep ++ r) sep = false).
    { rewrite <- Hst. unfold sep at 1. rewrite <- (app_assoc sep' [l] r).
      rewrite (app_assoc pre sep' ([l] ++ r)).
      change (c :: (pre ++ sep') ++ [l] ++ r) with ((c :: pre ++ sep') ++ [l] ++ r).
      apply startswith_app_long. rewrite Hlen. simpl. rewrite length_app. lia. }
    rewrite Hst'. by rewrite IH.
Qed.

(** The last piece: no separator in it. *)
Lemma split_last (sep s : text) :
  contains sep s = false -> sep <> [] -> split_from sep 0 s = [s].
Proof.
  intros Hno Hne. induction s as [|c s IH]; simpl; [done|].
  apply contains_cons_false in Hno as [Hst Hno].
  rewrite Hst, IH by done. done.
Qed.

(** *** [strip] *)

(** Stripping on the left removes a part of what stands before a
    character that is not white space. *)
Lemma lstrip_app (pre : text) (c : char) (s : text) :
  is_space c = false ->
  exists pre', lstrip (pre ++ c :: s) = pre' ++ c :: s /\ pre' ⊆ pre.
Proof.
  intros Hc. induction pre as [|x pre IH].
  - exists []. simpl. by rewrite Hc.
  - simpl. destruct (is_space x).
    + destruct IH as (pre' & -> & Hsub). exists pre'. split; [done|].
      intros y Hy. apply elem_of_cons. right. by apply Hsub.
    + by exists (x :: pre).
Qed.

Lemma rstrip_app (x : text) (c : char) (post : text) :
  is_space c = false -> rstrip (x ++ c :: post) = x ++ c :: rstrip post.
Proof.
  intros Hc. induction x as [|a x IH]; simpl.
  - rewrite Hc. by destruct (rstrip post).
  - rewrite IH. by destruct x.
Qed.

Lemma rstrip_subseteq (s : text) : rstrip s ⊆ s.
Proof.
  induction s as [|c s IH]; simpl; [done|].
  intros y Hy. destruct (rstrip s) as [|r rs] eqn:E.
  - destruct (is_space c); [by apply elem_of_nil in Hy|].
    apply list_elem_of_singleton in Hy as ->. apply elem_of_cons. by left.
  - apply elem_of_cons in Hy as [->|Hy]; apply elem_of_cons; [by left|].
    right. by apply IH.
Qed.

(** ** Regular expressions *)

(** A pattern that starts with a literal does not match at a character
    other than it. *)
Lemma search_skip (x : char) (p : Re.pattern) (pre s : text) :
  x ∉ pre ->
  Re.search (Re.One (Re.Lit x) :: p) (pre ++ s) = Re.search (Re.One (Re.Lit x) :: p) s.
Proof.
  induction pre as [|c pre IH]; intros Hx; [done|].
  apply not_elem_of_cons in Hx as [Hc Hpre].
  change ((c :: pre) ++ s) with (c :: (pre ++ s)).
  cbn [Re.search Re.match_here Re.atom_matches].
  replace (char_eqb x c) with false; [by apply IH|].
  symmetry. apply not_true_is_false. by intros ?%char_eqb_eq.
Qed.

Lemma search_unfold (p : Re.pattern) (s : text) :
  Re.search p s =
  match Re.match_here p s with
  | Some r => Some (take (length s - length r) s)
  | None => match s with [] => None | _ :: s' => Re.search p s' end
  end.
Proof. by destruct s. Qed.

Lemma search_found (p : Re.pattern) (m r : text) :
  Re.match_here p (m ++ r) = Some r -> Re.search p (m ++ r) = Some m.
Proof.
  intros Hm. rewrite search_unfold, Hm. f_equal.
  rewrite length_app, Nat.add_sub. by rewrite take_app_length.
Qed.

(** The array of the scenarios is what the pattern matches at its start,
    whatever follows. *)
Lemma match_two_outfits (post : text) :
  Re.match_here array_of_arrays (two_outfits_json ++ post) = Some post.
Proof. reflexivity. Qed.

Lemma extract_two_outfits (pre post : text) :
  91%N ∉ pre -> extract (pre ++ two_outfits_json ++ post) = two_outfits_json.
Proof.
  intros Hpre. unfold extract.
  replace (Re.search array_of_arrays (pre ++ two_outfits_json ++ post))
    with (Some two_outfits_json); [done|].
  symmetry. etrans; [exact (search_skip 91%N _ pre _ Hpre)|].
  exact (search_found array_of_arrays _ _ (match_two_outfits post)).
Qed.

(** ** JSON decoding: the budget of [loads] is enough *)

Lemma advances_mono {A} (n m : nat) (r : Json.scanned A) :
  n <= m -> Json.advances n r -> Json.advances m r.
Proof. destruct r; simpl; auto with lia. Qed.

Lemma advances_cons_found (n : nat) (c : char) (r : Json.scanned text) :
  Json.advances n r -> Json.advances n (Json.cons_found c r).
Proof. by destruct r. Qed.

Lemma skip_ws_length (s : text) : length (Json.skip_ws s) <= length s.
Proof.
  induction s as [|c s IH]; simpl; [done|].
  destruct (Json.is_ws c); simpl; lia.
Qed.

Lemma span_digits_length (s : text) : length (span_digits s).2 <= length s.
Proof.
  induction s as [|c s IH]; simpl; [done|].
  destruct (is_digit c); [|simpl; lia].
  destruct (span_digits s); simpl in *; lia.
Qed.

Lemma scanstring_advances (start s : text) :
  Json.advances (length s) (Json.scanstring start s).
Proof.
  remember (length s) as n eqn:Hn.
  assert (Hle : length s <= n) by lia. clear Hn.
  revert s Hle. induction n as [n IH] using lt_wf_ind. intros s Hle.
  assert (Hrec : forall c s', length s' < length s ->
            Json.advances n (Json.cons_found c (Json.scanstring start s'))).
  { intros c s' Hs'. apply advances_cons_found.
    apply (advances_mono (length s')); [lia|]. apply (IH (length s')); lia. }
  destruct s as [|c s1]; simpl; [done|].
  destruct (c =? 34)%N; [simpl in *; lia|].
  destruct (c =? 92)%N.
  - destruct s1 as [|e s2]; [done|].
    destruct (e =? 117)%N.
    + destruct s2 as [|h1 [|h2 [|h3 [|h4 s3]]]]; try done.
      destruct s3 as [|b s3]; [done|].
      destruct (Json.hex4 h1 h2 h3 h4) as [u|]; [|done].
      destruct s3 as [|u' [|g1 [|g2 [|g3 [|g4 [|x s4]]]]]];
        try (apply Hrec; simpl; lia).
      destruct (Json.is_high_surrogate u && (b =? 92)%N && (u' =? 117)%N);
        [|apply Hrec; simpl; lia].
      destruct (Json.hex4 g1 g2 g3 g4) as [l|]; [|done].
      destruct (Json.is_low_surrogate l); apply Hrec; simpl; lia.
    + destruct (Json.escape_char e); [|done]. apply Hrec; simpl; lia.
  - destruct (c <=? 31)%N; [done|]. apply Hrec; simpl; lia.
Qed.

Lemma match_number_advances (s : text) (v : Json.value) (rest : text) :
  Json.match_number s = Some (v, rest) -> length rest < length s.
Proof.
  unfold Json.match_number.
  set (h := match s with
            | c :: s' => if (c =? 45)%N then ([c], s') else ([], s)
            | [] => ([], s)
            end).
  assert (Hh : length h.2 <= length s).
  { unfold h. destruct s as [|c s']; simpl; [done|]. destruct (c =? 45)%N; simpl; lia. }
  destruct h as [sign s1]. simpl in Hh.
  set (ip := match s1 with
             | c :: s2 =>
                 if (c =? 48)%N then Some ([c], s2)
                 else if is_digit c then let '(ds, r) := span_digits s2 in Some (c :: ds, r)
                 else None
             | [] => None
             end).
  assert (Hip : forall ds r1, ip = Some (ds, r1) -> length r1 < length s1).
  { unfold ip. intros ds r1. destruct s1 as [|c s2]; [done|].
    destruct (c =? 48)%N; [intros [= <- <-]; simpl; lia|].
    destruct (is_digit c); [|done].
    pose proof (span_digits_length s2) as Hl.
    destruct (span_digits s2) as [ds' r']. intros [= <- <-]. simpl in *. lia. }
  destruct ip as [[int_ds r1]|]; [|done].
  specialize (Hip _ _ eq_refl).
  set (fr := match r1 with
             | dot :: d :: r =>
                 if (dot =? 46)%N && is_digit d
                 then let '(ds, r') := span_digits r in (dot :: d :: ds, r')
                 else ([], r1)
             | _ => ([], r1)
             end).
  assert (Hfr : length fr.2 <= length r1).
  { unfold fr. destruct r1 as [|dot [|d r]]; simpl; try done.
    destruct ((dot =? 46)%N && is_digit d); [|simpl; lia].
    pose proof (span_digits_length r) as Hl.
    destruct (span_digits r); simpl in *; lia. }
  destruct fr as [frac r2]. simpl in Hfr.
  set (ex := match r2 with
             | e :: r =>
                 if (e =? 101)%N || (e =? 69)%N then
                   let '(sg, ra) := match r with
                                    | c :: r' => if (c =? 45)%N || (c =? 43)%N then ([c], r') else ([], r)
                                    | [] => ([], r)
                                    end in
                   match span_digits ra with
                   | ([], _) => ([], r2)
                   | (ds, rb) => (e :: sg ++ ds, rb)
                   end
                 else ([], r2)
             | [] => ([], r2)
             end).
  assert (Hex : length ex.2 <= length r2).
  { unfold ex. destruct r2 as [|e r]; simpl; [done|].
    destruct ((e =? 101)%N || (e =? 69)%N); [|simpl; lia].
    set (sg := match r with
               | c :: r' => if (c =? 45)%N || (c =? 43)%N then ([c], r') else ([], r)
               | [] => ([], r)
               end).
    assert (Hsg : length sg.2 <= length r).
    { unfold sg. destruct r as [|c r']; simpl; [done|].
      destruct ((c =? 45)%N || (c =? 43)%N); simpl; lia. }
    destruct sg as [sgn ra]. simpl in Hsg.
    pose proof (span_digits_length ra) as Hl.
    destruct (span_digits ra) as [[|d ds] rb]; simpl in *; lia. }
  destruct ex as [exp r3]. simpl in Hex.
  destruct frac, exp; intros [= <- <-]; lia.
Qed.

Lemma drop_shorter (s : text) (n : nat) :
  0 < n -> s <> [] -> length (drop n s) < length s.
Proof. intros Hn Hs. rewrite length_drop. destruct s; [done|]. simpl. lia. Qed.

(** With a budget above twice the length of the text, the scanner never
    runs out, and what it leaves is shorter than what it was given. *)
Lemma scan_advances (depth : nat) :
  (forall s, 2 * length s < depth ->
     Json.advances (length s) (Json.scan_once depth s)) /\
  (forall acc s, 2 * length s + 1 < depth ->
     Json.advances (length s) (Json.parse_items depth acc s)) /\
  (forall acc s, 2 * length s + 1 < depth ->
     Json.advances (length s) (Json.parse_members depth acc s)).
Proof.
  induction depth as [|d (IHs & IHi & IHm)]; [repeat split; intros; lia|].
  repeat split.
  - intros s Hd. cbn [Json.scan_once].
    destruct s as [|c s']; [done|].
    destruct (c =? 34)%N.
    { pose proof (scanstring_advances (c :: s') s') as Hs.
      destruct (Json.scanstring (c :: s') s'); simpl in *; auto with lia. }
    destruct (c =? 123)%N.
    { pose proof (skip_ws_length s') as Hw.
      destruct (Json.skip_ws s') as [|c' r] eqn:E.
      - eapply advances_mono; [|apply IHm; simpl in *; lia]. simpl; lia.
      - destruct (c' =? 125)%N; [simpl in *; lia|].
        eapply advances_mono; [|apply IHm; simpl in *; lia]. simpl in *; lia. }
    destruct (c =? 91)%N.
    { pose proof (skip_ws_length s') as Hw.
      destruct (Json.skip_ws s') as [|c' r] eqn:E.
      - eapply advances_mono; [|apply IHi; simpl in *; lia]. simpl; lia.
      - destruct (c' =? 93)%N; [simpl in *; lia|].
        eapply advances_mono; [|apply IHi; simpl in *; lia]. simpl in *; lia. }
    repeat match goal with
           | |- Json.advances _ (if ?b then Json.Found _ (drop _ _) else _) =>
               destruct b; [by apply drop_shorter; [lia|]|]
           end.
    destruct (Json.match_number (c :: s')) as [[v rest]|] eqn:E; [|done].
    by apply match_number_advances in E.
  - intros acc s Hd. cbn [Json.parse_items].
    assert (Hs : Json.advances (length s) (Json.scan_once d s)) by (apply IHs; lia).
    destruct (Json.scan_once d s) as [v rest| | |]; simpl in *; try done.
    pose proof (skip_ws_length rest) as Hw.
    destruct (Json.skip_ws rest) as [|c r] eqn:E; [done|].
    destruct (c =? 93)%N; [simpl in *; lia|].
    destruct (c =? 44)%N; [|done].
    pose proof (skip_ws_length r) as Hw'.
    eapply advances_mono; [|apply IHi; simpl in *; lia]. simpl in *; lia.
  - intros acc s Hd. cbn [Json.parse_members].
    destruct s as [|q s']; [done|].
    destruct (q =? 34)%N; [|done].
    pose proof (scanstring_advances (q :: s') s') as Hk.
    destruct (Json.scanstring (q :: s') s') as [key rest| | |]; simpl in Hk; try done.
    pose proof (skip_ws_length rest) as Hw.
    destruct (Json.skip_ws rest) as [|c r] eqn:E; [done|].
    destruct (c =? 58)%N; [|done].
    pose proof (skip_ws_length r) as Hw'.
    assert (Hs : Json.advances (length (Json.skip_ws r)) (Json.scan_once d (Json.skip_ws r)))
      by (apply IHs; simpl in *; lia).
    destruct (Json.scan_once d (Json.skip_ws r)) as [v rest'| | |]; simpl in Hs |- *; try done.
    pose proof (skip_ws_length rest') as Hw''.
    destruct (Json.skip_ws rest') as [|c' r'] eqn:E'; [done|].
    destruct (c' =? 125)%N; [simpl in *; lia|].
    destruct (c' =? 44)%N; [|done].
    pose proof (skip_ws_length r') as Hw3.
    eapply advances_mono; [|apply IHm; simpl in *; lia]. simpl in *; lia.
Qed.

(** [json.loads] returns a value or raises a [JSONDecodeError]. *)
Lemma loads_not_exhausted (doc : text) :
  (exists v, Json.loads doc = Json.Loaded v) \/
  (exists e, Json.loads doc = Json.Raised e).
Proof.
  unfold Json.loads, Json.error_at.
  destruct (startswith doc [65279%N]); [eauto|].
  pose proof (skip_ws_length doc) as Hw.
  destruct (scan_advances (2 * length doc + 2)) as (Hs & _ & _).
  specialize (Hs (Json.skip_ws doc) ltac:(lia)).
  destruct (Json.scan_once _ _); simpl in *; try done; eauto.
  destruct (Json.skip_ws rest); eauto.
Qed.

(** ** The handling of code blocks *)

Lemma contains_app (sub pre r : text) : contains sub (pre ++ sub ++ r) = true.
Proof.
  induction pre as [|c pre IH].
  - simpl. destruct (sub ++ r) eqn:E; simpl; rewrite <- E, startswith_app; done.
  - change ((c :: pre) ++ sub ++ r) with (c :: (pre ++ sub ++ r)).
    simpl. rewrite IH. apply orb_true_r.
Qed.

Lemma split_from_nonempty (sep : text) (k : nat) (s : text) :
  split_from sep k s <> [].
Proof.
  revert k. induction s as [|c s IH]; intros k; simpl; [done|].
  destruct k; [|apply IH].
  destruct (startswith (c :: s) sep); [done|].
  by destruct (split_from sep 0 s).
Qed.

(** Where the separator occurs, [split] gives at least two pieces: the
    index [1] of the program is always there. *)
Lemma split_second (sep s : text) :
  sep <> [] -> contains sep s = true -> is_Some (split s sep !! 1).
Proof.
  intros Hne. unfold split. induction s as [|c s IH]; simpl.
  - by destruct sep.
  - intros [Hst|Hin]%orb_true_iff.
    + rewrite Hst. simpl.
      pose proof (split_from_nonempty sep (pred (length sep)) s).
      destruct (split_from sep (pred (length sep)) s); [done|]. by eexists.
    + destruct (startswith (c :: s) sep).
      * pose proof (split_from_nonempty sep (pred (length sep)) s).
        destruct (split_from sep (pred (length sep)) s); [done|]. by eexists.
      * specialize (IH Hin). destruct (split_from sep 0 s) as [|p [|p' ps]];
          simpl in *; try done; by destruct IH.
Qed.

Lemma unfence_total (raw : text) : is_Some (unfence raw).
Proof.
  unfold unfence. destruct (contains fence raw) eqn:E; [|by eexists].
  destruct (split_second fence raw) as [body ->]; [done|done|]. by eexists.
Qed.

(** The content between the first two markers, or after the only one. *)
Lemma split_between (pre body tail : text) :
  contains fence (pre ++ py "``") = false ->
  (tail = [] /\ contains fence body = false) \/
  (exists post, tail = fence ++ post /\ contains fence (body ++ py "``") = false) ->
  split (pre ++ fence ++ body ++ tail) fence !! 1 = Some body.
Proof.
  intros Hpre Htail. unfold split.
  change fence with (py "``" ++ [96%N]) at 1 2.
  rewrite split_first by done.
  destruct Htail as [[-> Hb]|(post & -> & Hb)].
  - rewrite app_nil_r. by rewrite split_last.
  - change fence with (py "``" ++ [96%N]) at 1.
    change (py "``" ++ [96%N]) with fence at 1.
    change fence with (py "``" ++ [96%N]).
    by rewrite split_first.
Qed.

(** A body without a backquote, followed by two of them, holds no fence. *)
Lemma no_fence_in (b : text) :
  96%N ∉ b -> contains fence (b ++ py "``") = false.
Proof.
  induction b as [|c b IH]; intros Hb; [done|].
  apply not_elem_of_cons in Hb as [Hc Hb].
  change ((c :: b) ++ py "``") with (c :: (b ++ py "``")).
  rewrite contains_cons, (IH Hb), orb_false_r.
  change (startswith (c :: b ++ py "``") fence)
    with (char_eqb 96%N c && startswith (b ++ py "``") (py "``")).
  replace (char_eqb 96%N c) with false; [done|].
  symmetry. apply not_true_is_false. by intros ?%char_eqb_eq.
Qed.

(** ** The parsing scenarios *)

Lemma loads_two_outfits : Json.loads two_outfits_json = Json.Loaded two_outfits.
Proof. vm_compute. reflexivity. Qed.

Lemma two_outfits_json_chars : (96%N ∉ two_outfits_json) /\ (96%N ∉ nl).
Proof. split; apply (bool_decide_unpack _); vm_compute; exact I. Qed.

(** Stripping keeps the array and takes white space off what surrounds it. *)
Lemma strip_around (pre post : text) :
  exists pre', strip (pre ++ two_outfits_json ++ post)
               = pre' ++ two_outfits_json ++ rstrip post /\ pre' ⊆ pre.
Proof.
  unfold strip.
  destruct (lstrip_app pre 91%N (tail two_outfits_json ++ post) eq_refl)
    as (pre' & E & Hsub).
  exists pre'. split; [|done].
  etrans; [exact (f_equal rstrip E)|].
  change (pre' ++ 91%N :: tail two_outfits_json ++ post)
    with (pre' ++ removelast two_outfits_json ++ 93%N :: post).
  rewrite (app_assoc pre'), rstrip_app by done.
  by rewrite <- app_assoc.
Qed.

Lemma parse_found (content pre post : text) :
  unfence (strip content) = Some (pre ++ two_outfits_json ++ post) ->
  91%N ∉ pre ->
  parse_response content = (Some two_outfits, []).
Proof.
  intros Hu Hpre. unfold parse_response. rewrite Hu.
  rewrite extract_two_outfits by done. by rewrite loads_two_outfits.
Qed.

(** The content of a block with a language tag, after the tag [json] has
    been taken off: still the array after a text without [[]. *)
Lemma untag (tag rest : text) :
  91%N ∉ tag ->
  exists tag',
    (if startswith (tag ++ nl ++ rest) (py "json")
     then drop 4 (tag ++ nl ++ rest) else tag ++ nl ++ rest)
    = tag' ++ nl ++ rest /\ 91%N ∉ tag'.
Proof.
  intros Htag.
  destruct tag as [|a [|b [|c [|d tag']]]];
    try (eexists; split; [|exact Htag];
         match goal with
         | |- (if ?b then _ else _) = _ => replace b with false; [done|]
         end;
         cbn; by rewrite ?andb_false_r).
  destruct (startswith ((a :: b :: c :: d :: tag') ++ nl ++ rest) (py "json")).
  - exists tag'. split; [done|].
    intros Hin. apply Htag. do 4 (apply elem_of_cons; right). done.
  - by eexists.
Qed.

(** C1.  The extraction-and-parse pipeline of [get_outfit_suggestions]
    yields the outfits [[["a","b"],["c"]]] for the array alone, for the
    array in a fenced block with a language tag, and for the array between
    prose.  The tag and the prose before hold no [[] and the tag and the
    prose no backquote: they are text, not arrays or fences of their own. *)
Theorem parse_three_shapes :
  parse_response two_outfits_json = (Some two_outfits, []) /\
  (forall tag : text,
     96%N ∉ tag -> 91%N ∉ tag ->
     parse_response (fence ++ tag ++ nl ++ two_outfits_json ++ nl ++ fence)
     = (Some two_outfits, [])) /\
  (forall pre post : text,
     91%N ∉ pre -> 96%N ∉ pre -> 96%N ∉ post ->
     parse_response (pre ++ two_outfits_json ++ post) = (Some two_outfits, [])).
Proof.
  destruct two_outfits_json_chars as [HJ Hnl].
  split; [by vm_compute|]. split.
  - intros tag Hq Hb.
    set (body := tag ++ nl ++ two_outfits_json ++ nl).
    set (content := fence ++ tag ++ nl ++ two_outfits_json ++ nl ++ fence).
    assert (Hc : content = [] ++ fence ++ body ++ fence ++ []).
    { unfold content, body. by rewrite <- !app_assoc, app_nil_r. }
    assert (Hstrip : strip content = content).
    { unfold strip.
      assert (Hl : lstrip content = content) by done. rewrite Hl.
      assert (Hx : content = (fence ++ body ++ py "``") ++ [96%N]).
      { unfold content, body. by rewrite <- !app_assoc. }
      rewrite Hx at 1. rewrite rstrip_app by done. by rewrite Hx. }
    assert (Hbody : 96%N ∉ body).
    { unfold body. rewrite !elem_of_app. tauto. }
    destruct (untag tag (two_outfits_json ++ nl) Hb) as (tag' & Htag & Hb').
    destruct (strip_around (tag' ++ nl) nl) as (pre' & Hs & Hsub).
    apply (parse_found _ pre' []).
    + rewrite Hstrip. unfold unfence.
      rewrite Hc at 1. rewrite contains_app.
      rewrite Hc, split_between; [|done|right; exists []; split; [done|by apply no_fence_in]].
      change (Some (strip (if startswith body (py "json") then drop 4 body else body))
              = Some (pre' ++ two_outfits_json ++ [])).
      f_equal. etrans; [exact (f_equal strip Htag)|].
      rewrite <- app_assoc in Hs. exact Hs.
    + intros Hin. apply Hsub in Hin. apply elem_of_app in Hin as [Hin|Hin]; [done|].
      by apply list_elem_of_singleton in Hin.
  - intros pre post Hb Hq Hq'.
    destruct (strip_around pre post) as (pre' & Hs & Hsub).
    apply (parse_found _ pre' (rstrip post)); [|by intros ?%Hsub].
    rewrite Hs. unfold unfence.
    replace (contains fence (pre' ++ two_outfits_json ++ rstrip post)) with false; [done|].
    symmetry. apply (contains_absent 96%N (py "``")).
    rewrite !elem_of_app. intros [Hin|[Hin|Hin]]; [by apply Hsub in Hin|done|].
    by apply rstrip_subseteq in Hin.
Qed.

(** The three shapes with the tag [json] and a sentence on either side. *)
Lemma parse_three_shapes_witness :
  parse_response two_outfits_json = (Some two_outfits, []) /\
  parse_response (fence ++ py "json" ++ nl ++ two_outfits_json ++ nl ++ fence)
  = (Some two_outfits, []) /\
  parse_response (py "Here are two outfits: " ++ two_outfits_json ++ py " Enjoy!")
  = (Some two_outfits, []).
Proof.
  destruct parse_three_shapes as (H1 & H2 & H3).
  split; [exact H1|]. split.
  - apply H2; apply (bool_decide_unpack _); vm_compute; exact I.
  - apply H3; apply (bool_decide_unpack _); vm_compute; exact I.
Defined.

(** C4, as the program has it.  For a text with a fence marker, the
    handling of code blocks takes the content between the first marker and
    the second one, or the end of the text when there is no second marker;
    when that content begins with the four characters [json] they are
    taken off; other language tags stay; the result is stripped of white
    space. *)
Theorem unfence_between_markers (pre body tail : text) :
  contains fence (pre ++ py "``") = false ->
  (tail = [] /\ contains fence body = false) \/
  (exists post, tail = fence ++ post /\ contains fence (body ++ py "``") = false) ->
  contains fence (pre ++ fence ++ body ++ tail) = true /\
  unfence (pre ++ fence ++ body ++ tail)
  = Some (strip (if startswith body (py "json") then drop 4 body else body)).
Proof.
  intros Hpre Htail. split; [apply contains_app|].
  unfold unfence. rewrite contains_app.
  by rewrite (split_between pre body tail Hpre Htail).
Qed.

(** A block tagged [json] between two sentences. *)
Lemma unfence_between_markers_witness :
  let pre := py "Here you go: " in
  let body := py "json" ++ nl ++ two_outfits_json ++ nl in
  let tail := fence ++ py " Enjoy!" in
  (contains fence (pre ++ fence ++ body ++ tail) = true /\
   unfence (pre ++ fence ++ body ++ tail)
   = Some (strip (if startswith body (py "json") then drop 4 body else body))) /\
  unfence (pre ++ fence ++ body ++ tail) = Some two_outfits_json.
Proof.
  split; [|vm_compute; reflexivity].
  apply unfence_between_markers.
  - vm_compute. reflexivity.
  - right. exists (py " Enjoy!"). split; [reflexivity|]. vm_compute. reflexivity.
Defined.

(** C4, as stated, fails for a language tag other than [json]: the content
    of a block tagged [python] keeps its tag. *)
Lemma unfence_keeps_other_tag :
  unfence (fence ++ py "python" ++ nl ++ two_outfits_json ++ nl ++ fence)
  = Some (py "python" ++ nl ++ two_outfits_json).
Proof. vm_compute. reflexivity. Qed.

(** ** Failures of [get_outfit_suggestions] *)

Lemma parse_error_distinct (e e' : text) :
  text_eqb (py "Error parsing AI response: " ++ e)
           (py "Error getting outfit suggestions: " ++ e') = false.
Proof. reflexivity. Qed.

Section Failures.
Context `{Floats}.
Variable OPENROUTER_MODEL : text.
Variable create : request -> completion.


(** C10.  A value [json.loads] decodes is returned as it is, whatever its
    shape. *)
Theorem decoded_value_returned (user_prompt : text) (df : DataFrame)
    (clothes content raw : text) (v : Json.value) :
  clothes_list df = Done clothes ->
  create (request_for OPENROUTER_MODEL clothes user_prompt) = Replied content ->
  unfence (strip content) = Some raw ->
  Json.loads (extract raw) = Json.Loaded v ->
  get_outfit_suggestions OPENROUTER_MODEL create user_prompt df = Done (Some v, []).
Proof.
  intros Hc Hr Hraw Hv. unfold get_outfit_suggestions. rewrite Hc, Hr.
  unfold parse_response. by rewrite Hraw, Hv.
Qed.

End Failures.



(** An array of numbers, which holds no array of arrays, is returned as
    decoded: not a list of lists of strings. *)
Lemma decoded_value_returned_witness :
  let v := Json.JArr [Json.JInt 1; Json.JInt 2] in
  get_outfit_suggestions (py "model") (fun _ => Replied (py "[1, 2]")) (py "dinner")
    (empty_frame REQUIRED_COLUMNS)
  = Done (Some v, []) /\
  Re.search array_of_arrays (py "[1, 2]") = None /\
  is_outfits v = false.
Proof.
  split; [|split; vm_compute; reflexivity].
  apply (decoded_value_returned (py "model") (fun _ => Replied (py "[1, 2]"))
           (py "dinner") (empty_frame REQUIRED_COLUMNS) [] (py "[1, 2]") (py "[1, 2]"));
    vm_compute; reflexivity.
Defined.

(** The same for a JSON object. *)
Lemma object_returned :
  parse_response (dq "{'outfits': []}")
  = (Some (Json.JObj [(py "outfits", Json.JArr [])]), []) /\
  is_outfits (Json.JObj [(py "outfits", Json.JArr [])]) = false.
Proof. split; vm_compute; reflexivity. Qed.

(** ** The metadata table *)

Lemma text_in_spec (x : text) (l : list text) : text_in x l = true <-> x ∈ l.
Proof.
  induction l as [|y l IH]; simpl.
  - split; [done|]. by intros ?%elem_of_nil.
  - rewrite orb_true_iff, text_eqb_eq, IH, elem_of_cons. done.
Qed.

Lemma position_Some (x : text) (l : list text) :
  text_in x l = true -> exists k, position x l = Some k /\ k < length l.
Proof.
  induction l as [|y l IH]; simpl; [done|].
  destruct (text_eqb x y); simpl.
  - intros _. exists 0. split; [done|lia].
  - intros (k & -> & Hk)%IH. exists (S k). split; [done|lia].
Qed.

Lemma position_lookup (x : text) (l : list text) (k : nat) :
  position x l = Some k -> l !! k = Some x.
Proof.
  revert k. induction l as [|y l IH]; intros k; simpl; [done|].
  destruct (text_eqb x y) eqn:E.
  - intros [= <-]. apply text_eqb_eq in E. by subst.
  - destruct (position x l) as [k'|]; [|done]. intros [= <-]. by apply IH.
Qed.

Lemma position_first (x : text) (l : list text) (k j : nat) :
  position x l = Some k -> j < k -> l !! j <> Some x.
Proof.
  revert k j. induction l as [|y l IH]; intros k j; simpl; [done|].
  destruct (text_eqb x y) eqn:E.
  - intros [= <-]. lia.
  - destruct (position x l) as [k'|] eqn:Ek; [|done]. intros [= <-] Hj.
    destruct j as [|j]; simpl.
    + intros [= ->]. assert (text_eqb x x = true) as Hx by (by apply text_eqb_eq).
      congruence.
    + apply (IH k'); [done|lia].
Qed.

Lemma get_under (cols : list text) (row : list cell) (col : text) (c : cell) :
  get cols row col = Some c -> under cols row col c.
Proof.
  unfold get. destruct (position col cols) as [k|] eqn:Ek; [|done]. simpl.
  intros Hc. exists k. split; [by apply position_lookup|].
  split; [|done]. intros j Hj. by apply (position_first col cols k).
Qed.

Lemma at_under (T : DataFrame) (index : nat) (col : text) (c : cell) :
  at_ T index col = Some c ->
  exists row, rows T !! index = Some row /\ under (names T) row col c.
Proof.
  unfold at_. destruct (rows T !! index) as [row|]; [|done]. simpl.
  intros Hc. exists row. split; [done|]. by apply get_under.
Qed.

Section StoreFacts.
Context `{Floats}.

Lemma shown_under (cols : list text) (row : list cell) (fields : list text) :
  shown cols row = Some fields ->
  exists url category color season,
    under cols row (py "Image URL") url /\ under cols row (py "Category") category /\
    under cols row (py "Color") color /\ under cols row (py "Season") season /\
    fields = [str_cell url; str_cell category; str_cell color; str_cell season].
Proof.
  unfold shown.
  destruct (get cols row (py "Image URL")) as [url|] eqn:E1; [|done].
  destruct (get cols row (py "Category")) as [category|] eqn:E2; [|done].
  destruct (get cols row (py "Color")) as [color|] eqn:E3; [|done].
  destruct (get cols row (py "Season")) as [season|] eqn:E4; [|done].
  intros [= <-]. exists url, category, color, season.
  repeat split; try done; by apply get_under.
Qed.

Lemma length_kinds (f : csv) : length (kinds f) = length (header f).
Proof. unfold kinds. apply length_imap. Qed.

Lemma names_read_csv (f : csv) : names (read_csv f) = header f.
Proof.
  unfold names, read_csv. simpl. apply fst_zip.
  by rewrite length_fmap, length_kinds.
Qed.

Lemma length_rows_read_csv (f : csv) :
  length (rows (read_csv f)) = length (lines f).
Proof. unfold read_csv. simpl. apply length_fmap. Qed.

Lemma row_length_read_csv (f : csv) (row : list cell) :
  row ∈ rows (read_csv f) -> length row = length (names (read_csv f)).
Proof.
  rewrite names_read_csv. unfold read_csv. simpl.
  intros (line & -> & _)%list_elem_of_fmap.
  by rewrite length_imap, length_kinds.
Qed.

Lemma names_empty_frame (cols : list text) : names (empty_frame cols) = cols.
Proof.
  unfold names, empty_frame. simpl. rewrite <- list_fmap_compose.
  by rewrite list_fmap_id.
Qed.

(** What [load_metadata] returns has the required columns and a value
    under every column in every row. *)
Lemma load_metadata_required (st : file) (col : text) :
  col ∈ REQUIRED_COLUMNS -> text_in col (names (load_metadata st)) = true.
Proof.
  intros Hcol. unfold load_metadata.
  destruct st as [f|]; [destruct (forallb _ REQUIRED_COLUMNS) eqn:E|].
  - rewrite forallb_forall in E. apply E. by apply list_elem_of_In.
  - rewrite names_empty_frame. by apply text_in_spec.
  - rewrite names_empty_frame. by apply text_in_spec.
Qed.

Lemma load_metadata_row_length (st : file) (row : list cell) :
  row ∈ rows (load_metadata st) -> length row = length (names (load_metadata st)).
Proof.
  unfold load_metadata.
  destruct st as [f|]; [destruct (forallb _ REQUIRED_COLUMNS)|];
    try (by intros ?%elem_of_nil).
  apply row_length_read_csv.
Qed.

Lemma get_Some (cols : list text) (row : list cell) (col : text) :
  text_in col cols = true -> length row = length cols ->
  is_Some (get cols row col).
Proof.
  intros (k & Hk & Hlt)%position_Some Hlen. unfold get. rewrite Hk. simpl.
  apply lookup_lt_is_Some. lia.
Qed.

End StoreFacts.

(** ** Well-formed files *)

Ltac by_compute := apply (bool_decide_unpack _); vm_compute; exact I.

Section WellFormed.
Context `{Floats}.

Lemma names_load_metadata_wf (st : file) :
  wf_file st ->
  names (load_metadata st) <> [] /\ NoDup (names (load_metadata st)) /\
  ([] ∉ names (load_metadata st)).
Proof.
  intros Hwf.
  assert (Hreq : REQUIRED_COLUMNS <> [] /\ NoDup REQUIRED_COLUMNS /\ ([] ∉ REQUIRED_COLUMNS))
    by (repeat split; by_compute).
  unfold load_metadata.
  destruct st as [f|]; [destruct (forallb _ REQUIRED_COLUMNS)|];
    rewrite ?names_empty_frame; try done.
  rewrite names_read_csv. by destruct Hwf as (? & ? & ? & _).
Qed.

Lemma wf_to_csv (T : DataFrame) :
  names T <> [] -> NoDup (names T) -> [] ∉ names T -> rectangular T ->
  wf_csv (to_csv T).
Proof.
  intros Hne Hnd Hnn Hrect. unfold wf_csv, to_csv. simpl.
  repeat split; try done.
  apply Forall_fmap, Forall_forall. intros row Hrow. simpl.
  rewrite length_fmap. by apply Hrect.
Qed.

End WellFormed.

(** [pd.read_csv] returns a frame for a well-formed file. *)
Lemma read_csv_returns (f : csv) : wf_csv f -> read_csv_raises f = None.
Proof.
  intros (Hne & _ & _ & Hlen). unfold read_csv_raises.
  destruct (header f) as [|h hs] eqn:Eh; [done|].
  replace (forallb _ (lines f)) with true; [done|].
  symmetry. apply forallb_forall. intros l Hl%list_elem_of_In.
  rewrite Forall_forall in Hlen. apply Nat.leb_le. rewrite (Hlen l Hl).
  unfold expected_fields. rewrite Eh. destruct (lines f); lia.
Qed.

Section StoreClaims.
Context `{Floats}.
Variable destroy : cell -> option text.


(** C7.  [delete_item] at a position that is not a row of the table (every
    position, when the table is empty) returns without raising, leaves the
    file as it is, and does not call the asset store. *)
Theorem delete_item_out_of_range (index : Z) (st : file) :
  wf_file st ->
  (index < 0 \/ Z.of_nat (length (rows (load_metadata st))) <= index)%Z ->
  delete_item destroy index st = Done (st, []).
Proof.
  intros _ Hout. unfold delete_item.
  replace (in_index index (load_metadata st)) with false; [by rewrite andb_false_r|].
  symmetry. unfold in_index. apply andb_false_iff.
  destruct Hout; [left; apply Z.leb_gt|right; apply Z.ltb_ge]; lia.
Qed.

End StoreClaims.



(** A line with more fields than the lines before it ends the reading as
    well. *)
Lemma load_metadata_long_line :
  load_metadata_raises
    (Some {| header := [py "Image URL"; py "Category"];
             lines := [[py "https://x/a.png"; py "Shirts"];
                       [py "https://x/b.png"; py "Pants"; py "Black"]] |})
  = Some ParserError.
Proof. reflexivity. Qed.

Lemma delete_item_out_of_range_witness :
  delete_item (fun _ => None) 2 two_rows = Done (two_rows, []) /\
  delete_item (fun _ => None) (-1) two_rows = Done (two_rows, []) /\
  delete_item (fun _ => None) 0 None = Done (None, []).
Proof.
  split; [|split]; apply delete_item_out_of_range;
    first [exact I | repeat split; by_compute].
Defined.

(** ** Type inference on a column that holds a plain text *)

Section Inference.
Context `{Floats}.

Lemma try_int64_plain (toks : list text) (t : text) :
  t ∈ toks -> plain t -> try_int64 toks <> ScanOk.
Proof.
  intros Hin (Hna & Hint & _). induction toks as [|a toks IH]; [by apply elem_of_nil in Hin|].
  apply elem_of_cons in Hin as [<-|Hin]; simpl.
  - by rewrite Hna, Hint.
  - destruct (is_na a); [by apply IH|].
    destruct (str_to_int64 a); [by apply IH|done|done].
Qed.

Lemma after_int_plain (toks : list text) (t : text) :
  t ∈ toks -> plain t -> after_int toks = KObject true.
Proof.
  intros Hin (Hna & _ & Hfl & Hb). unfold after_int.
  destruct (forallb (fun t => is_na t || parses_as_float t) toks) eqn:E1.
  { rewrite forallb_forall in E1. apply list_elem_of_In, E1 in Hin.
    by rewrite Hna, Hfl in Hin. }
  destruct (forallb (fun t => is_na t || is_bool t) toks) eqn:E2; [|done].
  rewrite forallb_forall in E2. apply list_elem_of_In, E2 in Hin.
  by rewrite Hna, Hb in Hin.
Qed.

(** A token [str_to_int64] finds invalid converts to uint64 only as a
    signed one. *)
Lemma str_to_uint64_invalid (st : uint_state) (t : text) :
  str_to_int64 t = Invalid ->
  match str_to_uint64 st t with
  | (st', Conv _) => seen_sint st' = true
  | _ => True
  end.
Proof.
  unfold str_to_int64, str_to_uint64.
  destruct (skip_spaces t) as [|c s']; [done|].
  destruct (c =? 45)%N; [done|].
  destruct (c =? 43)%N.
  - destruct (span_digits s') as [[|d ds] r]; [done|].
    destruct (_ || _) eqn:Hrange; [done|].
    apply orb_false_iff in Hrange as [_ Hmax%Z.ltb_ge].
    replace (UINT64_MAX <? int_of_digits (d :: ds))%Z with false.
    + by destruct (skip_spaces r).
    + symmetry. apply Z.ltb_ge. unfold UINT64_MAX, INT64_MAX in *. lia.
  - destruct (span_digits (c :: s')) as [[|d ds] r]; [done|].
    destruct (_ || _) eqn:Hrange; [done|].
    apply orb_false_iff in Hrange as [_ Hmax%Z.ltb_ge].
    replace (UINT64_MAX <? int_of_digits (d :: ds))%Z with false.
    + by destruct (skip_spaces r).
    + symmetry. apply Z.ltb_ge. unfold UINT64_MAX, INT64_MAX in *. lia.
Qed.

Lemma str_to_uint64_sint (st : uint_state) (t : text) :
  seen_sint st = true -> seen_sint (str_to_uint64 st t).1 = true.
Proof.
  intros Hst. unfold str_to_uint64.
  destruct (skip_spaces t) as [|c s']; [done|].
  destruct (c =? 45)%N; [done|].
  destruct (span_digits _) as [[|d ds] r]; [done|].
  destruct (_ <? _)%Z; [done|].
  destruct (skip_spaces r); [|done].
  by destruct (_ <? _)%Z.
Qed.

Lemma try_uint64_sint (st : uint_state) (toks : list text) :
  seen_sint st = true -> seen_sint (try_uint64 st toks).1 = true.
Proof.
  revert st. induction toks as [|a toks IH]; intros st Hst; simpl; [done|].
  destruct (is_na a); [by apply IH|].
  pose proof (str_to_uint64_sint st a Hst) as Hs.
  destruct (str_to_uint64 st a) as [st' [z| |]]; simpl in *; [by apply IH|done|done].
Qed.

Lemma try_uint64_plain (st : uint_state) (toks : list text) (t : text) :
  t ∈ toks -> plain t ->
  match try_uint64 st toks with
  | (st', ScanOk) => seen_sint st' = true
  | _ => True
  end.
Proof.
  intros Hin (Hna & Hint & _). revert st.
  induction toks as [|a toks IH]; intros st; [by apply elem_of_nil in Hin|].
  apply elem_of_cons in Hin as [<-|Hin]; simpl.
  - rewrite Hna. pose proof (str_to_uint64_invalid st t Hint) as Hs.
    destruct (str_to_uint64 st t) as [st' [z| |]]; [|done|done].
    pose proof (try_uint64_sint st' toks Hs).
    by destruct (try_uint64 st' toks) as [st'' []].
  - destruct (is_na a); [by apply IH|].
    destruct (str_to_uint64 st a) as [st' [z| |]]; [by apply IH|done|done].
Qed.

(** A column that holds a plain text is read as strings. *)
Lemma decide_kind_object (toks : list text) (t : text) :
  t ∈ toks -> plain t -> exists b, decide_kind toks = KObject b.
Proof.
  intros Hin Hpl. unfold decide_kind.
  destruct toks as [|a toks']; [by apply elem_of_nil in Hin|].
  set (toks := a :: toks') in *.
  pose proof (try_int64_plain toks t Hin Hpl) as Hi.
  destruct (try_int64 toks); [done| |].
  - eexists. by apply (after_int_plain toks t).
  - pose proof (try_uint64_plain
                  {| seen_sint := false; seen_uint := false; seen_null := false |}
                  toks t Hin Hpl) as Hu.
    destruct (try_uint64 _ toks) as [st' []].
    + rewrite Hu. destruct (seen_uint st' && _); by eexists.
    + eexists. by apply (after_int_plain toks t).
    + by eexists.
Qed.

Lemma convert_plain (toks : list text) (t tok : text) :
  t ∈ toks -> plain t -> is_na tok = false ->
  convert (decide_kind toks) tok = CStr tok.
Proof.
  intros Hin Hpl Hna. destruct (decide_kind_object toks t Hin Hpl) as [b ->].
  destruct b; simpl; by rewrite ?Hna.
Qed.

End Inference.

(** ** Writing a table and reading it back *)

Section ReadBack.
Context `{Floats}.

Lemma rows_read_back (T : DataFrame) :
  rows (read_csv (to_csv T)) = reread_row T <$> rows T.
Proof. unfold read_csv, to_csv, reread_row. simpl. by rewrite <- list_fmap_compose. Qed.

Lemma names_read_back (T : DataFrame) : names (read_csv (to_csv T)) = names T.
Proof. by rewrite names_read_csv. Qed.

Lemma length_reread_row (T : DataFrame) (row : list cell) :
  length (reread_row T row) = length (names T).
Proof. unfold reread_row. by rewrite length_imap, length_kinds. Qed.

Lemma reread_row_lookup (T : DataFrame) (row : list cell) (k : nat) (c : cell) :
  row !! k = Some c -> k < length (names T) ->
  reread_row T row !! k
  = Some (convert (decide_kind (column_tokens k (lines (to_csv T)))) (csv_text c)).
Proof.
  intros Hc Hk. unfold reread_row, kinds.
  rewrite !list_lookup_imap.
  destruct (lookup_lt_is_Some_2 (header (to_csv T)) k Hk) as [name ->]. simpl.
  unfold field. by rewrite list_lookup_fmap, Hc.
Qed.

(** The token of a cell is among the tokens of its column. *)
Lemma column_tokens_elem (T : DataFrame) (row : list cell) (k : nat) (c : cell) :
  row ∈ rows T -> row !! k = Some c ->
  csv_text c ∈ column_tokens k (lines (to_csv T)).
Proof.
  intros Hrow Hc. unfold column_tokens, to_csv. simpl.
  apply list_elem_of_fmap. exists (csv_text <$> row). split.
  - unfold field. by rewrite list_lookup_fmap, Hc.
  - apply list_elem_of_fmap. by exists row.
Qed.

(** A plain string of a row is read back as it is. *)
Lemma reread_plain (T : DataFrame) (row : list cell) (k : nat) (tok : text) :
  row ∈ rows T -> row !! k = Some (CStr tok) -> plain tok ->
  k < length (names T) ->
  reread_row T row !! k = Some (CStr tok).
Proof.
  intros Hrow Hc Hpl Hk.
  rewrite (reread_row_lookup T row k _ Hc Hk). f_equal.
  apply (convert_plain _ tok); [|done|by destruct Hpl].
  exact (column_tokens_elem T row k _ Hrow Hc).
Qed.

Lemma reread_plain_row (T : DataFrame) (row : list cell) :
  row ∈ rows T -> length row = length (names T) ->
  Forall plain_cell row -> reread_row T row = row.
Proof.
  intros Hrow Hlen Hpl. apply list_eq. intros k.
  destruct (row !! k) as [c|] eqn:Hc.
  - rewrite Forall_forall in Hpl.
    destruct (Hpl c) as (tok & -> & Htok); [by eapply list_elem_of_lookup_2|].
    apply reread_plain; [done|done|done|].
    rewrite <- Hlen. by apply lookup_lt_Some in Hc.
  - apply lookup_ge_None. rewrite length_reread_row, <- Hlen.
    by apply lookup_ge_None.
Qed.

Lemma reread_row_kept (T : DataFrame) (row : list cell) :
  row ∈ rows T -> length row = length (names T) ->
  Forall2 kept row (reread_row T row).
Proof.
  intros Hrow Hlen. apply Forall2_same_length_lookup_2.
  - by rewrite length_reread_row.
  - intros k c c' Hc Hc'.
    assert (Hk : k < length (names T)).
    { rewrite <- Hlen. by apply lookup_lt_Some in Hc. }
    split.
    + rewrite (reread_row_lookup T row k c Hc Hk) in Hc'.
      injection Hc' as <-. by eexists.
    + intros (tok & -> & Hpl).
      rewrite (reread_plain T row k tok Hrow Hc Hpl Hk) in Hc'. by injection Hc'.
Qed.

Lemma read_back_kept (T : DataFrame) :
  rectangular T ->
  Forall2 (Forall2 kept) (rows T) (rows (read_csv (to_csv T))).
Proof.
  intros Hrect. rewrite rows_read_back.
  apply Forall2_fmap_r, Forall_Forall2_diag, Forall_forall.
  intros row Hrow. apply reread_row_kept; [done|by apply Hrect].
Qed.

Lemma read_back_plain (T : DataFrame) :
  rectangular T -> Forall (Forall plain_cell) (rows T) ->
  rows (read_csv (to_csv T)) = rows T.
Proof.
  intros Hrect Hpl. rewrite rows_read_back.
  rewrite <- (list_fmap_id (rows T)) at 2.
  apply list_fmap_ext. intros i row Hrow.
  assert (Hin : row ∈ rows T) by (by eapply list_elem_of_lookup_2).
  apply reread_plain_row; [done|by apply Hrect|].
  rewrite Forall_forall in Hpl. by apply Hpl.
Qed.

Lemma rectangular_load_metadata (st : file) : rectangular (load_metadata st).
Proof. intros row. apply load_metadata_row_length. Qed.

Lemma rectangular_drop_row (T : DataFrame) (i : nat) :
  rectangular T -> rectangular (drop_row T i).
Proof.
  intros Hrect row Hrow. unfold drop_row in *. simpl in *.
  apply Hrect. by eapply list_elem_of_delete_inv.
Qed.

(** A table with the required columns, written and loaded again, is what
    [read_csv] makes of the file. *)
Lemma load_metadata_written (T : DataFrame) :
  (forall col, col ∈ REQUIRED_COLUMNS -> text_in col (names T) = true) ->
  load_metadata (Some (to_csv T)) = read_csv (to_csv T).
Proof.
  intros Hreq. unfold load_metadata.
  destruct (forallb _ REQUIRED_COLUMNS) eqn:E; [done|].
  apply not_true_iff_false in E. destruct E.
  apply forallb_forall. intros col Hcol.
  rewrite names_read_back. by apply Hreq, list_elem_of_In.
Qed.

End ReadBack.

(** ** Deleting a row *)

Section Delete.
Context `{Floats}.
Variable destroy : cell -> option text.

(** What [delete_item] does at a row of the table. *)
Lemma delete_item_run (index : Z) (st : file) :
  (0 <= index < Z.of_nat (length (rows (load_metadata st))))%Z ->
  exists public_id,
    at_ (load_metadata st) (Z.to_nat index) (py "Public ID") = Some public_id /\
    delete_item destroy index st
    = Done (Some (to_csv (drop_row (load_metadata st) (Z.to_nat index))),
            destroy_call public_id ::
            match destroy public_id with
            | None => []
            | Some e => [st_warning (py "Could not delete from Cloudinary: " ++ e)]
            end).
Proof.
  intros Hin. set (T := load_metadata st) in *.
  destruct (lookup_lt_is_Some_2 (rows T) (Z.to_nat index)) as [row Hrow]; [lia|].
  assert (Hreq : text_in (py "Public ID") (names T) = true).
  { apply load_metadata_required. apply text_in_spec. reflexivity. }
  destruct (get_Some (names T) row (py "Public ID") Hreq) as [pid Hpid].
  { apply rectangular_load_metadata. by eapply list_elem_of_lookup_2. }
  exists pid. split.
  { unfold at_. rewrite Hrow. exact Hpid. }
  unfold delete_item. fold T.
  assert (Hne : empty T = false).
  { unfold empty. unfold names in Hreq.
    destruct (columns T); [done|]. destruct (rows T); [done|]. done. }
  assert (Hidx : in_index index T = true).
  { unfold in_index. apply andb_true_iff. split; [apply Z.leb_le|apply Z.ltb_lt]; lia. }
  rewrite Hne, Hidx. cbn [negb andb].
  assert (Hat : at_ T (Z.to_nat index) (py "Public ID") = Some pid).
  { unfold at_. rewrite Hrow. exact Hpid. }
  rewrite Hat. by destruct (destroy pid).
Qed.

(** The table loaded after a row has been dropped. *)
Lemma load_after_drop (st : file) (i : nat) :
  i < length (rows (load_metadata st)) ->
  let T := load_metadata st in
  let T' := load_metadata (Some (to_csv (drop_row T i))) in
  names T' = names T /\
  length (rows T') = length (rows T) - 1 /\
  Forall2 (Forall2 kept) (delete i (rows T)) (rows T') /\
  (Forall (Forall plain_cell) (delete i (rows T)) -> rows T' = delete i (rows T)).
Proof.
  intros Hi T T'.
  assert (E : T' = read_csv (to_csv (drop_row T i))).
  { apply load_metadata_written. intros col. apply load_metadata_required. }
  assert (Hrect : rectangular (drop_row T i)).
  { apply rectangular_drop_row, rectangular_load_metadata. }
  rewrite E. split; [by rewrite names_read_back|]. split.
  - rewrite length_rows_read_csv. unfold to_csv, drop_row. simpl.
    rewrite length_fmap, length_delete; [done|]. by apply lookup_lt_is_Some_2.
  - split; [exact (read_back_kept _ Hrect)|].
    intros Hpl. exact (read_back_plain _ Hrect Hpl).
Qed.

Lemma wf_after_drop (st : file) (i : nat) :
  wf_file st -> wf_csv (to_csv (drop_row (load_metadata st) i)).
Proof.
  intros (Hne & Hnd & Hnn)%names_load_metadata_wf.
  apply wf_to_csv; try done.
  apply rectangular_drop_row, rectangular_load_metadata.
Qed.

End Delete.

Section DeleteClaims.
Context `{Floats}.
Variable destroy : cell -> option text.



End DeleteClaims.


(** In the scenario the asset store is called once, with [a], and the
    table is left without rows. *)
Lemma delete_item_scenario :
  delete_item (fun _ => None) 0 one_row
  = Done (Some {| header := REQUIRED_COLUMNS; lines := [] |},
          [destroy_call (CStr (py "a"))]).
Proof. vm_compute. reflexivity. Qed.


(** ** Appending a row *)

Section Append.
Context `{Floats}.

Lemma concat_row_known (T : DataFrame) (entry : list (text * text)) :
  (forall kv, kv ∈ entry -> text_in kv.1 (names T) = true) ->
  rectangular T ->
  names (concat_row T entry) = names T /\
  rows (concat_row T entry)
  = ((fun row => zip_with (fun (cd : text * dtype) c =>
                             if text_in cd.1 entry.*1 then c else upcast_cell cd.2 c)
                          (columns T) row) <$> rows T)
    ++ [appended T entry] /\
  rectangular (concat_row T entry).
Proof.
  intros Hknown Hrect.
  assert (Hfresh : filter (fun kv : text * text => negb (text_in kv.1 (names T))) entry = []).
  { induction entry as [|kv entry IH]; [done|].
    rewrite filter_cons_False.
    - apply IH. intros kv' Hin. apply Hknown, elem_of_cons. by right.
    - rewrite (Hknown kv); [by intros []|]. apply elem_of_cons. by left. }
  assert (Hnames : names (concat_row T entry) = names T).
  { unfold names, concat_row. simpl. rewrite Hfresh, app_nil_r.
    rewrite <- list_fmap_compose. by apply list_fmap_ext. }
  assert (Hrows : rows (concat_row T entry)
          = ((fun row => zip_with (fun (cd : text * dtype) c =>
                                     if text_in cd.1 entry.*1 then c else upcast_cell cd.2 c)
                                  (columns T) row) <$> rows T)
            ++ [appended T entry]).
  { unfold concat_row. simpl. rewrite Hfresh. simpl. rewrite app_nil_r. f_equal.
    apply list_fmap_ext. intros i row _. by rewrite app_nil_r. }
  split; [done|]. split; [done|].
  intros row. rewrite Hrows, Hnames. intros [Hin|Hin]%elem_of_app.
  - apply list_elem_of_fmap in Hin as (row' & -> & Hrow').
    rewrite length_zip_with. rewrite (Hrect row' Hrow').
    unfold names. rewrite length_fmap. lia.
  - apply list_elem_of_singleton in Hin as ->. unfold appended. by rewrite length_fmap.
Qed.

Lemma save_metadata_unfold (image_url public_id category color season : text) (st : file) :
  save_metadata image_url public_id category color season st
  = Some (to_csv (concat_row (load_metadata st)
                    (entry_of image_url public_id category color season))).
Proof. reflexivity. Qed.

Lemma entry_of_known (image_url public_id category color season : text) (st : file)
    (kv : text * text) :
  kv ∈ entry_of image_url public_id category color season ->
  text_in kv.1 (names (load_metadata st)) = true.
Proof.
  intros Hin. apply load_metadata_required.
  unfold entry_of in Hin.
  repeat (apply elem_of_cons in Hin as [->|Hin];
          [apply text_in_spec; reflexivity|]).
  by apply elem_of_nil in Hin.
Qed.

(** A field of the appended row: written as it is, read back as the
    column types it, and as it is when it is a plain text. *)
Lemma appended_field (T : DataFrame) (entry : list (text * text))
    (col fld : text) (k : nat) :
  (forall kv, kv ∈ entry -> text_in kv.1 (names T) = true) ->
  rectangular T ->
  position col entry.*1 = Some k -> entry.*2 !! k = Some fld ->
  text_in col (names T) = true ->
  get_field (header (to_csv (concat_row T entry)))
            (csv_text <$> appended T entry) col = Some fld /\
  exists c,
    get (names (read_csv (to_csv (concat_row T entry))))
        (reread_row (concat_row T entry) (appended T entry)) col = Some c /\
    rereads (CStr fld) c /\
    (plain fld -> c = CStr fld).
Proof.
  intros Hknown Hrect Hpos Hfld Hcol.
  destruct (concat_row_known T entry Hknown Hrect) as (Hnames & Hrows & Hrect').
  destruct (position_Some col (names T) Hcol) as (j & Hj & Hlt).
  assert (Hcell : appended T entry !! j = Some (CStr fld)).
  { unfold appended. rewrite list_lookup_fmap, (position_lookup _ _ _ Hj). simpl.
    by rewrite Hpos, Hfld. }
  assert (Hin : appended T entry ∈ rows (concat_row T entry)).
  { rewrite Hrows. apply elem_of_app. right. by apply list_elem_of_singleton. }
  split.
  { unfold get_field, to_csv. simpl. rewrite Hnames, Hj. simpl.
    by rewrite list_lookup_fmap, Hcell. }
  rewrite names_read_back, Hnames. unfold get. rewrite Hj. simpl.
  eexists. split; [apply (reread_row_lookup _ _ _ _ Hcell); by rewrite Hnames|].
  split; [by eexists|].
  intros Hpl.
  assert (E := reread_plain _ _ _ _ Hin Hcell Hpl ltac:(by rewrite Hnames)).
  rewrite (reread_row_lookup _ _ _ _ Hcell) in E by (by rewrite Hnames).
  by injection E.
Qed.

End Append.

Section AppendClaims.
Context `{Floats}.


End AppendClaims.



(** ** The serialization of the wardrobe *)

(** Pieces without the separating character are what [split] gives back
    from their [join]. *)
Lemma split_join (c : char) (parts : list text) :
  parts <> [] -> Forall (fun p => c ∉ p) parts ->
  split (join [c] parts) [c] = parts.
Proof.
  intros Hne Hfree. unfold split.
  induction parts as [|p parts IH]; [done|].
  apply Forall_cons in Hfree as [Hp Hfree].
  destruct parts as [|q parts].
  - simpl. apply split_last; [|done]. by apply contains_absent.
  - change (join [c] (p :: q :: parts)) with (p ++ ([] ++ [c]) ++ join [c] (q :: parts)).
    rewrite (split_first [] c p).
    + f_equal. by apply IH.
    + rewrite app_nil_r. by apply contains_absent.
Qed.

Section Serialization.
Context `{Floats}.

Lemma clothes_line_shown (cols : list text) (row : list cell) :
  has_wardrobe_columns cols -> length row = length cols ->
  exists fields,
    shown cols row = Some fields /\ length fields = 4 /\
    clothes_line cols row = Done (join (py ",") fields).
Proof.
  intros (H1 & H2 & H3 & H4) Hlen. unfold shown, clothes_line.
  destruct (get_Some cols row _ H1 Hlen) as [url ->].
  destruct (get_Some cols row _ H2 Hlen) as [category ->].
  destruct (get_Some cols row _ H3 Hlen) as [color ->].
  destruct (get_Some cols row _ H4 Hlen) as [season ->].
  by eexists.
Qed.

Lemma clothes_lines_shown (cols : list text) (rs : list (list cell)) :
  has_wardrobe_columns cols ->
  (forall row, row ∈ rs -> length row = length cols) ->
  exists ls,
    clothes_lines cols rs = Done ls /\
    Forall2 (fun row l => exists fields,
               shown cols row = Some fields /\ length fields = 4 /\
               l = join (py ",") fields) rs ls.
Proof.
  intros Hcols. induction rs as [|row rs IH]; intros Hlen.
  - exists []. by split.
  - destruct (clothes_line_shown cols row Hcols) as (fields & Hf & H4 & Hl).
    { apply Hlen, elem_of_cons. by left. }
    destruct IH as (ls & Hls & Hall).
    { intros r Hr. apply Hlen, elem_of_cons. by right. }
    exists (join (py ",") fields :: ls). split.
    + simpl. by rewrite Hl, Hls.
    + constructor; [by exists fields|done].
Qed.

End Serialization.

Section SerializationClaims.
Context `{Floats}.

(** C3.  The serialization of a table with the columns it reads is the
    lines of its rows, in row order, joined by line feeds: as many lines
    as rows, each one the four fields [Image URL], [Category], [Color],
    [Season] of its row, the texts of the cells under the columns of
    these names, joined by commas, and the empty text for the empty
    table.  Where no field holds a comma and no line a line feed,
    splitting gives the fields and the lines back. *)
Theorem clothes_list_lines (T : DataFrame) :
  has_wardrobe_columns (names T) -> rectangular T ->
  exists ls,
    clothes_list T = Done (join nl ls) /\
    length ls = length (rows T) /\
    Forall2 (fun row l => exists fields,
               shown (names T) row = Some fields /\ length fields = 4 /\
               l = join (py ",") fields /\
               (Forall (fun f => 44%N ∉ f) fields -> split l (py ",") = fields) /\
               exists url category color season,
                 under (names T) row (py "Image URL") url /\
                 under (names T) row (py "Category") category /\
                 under (names T) row (py "Color") color /\
                 under (names T) row (py "Season") season /\
                 fields = [str_cell url; str_cell category; str_cell color;
                           str_cell season])
            (iterrows T) ls /\
    (ls <> [] -> Forall (fun l => 10%N ∉ l) ls -> split (join nl ls) nl = ls) /\
    (rows T = [] -> clothes_list T = Done []).
Proof.
  intros Hcols Hrect.
  destruct (clothes_lines_shown (names T) (iterrows T) Hcols) as (ls & Hls & Hall).
  { unfold iterrows. intros row (row' & -> & Hin)%list_elem_of_fmap.
    rewrite length_fmap. by apply Hrect. }
  exists ls. split; [|split; [|split; [|split]]].
  - unfold clothes_list. by rewrite Hls.
  - apply Forall2_length in Hall. rewrite <- Hall. unfold iterrows. by rewrite length_fmap.
  - eapply Forall2_impl; [exact Hall|]. cbv beta.
    intros row l (fields & Hs & H4 & ->). exists fields.
    split; [done|]. split; [done|]. split; [done|]. split.
    + intros Hfree. apply (split_join 44%N); [by destruct fields|done].
    + by apply shown_under.
  - intros Hne Hfree. by apply (split_join 10%N).
  - intros Hempty. unfold clothes_list, iterrows. by rewrite Hempty.
Qed.

End SerializationClaims.

Lemma clothes_list_lines_witness :
  let T := load_metadata two_rows in
  exists ls,
    clothes_list T = Done (join nl ls) /\
    length ls = length (rows T) /\
    Forall2 (fun row l => exists fields,
               shown (names T) row = Some fields /\ length fields = 4 /\
               l = join (py ",") fields /\
               (Forall (fun f => 44%N ∉ f) fields -> split l (py ",") = fields) /\
               exists url category color season,
                 under (names T) row (py "Image URL") url /\
                 under (names T) row (py "Category") category /\
                 under (names T) row (py "Color") color /\
                 under (names T) row (py "Season") season /\
                 fields = [str_cell url; str_cell category; str_cell color;
                           str_cell season])
            (iterrows T) ls /\
    (ls <> [] -> Forall (fun l => 10%N ∉ l) ls -> split (join nl ls) nl = ls) /\
    (rows T = [] -> clothes_list T = Done []).
Proof.
  apply (clothes_list_lines (load_metadata two_rows)).
  - repeat split; vm_compute; reflexivity.
  - apply rectangular_load_metadata.
Defined.

(** The two lines of the table with two rows. *)
Lemma clothes_list_two_rows :
  clothes_list (load_metadata two_rows)
  = Done (py "https://x/a.png,Shirts,Blue,Summer" ++ nl
          ++ py "https://x/b.png,Pants,Black,Winter").
Proof. vm_compute. reflexivity. Qed.

(** C3, as stated, fails for a field that holds a comma: it is written as
    it is, and the one line of the table of one row has five fields
    between commas, not four. *)
Lemma clothes_list_comma_in_field :
  let T := load_metadata
     (Some {| header := REQUIRED_COLUMNS;
              lines := [[py "https://x/a.png"; py "a"; py "Shirts"; py "Blue, dark";
                         py "Summer"]] |}) in
  clothes_list T = Done (py "https://x/a.png,Shirts,Blue, dark,Summer") /\
  length (rows T) = 1 /\
  split (py "https://x/a.png,Shirts,Blue, dark,Summer") nl
  = [py "https://x/a.png,Shirts,Blue, dark,Summer"] /\
  split (py "https://x/a.png,Shirts,Blue, dark,Summer") (py ",")
  = [py "https://x/a.png"; py "Shirts"; py "Blue"; py " dark"; py "Summer"].
Proof. repeat split; vm_compute; reflexivity. Qed.

(** * Further properties *)

(** ** The extraction of the array *)

(** What a pattern matches is a prefix of the text, and what the second
    part of a pattern matches comes after what the first part matches. *)
Lemma match_here_app (p q : Re.pattern) (s r : text) :
  Re.match_here (p ++ q) s = Some r ->
  exists m mid, s = m ++ mid /\ Re.match_here q mid = Some r.
Proof.
  revert s. induction p as [|[a|a|a] p IH]; intros s Hm.
  - by exists [], s.
  - destruct s as [|c s]; [done|]. simpl in Hm.
    destruct (Re.atom_matches a c); [|done].
    destruct (IH _ Hm) as (m & mid & -> & Hq). by exists (c :: m), mid.
  - induction s as [|c s IHs].
    + simpl in Hm. by apply IH.
    + simpl in Hm. simpl in IHs, IH.
      destruct (Re.atom_matches a c); [|by apply IH].
      match type of Hm with
      | match ?X with _ => _ end = _ => destruct X as [r'|] eqn:E
      end; [|by apply IH].
      destruct (IHs Hm) as (m & mid & -> & Hq).
      by exists (c :: m), mid.
  - induction s as [|c s IHs].
    + simpl in Hm. simpl in IH.
      destruct (Re.match_here (p ++ q) []) eqn:E; [|done].
      apply IH. by rewrite E.
    + simpl in Hm. simpl in IHs, IH.
      destruct (Re.match_here (p ++ q) (c :: s)) eqn:E.
      * apply IH. by rewrite E.
      * destruct (Re.atom_matches a c); [|done].
        destruct (IHs Hm) as (m & mid & -> & Hq). by exists (c :: m), mid.
Qed.

Lemma match_here_rest (p : Re.pattern) (s r : text) :
  Re.match_here p s = Some r -> s = take (length s - length r) s ++ r.
Proof.
  intros Hm. destruct (match_here_app p [] s r) as (m & mid & Hs & [= ->]).
  { by rewrite app_nil_r. }
  by rewrite Hs, length_app, Nat.add_sub, take_app_length.
Qed.

Lemma search_part (p : Re.pattern) (s m : text) :
  Re.search p s = Some m ->
  exists pre r, s = pre ++ m ++ r /\ Re.match_here p (m ++ r) = Some r.
Proof.
  induction s as [|c s IH]; rewrite search_unfold.
  - destruct (Re.match_here p []) as [r|] eqn:E; [|done].
    intros [= Hm]. exists [], r.
    assert ([] = m ++ r) as Hs.
    { etrans; [exact (match_here_rest _ _ _ E)|exact (f_equal (fun x => x ++ r) Hm)]. }
    split; [exact Hs|]. by rewrite <- Hs.
  - destruct (Re.match_here p (c :: s)) as [r|] eqn:E.
    + intros [= Hm]. exists [], r.
      assert (c :: s = m ++ r) as Hs.
      { etrans; [exact (match_here_rest _ _ _ E)|exact (f_equal (fun x => x ++ r) Hm)]. }
      split; [exact Hs|]. by rewrite <- Hs.
    + intros (pre & r & -> & Hm)%IH. by exists (c :: pre), r.
Qed.

(** X1.  The text handed to the JSON decoder is the whole cleaned answer
    when the pattern of an array of arrays matches nowhere in it, and
    otherwise one contiguous part of it that opens with a bracket and
    closes with a bracket. *)
Theorem extract_part_of_answer (raw : text) :
  (Re.search array_of_arrays raw = None /\ extract raw = raw) \/
  (exists pre inner post,
     raw = pre ++ extract raw ++ post /\ extract raw = 91%N :: inner ++ [93%N]).
Proof.
  unfold extract. destruct (Re.search array_of_arrays raw) as [m|] eqn:E; [right|by left].
  apply search_part in E as (pre & r & -> & Hm).
  change array_of_arrays
    with ([Re.One (Re.Lit 91%N); Re.Star Re.Space; Re.One (Re.Lit 91%N);
           Re.LazyStar Re.AnyChar; Re.One (Re.Lit 93%N); Re.Star Re.Space]
          ++ [Re.One (Re.Lit 93%N)]) in Hm.
  pose proof Hm as Hfirst.
  apply match_here_app in Hm as (m' & mid & Hs & Hlast).
  destruct mid as [|c mid]; [done|].
  cbn [Re.match_here Re.atom_matches] in Hlast.
  destruct (char_eqb 93%N c) eqn:Ec; [|done].
  apply char_eqb_eq in Ec as <-. injection Hlast as ->.
  assert (m = m' ++ [93%N]) as ->.
  { apply (app_inv_tail r). by rewrite <- app_assoc. }
  destruct m' as [|x m']; [done|].
  cbn [Re.match_here Re.atom_matches app] in Hfirst.
  destruct (char_eqb 91%N x) eqn:Ex; [|done].
  apply char_eqb_eq in Ex as <-.
  by exists pre, m', r.
Qed.

(** ** White space around the answer *)

Lemma lstrip_spaces (ws s : text) :
  forallb is_space ws = true -> lstrip (ws ++ s) = lstrip s.
Proof.
  induction ws as [|c ws IH]; [done|]. simpl.
  intros [Hc Hws]%andb_true_iff. rewrite Hc. by apply IH.
Qed.

Lemma rstrip_spaces (s ws : text) :
  forallb is_space ws = true -> rstrip (s ++ ws) = rstrip s.
Proof.
  intros Hws. induction s as [|c s IH].
  - simpl. induction ws as [|w ws IHw]; [done|].
    simpl in Hws. apply andb_true_iff in Hws as [Hw Hws].
    simpl. by rewrite (IHw Hws), Hw.
  - simpl. by rewrite IH.
Qed.

Lemma strip_spaces (pre s post : text) :
  forallb is_space pre = true -> forallb is_space post = true ->
  strip (pre ++ s ++ post) = strip s.
Proof.
  intros Hpre Hpost. unfold strip. rewrite lstrip_spaces by done.
  induction s as [|c s IH].
  - simpl. rewrite <- (app_nil_r post), lstrip_spaces by done. done.
  - change ((c :: s) ++ post) with (c :: s ++ post).
    cbn [lstrip]. destruct (is_space c); [done|].
    exact (rstrip_spaces (c :: s) post Hpost).
Qed.

(** X2.  White space before and after the answer of the model does not
    change what is made of it: the same value or the same messages. *)
Theorem parse_response_outer_space (pre content post : text) :
  forallb is_space pre = true -> forallb is_space post = true ->
  parse_response (pre ++ content ++ post) = parse_response content.
Proof.
  intros Hpre Hpost. unfold parse_response. by rewrite strip_spaces.
Qed.

Lemma parse_response_outer_space_witness :
  forallb is_space (nl ++ py "  ") = true /\ forallb is_space (py " " ++ nl) = true /\
  parse_response ((nl ++ py "  ") ++ two_outfits_json ++ (py " " ++ nl))
  = parse_response two_outfits_json.
Proof.
  split; [reflexivity|split; [reflexivity|]].
  apply (parse_response_outer_space (nl ++ py "  ") two_outfits_json (py " " ++ nl));
    reflexivity.
Defined.

Lemma parse_response_blank_eq (content : text) :
  forallb is_space content = true -> parse_response [] = parse_response content.
Proof.
  intros Hblank. unfold parse_response.
  by rewrite <- (strip_spaces content [] [] Hblank eq_refl), app_nil_r.
Qed.

(** X3.  An answer that is empty or only white space is reported as a
    parsing error at the first character, with an empty code block; no
    value is returned. *)
Theorem blank_response (content : text) :
  forallb is_space content = true ->
  parse_response content
  = (None,
     [st_error (py "Error parsing AI response: Expecting value: line 1 column 1 (char 0)");
      st_code []]).
Proof.
  intros Hblank. rewrite <- (parse_response_blank_eq content Hblank). reflexivity.
Qed.

Lemma blank_response_witness :
  forallb is_space (py "  " ++ nl) = true /\
  parse_response (py "  " ++ nl)
  = (None,
     [st_error (py "Error parsing AI response: Expecting value: line 1 column 1 (char 0)");
      st_code []]).
Proof.
  split; [reflexivity|]. apply (blank_response (py "  " ++ nl)). reflexivity.
Defined.

(** ** Suggestions for the table of the file *)

Section Loaded.
Context `{Floats}.
Variable OPENROUTER_MODEL : text.
Variable create : request -> completion.

Lemma wardrobe_columns_loaded (st : file) :
  has_wardrobe_columns (names (load_metadata st)).
Proof.
  repeat split; apply load_metadata_required; by_compute.
Qed.

Lemma clothes_list_loaded (st : file) :
  exists clothes, clothes_list (load_metadata st) = Done clothes.
Proof.
  destruct (clothes_lines_shown (names (load_metadata st)) (iterrows (load_metadata st))
              (wardrobe_columns_loaded st)) as (ls & Hls & _).
  { unfold iterrows. intros row (row' & -> & Hin)%list_elem_of_fmap.
    rewrite length_fmap. by apply load_metadata_row_length. }
  exists (join nl ls). unfold clothes_list. by rewrite Hls.
Qed.

(** X4.  On the table [load_metadata] returns, whatever the file holds,
    [get_outfit_suggestions] raises no [KeyError]: it returns a decoded
    value and shows nothing, or it returns [None] and shows one error
    message, followed by one code block when the error is a parsing
    error. *)
Theorem suggestions_for_loaded_table (user_prompt : text) (st : file) :
  exists outfits messages,
    get_outfit_suggestions OPENROUTER_MODEL create user_prompt (load_metadata st)
    = Done (outfits, messages) /\
    ((exists v, outfits = Some v /\ messages = []) \/
     (outfits = None /\
      exists m, messages = [st_error m] \/ exists raw, messages = [st_error m; st_code raw])).
Proof.
  destruct (clothes_list_loaded st) as (clothes & Hc).
  unfold get_outfit_suggestions. rewrite Hc.
  destruct (create _) as [content|e].
  - unfold parse_response. destruct (unfence (strip content)) as [raw|].
    + destruct (Json.loads (extract raw)) as [v|e|].
      * eexists _, _. split; [done|]. left. by eexists.
      * eexists _, _. split; [done|]. right. split; [done|].
        eexists. right. by eexists.
      * eexists _, _. split; [done|]. right. split; [done|]. eexists. by left.
    + eexists _, _. split; [done|]. right. split; [done|]. eexists. by left.
  - eexists _, _. split; [done|]. right. split; [done|]. eexists. by left.
Qed.

End Loaded.

(** ** Answers in compact JSON *)

Import Answers.

Lemma url_char_spec (c : char) :
  url_char c = true ->
  (c =? 34)%N = false /\ (c =? 92)%N = false /\ (c <=? 31)%N = false /\
  c <> 93%N /\ c <> 96%N.
Proof.
  unfold url_char. rewrite !andb_true_iff, !negb_true_iff.
  intros ((((? & ?) & ?) & ?%N.eqb_neq) & ?%N.eqb_neq). done.
Qed.

Lemma scanstring_plain (start s rest : text) :
  forallb url_char s = true ->
  Json.scanstring start (s ++ 34%N :: rest) = Json.Found s rest.
Proof.
  induction s as [|c s IH]; [done|].
  intros [Hc Hs]%andb_true_iff. apply url_char_spec in Hc as (H1 & H2 & H3 & _).
  change ((c :: s) ++ 34%N :: rest) with (c :: (s ++ 34%N :: rest)).
  cbn [Json.scanstring]. rewrite H1, H2, H3, (IH Hs). done.
Qed.

Lemma scan_once_quoted (d : nat) (s rest : text) :
  forallb url_char s = true ->
  Json.scan_once (S d) (quoted s ++ rest) = Json.Found (Json.JStr s) rest.
Proof.
  intros Hs. unfold quoted.
  change ((34%N :: s ++ [34%N]) ++ rest) with (34%N :: ((s ++ [34%N]) ++ rest)).
  rewrite <- app_assoc. cbn [Json.scan_once app].
  change (34 =? 34)%N with true. cbn iota.
  by rewrite scanstring_plain.
Qed.

Lemma parse_items_close (depth : nat) (acc : list Json.value) (s r : text) (v : Json.value) :
  Json.scan_once depth s = Json.Found v (93%N :: r) ->
  Json.parse_items (S depth) acc s = Json.Found (Json.JArr (acc ++ [v])) r.
Proof. intros Hs. cbn [Json.parse_items]. by rewrite Hs. Qed.

Lemma parse_items_comma (depth : nat) (acc : list Json.value) (s r : text) (v : Json.value) :
  Json.scan_once depth s = Json.Found v (44%N :: r) ->
  Json.parse_items (S depth) acc s = Json.parse_items depth (acc ++ [v]) (Json.skip_ws r).
Proof.
  intros Hs. destruct depth as [|depth]; [done|].
  change (Json.parse_items (S (S depth)) acc s)
    with (match Json.expecting_value (Json.scan_once (S depth) s) with
          | Json.Found v rest =>
              match Json.skip_ws rest with
              | (c :: r) as s1 =>
                  if (c =? 93)%N then Json.Found (Json.JArr (acc ++ [v])) r
                  else if (c =? 44)%N
                       then Json.parse_items (S depth) (acc ++ [v]) (Json.skip_ws r)
                       else Json.Fail (py "Expecting ',' delimiter") s1
              | [] => Json.Fail (py "Expecting ',' delimiter") []
              end
          | Json.Stop at_ => Json.Stop at_
          | Json.Fail m at_ => Json.Fail m at_
          | Json.Deep => Json.Deep
          end).
  by rewrite Hs.
Qed.

Lemma join_cons (sep p q : text) (ps : list text) :
  join sep (p :: q :: ps) = p ++ sep ++ join sep (q :: ps).
Proof. reflexivity. Qed.

(** An array of items that are scanned one by one, written with commas
    and no white space. *)
Lemma parse_items_join (n : nat) (parts : list text) (vals : list Json.value) :
  Forall2 (scans_as n) parts vals ->
  parts <> [] ->
  forall (depth : nat) (acc : list Json.value) (rest : text),
    n + length parts <= depth ->
    Json.parse_items depth acc (join [44%N] parts ++ 93%N :: rest)
    = Json.Found (Json.JArr (acc ++ vals)) rest.
Proof.
  induction 1 as [|p v parts vals (_ & Hp) Hrest IH]; [done|].
  intros _ depth acc rest Hd. simpl in Hd.
  destruct depth as [|depth]; [lia|].
  destruct Hrest as [|p2 v2 parts vals Hp2 Hrest].
  - cbn [join]. apply parse_items_close, Hp. lia.
  - rewrite join_cons, <- !app_assoc.
    rewrite (parse_items_comma depth acc _ (join [44%N] (p2 :: parts) ++ 93%N :: rest) v).
    2:{ apply Hp. simpl in Hd. lia. }
    assert (Json.skip_ws (join [44%N] (p2 :: parts) ++ 93%N :: rest)
            = join [44%N] (p2 :: parts) ++ 93%N :: rest) as ->.
    { destruct Hp2 as ((c & p' & -> & Hws & _) & _).
      assert (forall x, join [44%N] ((c :: p') :: parts) ++ x
                        = c :: (tail (join [44%N] ((c :: p') :: parts)) ++ x)) as ->.
      { intros x. by destruct parts. }
      cbn [Json.skip_ws]. by rewrite Hws. }
    rewrite IH by (simpl in *; try done; lia).
    by rewrite <- app_assoc.
Qed.

Lemma scan_once_array (n : nat) (parts : list text) (vals : list Json.value)
    (d : nat) (rest : text) :
  Forall2 (scans_as n) parts vals ->
  n + length parts <= d ->
  Json.scan_once (S d) (91%N :: join [44%N] parts ++ 93%N :: rest)
  = Json.Found (Json.JArr vals) rest.
Proof.
  intros Hall Hd. destruct parts as [|p parts].
  { by apply Forall2_nil_inv_l in Hall as ->. }
  pose proof (parse_items_join n _ _ Hall ltac:(done) d [] rest Hd) as Hitems.
  apply Forall2_cons_inv_l in Hall as (v & vals' & Hp & _ & ->).
  destruct Hp as ((c & p' & -> & Hws & Hc) & _).
  match type of Hitems with
  | Json.parse_items _ _ ?t = _ =>
      change (Json.scan_once (S d) (91%N :: t) = Json.Found (Json.JArr (v :: vals')) rest);
      assert (exists t', t = c :: t') as [t' Et] by (destruct parts; by eexists);
      rewrite Et in Hitems |- *
  end.
  cbn [Json.scan_once Json.skip_ws].
  change (91 =? 34)%N with false. change (91 =? 123)%N with false.
  change (91 =? 91)%N with true. cbn iota. rewrite Hws, Hc. exact Hitems.
Qed.

Lemma scans_as_quoted (url : text) :
  forallb url_char url = true -> scans_as 1 (quoted url) (Json.JStr url).
Proof.
  intros Hu. split; [by exists 34%N, (url ++ [34%N])|].
  intros [|d] rest Hd; [lia|]. by apply scan_once_quoted.
Qed.

Lemma scans_as_outfit (urls : list text) :
  Forall (fun url => forallb url_char url = true) urls ->
  scans_as (length urls + 2) (dump_outfit urls) (Json.JArr (Json.JStr <$> urls)).
Proof.
  intros Hok. split; [by eexists 91%N, _|].
  intros [|d] rest Hd; [lia|]. unfold dump_outfit.
  change ((91%N :: join (py ",") (quoted <$> urls) ++ [93%N]) ++ rest)
    with (91%N :: (join [44%N] (quoted <$> urls) ++ [93%N]) ++ rest).
  rewrite <- app_assoc. apply (scan_once_array 1).
  - apply Forall2_fmap, Forall_Forall2_diag.
    eapply Forall_impl; [exact Hok|]. intros url. apply scans_as_quoted.
  - rewrite length_fmap. lia.
Qed.

Lemma scans_as_mono (n m : nat) (p : text) (v : Json.value) :
  n <= m -> scans_as n p v -> scans_as m p v.
Proof. intros Hnm [Hc Hs]. split; [done|]. intros d rest Hd. apply Hs. lia. Qed.

Lemma length_join_elem (sep p : text) (parts : list text) :
  p ∈ parts -> length p <= length (join sep parts).
Proof.
  induction parts as [|q parts IH]; [by intros ?%elem_of_nil|].
  intros [->|Hin]%elem_of_cons.
  - destruct parts; simpl; [done|]. rewrite length_app. lia.
  - destruct parts as [|q2 parts]; [by apply elem_of_nil in Hin|].
    rewrite join_cons, !length_app. specialize (IH Hin). lia.
Qed.

Lemma length_join_parts (sep : text) (parts : list text) :
  sep <> [] -> length parts <= S (length (join sep parts)).
Proof.
  intros Hsep. induction parts as [|q parts IH]; [simpl; lia|].
  destruct parts as [|q2 parts]; [simpl; lia|].
  rewrite join_cons, !length_app. destruct sep; [done|]. simpl in *. lia.
Qed.

Lemma loads_dump_outfits (outfits : list (list text)) :
  Forall (Forall (fun url => forallb url_char url = true)) outfits ->
  Json.loads (dump_outfits outfits) = Json.Loaded (outfits_value outfits).
Proof.
  intros Hok. unfold Json.loads.
  set (doc := dump_outfits outfits).
  assert (Json.scan_once (2 * length doc + 2) (Json.skip_ws doc)
          = Json.Found (outfits_value outfits) []) as ->; [|done].
  change (Json.skip_ws doc) with doc.
  replace (2 * length doc + 2) with (S (2 * length doc + 1)) by lia.
  unfold doc at 2, dump_outfits.
  change (py ",") with [44%N].
  apply (scan_once_array (length doc + 2)).
  - unfold outfits_value. apply Forall2_fmap, Forall_Forall2_diag.
    apply Forall_forall. intros urls Hin.
    apply (scans_as_mono (length urls + 2)).
    + assert (length (dump_outfit urls) <= length doc) as Hle.
      { unfold doc, dump_outfits. cbn [length]. rewrite length_app.
        pose proof (length_join_elem (py ",") (dump_outfit urls) (dump_outfit <$> outfits)
                      ltac:(by apply list_elem_of_fmap_2)). lia. }
      unfold dump_outfit in Hle. cbn [length] in Hle. rewrite length_app in Hle.
      pose proof (length_join_parts (py ",") (quoted <$> urls) ltac:(done)) as Hp.
      rewrite length_fmap in Hp. cbn [length] in Hle. lia.
    + apply scans_as_outfit. by apply (proj1 (Forall_forall _ _) Hok).
  - rewrite length_fmap.
    pose proof (length_join_parts (py ",") (dump_outfit <$> outfits) ltac:(done)) as Hp.
    rewrite length_fmap in Hp.
    assert (length doc = S (length (join (py ",") (dump_outfit <$> outfits)) + 1)) as ->.
    { unfold doc, dump_outfits. cbn [length]. rewrite length_app. cbn [length]. lia. }
    lia.
Qed.

(** The lazy star of the pattern passes over every character but a
    closing bracket, and over a closing bracket that a comma follows. *)
Lemma lazy_skip (s : text) (c : char) :
  c <> 93%N ->
  Re.match_here (skipn 3 array_of_arrays) (c :: s)
  = Re.match_here (skipn 3 array_of_arrays) s.
Proof.
  intros Hc. cbn [skipn array_of_arrays Re.match_here Re.atom_matches].
  replace (char_eqb 93%N c) with false; [by destruct s|].
  symmetry. apply not_true_is_false. intros ?%char_eqb_eq. done.
Qed.

Lemma lazy_skip_all (x s : text) :
  93%N ∉ x ->
  Re.match_here (skipn 3 array_of_arrays) (x ++ s)
  = Re.match_here (skipn 3 array_of_arrays) s.
Proof.
  induction x as [|c x IH]; [done|].
  intros [Hc Hx]%not_elem_of_cons.
  change ((c :: x) ++ s) with (c :: (x ++ s)).
  rewrite lazy_skip by done. by apply IH.
Qed.

Lemma lazy_comma (s : text) :
  Re.match_here (skipn 3 array_of_arrays) (93%N :: 44%N :: s)
  = Re.match_here (skipn 3 array_of_arrays) s.
Proof. by destruct s. Qed.

Lemma lazy_close (r : text) :
  Re.match_here (skipn 3 array_of_arrays) (93%N :: 93%N :: r) = Some r.
Proof. reflexivity. Qed.

Lemma join_free (x : char) (sep : text) (parts : list text) :
  x ∉ sep -> Forall (fun p => x ∉ p) parts -> x ∉ join sep parts.
Proof.
  intros Hsep. induction parts as [|p parts IH]; intros Hall.
  - apply not_elem_of_nil.
  - apply Forall_cons in Hall as [Hp Hall].
    destruct parts as [|q parts]; [done|].
    rewrite join_cons, !not_elem_of_app. auto.
Qed.

Lemma quoted_free (x : char) (urls : list text) :
  x <> 34%N -> Forall (fun url => x ∉ url) urls ->
  Forall (fun p => x ∉ p) (quoted <$> urls).
Proof.
  intros Hx Hall. apply Forall_fmap. eapply Forall_impl; [exact Hall|].
  intros url Hu. unfold quoted. simpl.
  rewrite not_elem_of_cons, not_elem_of_app, not_elem_of_cons. split; [done|].
  split; [done|]. split; [done|]. apply not_elem_of_nil.
Qed.

Lemma url_free (x : char) (url : text) :
  url_char x = false -> forallb url_char url = true -> x ∉ url.
Proof.
  intros Hx Hall Hin. rewrite forallb_forall in Hall.
  apply list_elem_of_In, Hall in Hin. congruence.
Qed.

Lemma lazy_outfits (outfits : list (list text)) (r : text) :
  Forall (Forall (fun url => forallb url_char url = true)) outfits ->
  outfits <> [] ->
  exists t,
    join [44%N] (dump_outfit <$> outfits) ++ 93%N :: r = 91%N :: t /\
    Re.match_here (skipn 3 array_of_arrays) t = Some r.
Proof.
  induction outfits as [|urls outfits IH]; [done|]. intros Hok _.
  apply Forall_cons in Hok as [Hurls Hok].
  assert (93%N ∉ join [44%N] (quoted <$> urls)) as Hfree.
  { apply join_free; [by_compute|]. apply quoted_free; [done|].
    eapply Forall_impl; [exact Hurls|]. intros url. by apply url_free. }
  destruct outfits as [|urls2 outfits].
  - exists (join [44%N] (quoted <$> urls) ++ 93%N :: 93%N :: r). split.
    + cbn [fmap list_fmap join]. unfold dump_outfit. simpl. by rewrite <- app_assoc.
    + rewrite lazy_skip_all by done. apply lazy_close.
  - destruct (IH Hok ltac:(done)) as (t & Et & Ht).
    exists (join [44%N] (quoted <$> urls) ++ 93%N :: 44%N :: 91%N :: t). split.
    + etrans; [|exact (f_equal (fun z => 91%N :: (join [44%N] (quoted <$> urls)
                                                  ++ 93%N :: 44%N :: z)) Et)].
      change (join [44%N] (dump_outfit <$> urls :: urls2 :: outfits))
        with (dump_outfit urls ++ [44%N] ++ join [44%N] (dump_outfit <$> urls2 :: outfits)).
      unfold dump_outfit at 1. cbn [app]. rewrite <- !app_assoc. reflexivity.
    + rewrite lazy_skip_all, lazy_comma, lazy_skip by done. exact Ht.
Qed.

Lemma extract_dump_outfits (outfits : list (list text)) :
  Forall (Forall (fun url => forallb url_char url = true)) outfits ->
  extract (dump_outfits outfits) = dump_outfits outfits.
Proof.
  intros Hok. unfold extract. destruct outfits as [|urls outfits]; [done|].
  destruct (lazy_outfits (urls :: outfits) [] Hok ltac:(done)) as (t & Et & Ht).
  assert (Re.search array_of_arrays (dump_outfits (urls :: outfits) ++ [])
          = Some (dump_outfits (urls :: outfits))) as E.
  { apply search_found. unfold dump_outfits.
    change (py ",") with [44%N].
    change ((91%N :: join [44%N] (dump_outfit <$> urls :: outfits) ++ [93%N]) ++ [])
      with (91%N :: (join [44%N] (dump_outfit <$> urls :: outfits) ++ [93%N]) ++ []).
    rewrite <- app_assoc. change ([93%N] ++ []) with [93%N : char].
    etrans; [|exact Ht].
    match goal with
    | |- Re.match_here _ (_ :: ?x) = _ => replace x with (91%N :: t) by (symmetry; exact Et)
    end.
    reflexivity. }
  rewrite app_nil_r in E. by rewrite E.
Qed.

(** X5.  An answer that is an array of arrays of strings in compact JSON,
    with nothing to escape in the strings, no closing bracket and no
    backtick in them, is returned as that very value, with no message:
    every outfit and every URL, in order. *)
Theorem parse_response_compact (outfits : list (list text)) :
  Forall (Forall (fun url => forallb url_char url = true)) outfits ->
  parse_response (dump_outfits outfits) = (Some (outfits_value outfits), []) /\
  is_outfits (outfits_value outfits) = true.
Proof.
  intros Hok. split.
  - unfold parse_response.
    assert (strip (dump_outfits outfits) = dump_outfits outfits) as ->.
    { unfold strip, dump_outfits. cbn [lstrip]. change (is_space 91%N) with false. cbn iota.
      change (91%N :: join (py ",") (dump_outfit <$> outfits) ++ [93%N])
        with ((91%N :: join (py ",") (dump_outfit <$> outfits)) ++ [93%N]).
      by rewrite rstrip_app. }
    assert (unfence (dump_outfits outfits) = Some (dump_outfits outfits)) as ->.
    { unfold unfence, fence.
      replace (contains (py "```") (dump_outfits outfits)) with false; [done|].
      symmetry. apply (contains_absent 96%N). unfold dump_outfits.
      rewrite not_elem_of_cons, not_elem_of_app. split; [done|]. split; [|by_compute].
      apply join_free; [by_compute|]. apply Forall_fmap, Forall_forall.
      intros urls Hin. unfold dump_outfit. simpl.
      rewrite not_elem_of_cons, not_elem_of_app. split; [done|]. split; [|by_compute].
      apply join_free; [by_compute|]. apply quoted_free; [done|].
      eapply Forall_impl; [exact (proj1 (Forall_forall _ _) Hok urls Hin)|].
      intros url. by apply url_free. }
    by rewrite extract_dump_outfits, loads_dump_outfits.
  - unfold outfits_value. simpl. apply forallb_forall.
    intros v (urls & <- & _)%in_map_iff. simpl. apply forallb_forall.
    by intros w (url & <- & _)%in_map_iff.
Qed.

Lemma parse_response_compact_witness :
  let outfits := [[py "https://x/a.png"; py "https://x/b.png"]; []; [py "https://x/c.png"]] in
  Forall (Forall (fun url => forallb url_char url = true)) outfits /\
  (parse_response (dump_outfits outfits) = (Some (outfits_value outfits), []) /\
   is_outfits (outfits_value outfits) = true) /\
  dump_outfits outfits
  = dq "[['https://x/a.png','https://x/b.png'],[],['https://x/c.png']]".
Proof.
  split; [by repeat constructor|]. split; [|reflexivity].
  apply parse_response_compact. by repeat constructor.
Defined.

(** ** The lines of the file *)

Import Items.

Section PlainLines.
Context `{Floats}.

(** X6.  Whatever the file holds, every row of the table [load_metadata]
    returns, and every row [iterrows] yields from it, has a value under
    each of the five required columns: no look-up of a required column
    in a loaded row raises a [KeyError]. *)
Theorem loaded_rows_complete (st : file) :
  let T := load_metadata st in
  Forall (fun col => text_in col (names T) = true) REQUIRED_COLUMNS /\
  Forall (fun row => Forall (fun col => is_Some (get (names T) row col)) REQUIRED_COLUMNS)
         (rows T) /\
  Forall (fun row => Forall (fun col => is_Some (get (names T) row col)) REQUIRED_COLUMNS)
         (iterrows T).
Proof.
  intros T.
  assert (Forall (fun col => text_in col (names T) = true) REQUIRED_COLUMNS) as Hreq.
  { apply Forall_forall. intros col. apply load_metadata_required. }
  split; [done|]. split; apply Forall_forall; intros row Hrow;
    (eapply Forall_impl; [exact Hreq|]); intros col Hcol; apply get_Some; try done.
  - by apply load_metadata_row_length.
  - unfold iterrows in Hrow. apply list_elem_of_fmap in Hrow as (row' & -> & Hrow).
    rewrite length_fmap. by apply load_metadata_row_length.
Qed.

(** A plain line is read as the strings of its fields, whatever the other
    lines hold. *)
Lemma read_csv_plain_line (f : csv) (i : nat) (line : list text) :
  wf_csv f -> lines f !! i = Some line -> Forall plain line ->
  rows (read_csv f) !! i = Some (CStr <$> line).
Proof.
  intros (_ & _ & _ & Hlen) Hline Hpl. unfold read_csv. simpl.
  rewrite list_lookup_fmap, Hline. simpl. f_equal.
  assert (length line = length (header f)) as Hl.
  { rewrite Forall_forall in Hlen. by apply Hlen, (list_elem_of_lookup_2 _ i). }
  apply list_eq. intros k. rewrite list_lookup_imap, list_lookup_fmap.
  unfold kinds, field. rewrite list_lookup_imap.
  destruct (line !! k) as [tok|] eqn:Hk.
  - destruct (lookup_lt_is_Some_2 (header f) k) as [name ->].
    { rewrite <- Hl. by apply lookup_lt_Some in Hk. }
    simpl. f_equal.
    assert (plain tok) as Htok.
    { rewrite Forall_forall in Hpl. by apply Hpl, (list_elem_of_lookup_2 _ k). }
    apply (convert_plain _ tok); [|done|by destruct Htok].
    unfold column_tokens. apply list_elem_of_fmap. exists line.
    split; [unfold field; by rewrite Hk|by apply (list_elem_of_lookup_2 _ i)].
  - rewrite (proj2 (lookup_ge_None (header f) k)); [done|].
    rewrite <- Hl. by apply lookup_ge_None.
Qed.

Lemma read_csv_plain_rows (f : csv) :
  wf_csv f -> Forall (Forall plain) (lines f) ->
  rows (read_csv f) = (fun line : list text => CStr <$> line) <$> lines f.
Proof.
  intros Hwf Hpl. apply list_eq. intros i. rewrite list_lookup_fmap.
  destruct (lines f !! i) as [line|] eqn:Hline.
  - apply read_csv_plain_line; [done|done|].
    rewrite Forall_forall in Hpl. by apply Hpl, (list_elem_of_lookup_2 _ i).
  - apply lookup_ge_None. rewrite length_rows_read_csv. by apply lookup_ge_None.
Qed.

Lemma load_metadata_has_required (f : csv) :
  (forall col, col ∈ REQUIRED_COLUMNS -> col ∈ header f) ->
  load_metadata (Some f) = read_csv f.
Proof.
  intros Hreq. unfold load_metadata.
  destruct (forallb _ REQUIRED_COLUMNS) eqn:E; [done|].
  apply not_true_iff_false in E. destruct E.
  apply forallb_forall. intros col Hcol.
  rewrite names_read_csv. by apply text_in_spec, Hreq, list_elem_of_In.
Qed.

Lemma zip_with_strings {A} (g : A -> cell -> cell) (cols : list A) (line : list text) :
  (forall a s, g a (CStr s) = CStr s) -> length line <= length cols ->
  zip_with g cols (CStr <$> line) = CStr <$> line.
Proof.
  intros Hg. revert cols. induction line as [|s line IH]; intros [|a cols] Hlen;
    simpl in *; try done; try lia.
  rewrite Hg, IH; [done|lia].
Qed.

Lemma appended_line (T : DataFrame) (it : item) :
  csv_text <$> appended T (entry_of (item_url it) (item_id it) (item_category it)
                                    (item_color it) (item_season it))
  = line_for (names T) it.
Proof.
  unfold appended, line_for. rewrite <- list_fmap_compose.
  apply list_fmap_ext. intros _ col _. unfold entry_of.
  generalize (py "Image URL") (py "Public ID") (py "Category") (py "Color") (py "Season").
  intros k1 k2 k3 k4 k5. simpl.
  destruct (text_eqb col k1); [done|].
  destruct (text_eqb col k2); [done|].
  destruct (text_eqb col k3); [done|].
  destruct (text_eqb col k4); [done|].
  by destruct (text_eqb col k5).
Qed.

(** Saving onto a file of plain fields adds one line and leaves the
    others as they are. *)
Lemma save_item_plain (it : item) (f : csv) :
  plain_csv f ->
  save_item it (Some f)
  = Some {| header := header f; lines := lines f ++ [line_for (header f) it] |}.
Proof.
  intros (Hwf & Hreq & Hpl). unfold save_item. rewrite save_metadata_unfold.
  rewrite (load_metadata_has_required f Hreq).
  destruct (concat_row_known (read_csv f)
              (entry_of (item_url it) (item_id it) (item_category it) (item_color it)
                        (item_season it))) as (Hn & Hr & _).
  { intros kv Hkv. rewrite <- (load_metadata_has_required f Hreq).
    by eapply entry_of_known. }
  { intros row. apply row_length_read_csv. }
  f_equal. unfold to_csv. rewrite Hn, Hr, names_read_csv. f_equal.
  rewrite fmap_app. f_equal.
  - rewrite read_csv_plain_rows by done. rewrite <- !list_fmap_compose.
    rewrite <- (list_fmap_id (lines f)) at 2.
    apply list_fmap_ext. intros i line Hline. unfold compose, id.
    rewrite zip_with_strings.
    + rewrite <- list_fmap_compose. rewrite <- (list_fmap_id line) at 2.
      by apply list_fmap_ext.
    + intros [name d] s. by destruct (text_in (name, d).1 _), d.
    + destruct Hwf as (_ & _ & _ & Hlen). rewrite Forall_forall in Hlen.
      rewrite (Hlen line) by (by apply (list_elem_of_lookup_2 _ i)).
      unfold read_csv. simpl. rewrite length_zip_with, length_fmap, length_kinds. lia.
  - simpl. f_equal. rewrite appended_line. by rewrite names_read_csv.
Qed.

End PlainLines.

Section Files.
Context `{Floats}.
Variable destroy : cell -> option text.

(** X7.  Saving onto a file that lacks a required column does not keep
    what the file holds: the file written is the one a first save
    writes, the five required columns and the one line of the new item. *)
Theorem save_discards_other_file (it : item) (f : csv) (col : text) :
  wf_csv f -> col ∈ REQUIRED_COLUMNS -> col ∉ header f ->
  save_item it (Some f) = save_item it None /\
  save_item it None = Some {| header := REQUIRED_COLUMNS; lines := [line_of it] |}.
Proof.
  intros _ Hcol Hmiss. split; [|reflexivity].
  unfold save_item. rewrite !save_metadata_unfold. do 3 f_equal.
  unfold load_metadata. destruct (forallb _ REQUIRED_COLUMNS) eqn:E; [|done].
  rewrite forallb_forall in E. apply list_elem_of_In, E in Hcol.
  rewrite names_read_csv in Hcol. by apply text_in_spec in Hcol.
Qed.

Lemma length_line_for (hdr : list text) (it : item) :
  length (line_for hdr it) = length hdr.
Proof. unfold line_for. by rewrite length_fmap. Qed.

Lemma wf_csv_snoc (f : csv) (line : list text) :
  wf_csv f -> length line = length (header f) ->
  wf_csv {| header := header f; lines := lines f ++ [line] |}.
Proof.
  intros (Hne & Hnd & Hnn & Hlen) Hl. repeat split; try done. simpl.
  apply Forall_app. split; [done|]. by constructor.
Qed.


Lemma plain_csv_snoc (f : csv) (it : item) :
  header f = REQUIRED_COLUMNS -> plain_csv f -> plain_item it ->
  plain_csv {| header := header f; lines := lines f ++ [line_of it] |}.
Proof.
  intros Hh (Hwf & Hreq & Hpl) Hit. split; [|split].
  - apply wf_csv_snoc; [done|]. by rewrite Hh.
  - done.
  - simpl. apply Forall_app. split; [done|]. by constructor.
Qed.

Lemma plain_csv_first (it : item) :
  plain_item it -> plain_csv {| header := REQUIRED_COLUMNS; lines := [line_of it] |}.
Proof.
  intros Hit. split; [|split].
  - repeat split; first [by_compute|by repeat constructor].
  - done.
  - simpl. constructor; [exact Hit|constructor].
Qed.

Lemma save_all_plain (its : list item) (f : csv) :
  header f = REQUIRED_COLUMNS -> plain_csv f -> Forall plain_item its ->
  save_all its (Some f)
  = Some {| header := REQUIRED_COLUMNS; lines := lines f ++ (line_of <$> its) |}.
Proof.
  revert f. induction its as [|it its IH]; intros f Hh Hf Hits.
  - simpl. rewrite app_nil_r, <- Hh. by destruct f.
  - apply Forall_cons in Hits as [Hit Hits].
    change (save_all (it :: its) (Some f)) with (save_all its (save_item it (Some f))).
    rewrite (save_item_plain it f Hf), Hh.
    change (line_for REQUIRED_COLUMNS it) with (line_of it).
    rewrite IH; [|done| |done].
    + simpl. by rewrite <- app_assoc.
    + rewrite <- Hh. by apply plain_csv_snoc.
Qed.



End Files.

Lemma save_discards_other_file_witness :
  let it := {| item_url := py "https://x/b.png"; item_id := py "b";
               item_category := py "Pants"; item_color := py "Black";
               item_season := py "Winter" |} in
  let f := {| header := [py "Image URL"; py "Color"];
              lines := [[py "https://x/a.png"; py "Blue"]] |} in
  save_item it (Some f) = save_item it None /\
  save_item it None = Some {| header := REQUIRED_COLUMNS; lines := [line_of it] |}.
Proof.
  apply (save_discards_other_file _ _ (py "Season")); [repeat split| |]; by_compute.
Defined.

(** The file of two items used below, and a third item. *)
Lemma plain_two_lines :
  plain_csv {| header := REQUIRED_COLUMNS;
               lines := [[py "https://x/a.png"; py "a"; py "Shirts"; py "Blue"; py "Summer"];
                         [py "https://x/b.png"; py "b"; py "Pants"; py "Black"; py "Winter"]] |}.
Proof.
  split; [repeat split; by_compute|]. split; [done|].
  repeat constructor; by vm_compute.
Defined.




(** ** Uploads *)

Import Upload.

Lemma rfind_bound (c : char) (s : text) : (-1 <= rfind c s < Z.of_nat (length s))%Z.
Proof.
  induction s as [|x s IH]; simpl; [lia|].
  destruct (0 <=? rfind c s)%Z eqn:E; [lia|]. destruct (char_eqb x c); lia.
Qed.

Lemma rfind_absent (c : char) (s : text) : c ∉ s -> rfind c s = (-1)%Z.
Proof.
  induction s as [|x s IH]; [done|]. intros [Hx Hs]%not_elem_of_cons.
  simpl. rewrite (IH Hs). simpl.
  replace (char_eqb x c) with false; [done|].
  symmetry. apply not_true_is_false. intros ?%char_eqb_eq. done.
Qed.

Lemma rfind_last (c : char) (pre post : text) :
  c ∉ post -> rfind c (pre ++ c :: post) = Z.of_nat (length pre).
Proof.
  intros Hpost. induction pre as [|x pre IH].
  - simpl. rewrite (rfind_absent c post Hpost). simpl. by rewrite char_eqb_refl.
  - change ((x :: pre) ++ c :: post) with (x :: (pre ++ c :: post)).
    cbn [rfind]. rewrite IH.
    replace (0 <=? Z.of_nat (length pre))%Z with true by (symmetry; apply Z.leb_le; lia).
    simpl. lia.
Qed.

Lemma rfind_spec (c : char) (s : text) :
  ((c ∉ s) /\ rfind c s = (-1)%Z) \/
  (exists pre post, s = pre ++ c :: post /\ (c ∉ post) /\ rfind c s = Z.of_nat (length pre)).
Proof.
  induction s as [|x s IH].
  - left. split; [apply not_elem_of_nil|done].
  - destruct IH as [[Hs Hr]|(pre & post & -> & Hpost & Hr)].
    + destruct (char_eqb x c) eqn:E.
      * apply char_eqb_eq in E as ->. right. exists [], s. split; [done|]. split; [done|].
        exact (rfind_last c [] s Hs).
      * left. split.
        -- apply not_elem_of_cons. split; [|done]. intros ->.
           by rewrite char_eqb_refl in E.
        -- simpl. by rewrite Hr, E.
    + right. exists (x :: pre), post. split; [done|]. split; [done|].
      exact (rfind_last c (x :: pre) post Hpost).
Qed.

Lemma rfind_ge (c : char) (pre post : text) :
  c ∈ post -> (Z.of_nat (length pre) <= rfind c (pre ++ post))%Z.
Proof.
  intros Hin. induction pre as [|x pre IH].
  - simpl. destruct (rfind_spec c post) as [[Hs _]|(p1 & p2 & _ & _ & ->)]; [done|lia].
  - change ((x :: pre) ++ post) with (x :: (pre ++ post)). cbn [rfind].
    replace (0 <=? rfind c (pre ++ post))%Z with true by (symmetry; apply Z.leb_le; lia).
    simpl. lia.
Qed.

Lemma rfind_app_absent (c : char) (pre post : text) :
  c ∉ post -> rfind c (pre ++ post) = rfind c pre.
Proof.
  intros Hpost. destruct (rfind_spec c pre) as [[Hs ->]|(p1 & p2 & -> & Hp2 & ->)].
  - apply rfind_absent. rewrite not_elem_of_app. done.
  - rewrite <- app_assoc. change ((c :: p2) ++ post) with (c :: (p2 ++ post)).
    apply rfind_last. rewrite not_elem_of_app. done.
Qed.

Lemma has_name_true (p : text) (k : nat) (c : char) (n i : nat) :
  p !! k = Some c -> c <> 46%N -> i <= k < i + n -> has_name p i n = true.
Proof.
  intros Hk Hc. revert i. induction n as [|n IH]; intros i Hi; [lia|].
  simpl. destruct (p !! i) as [x|] eqn:Hx; [|done].
  destruct (char_eqb x 46%N) eqn:E; [|done].
  apply IH. destruct (decide (i = k)) as [->|]; [|lia].
  rewrite Hk in Hx. injection Hx as ->. by apply char_eqb_eq in E.
Qed.

Lemma has_name_inv (p : text) (i n : nat) :
  has_name p i n = true -> i + n <= length p ->
  exists k c, i <= k < i + n /\ p !! k = Some c /\ c <> 46%N.
Proof.
  revert i. induction n as [|n IH]; intros i; [done|].
  simpl. intros Hh Hlen. destruct (p !! i) as [x|] eqn:Hx.
  - destruct (char_eqb x 46%N) eqn:E.
    + destruct (IH (S i) Hh) as (k & c & Hk & Hc & Hne); [lia|].
      exists k, c. split; [lia|done].
    + exists i, x. split; [lia|]. split; [done|]. intros ->.
      by rewrite char_eqb_refl in E.
  - apply lookup_ge_None in Hx. lia.
Qed.

Lemma splitext_stem (pre post ext : text) (c : char) :
  c <> 46%N -> c <> 47%N -> 47%N ∉ post -> 46%N ∉ ext -> 47%N ∉ ext ->
  splitext ((pre ++ c :: post) ++ (46%N : char) :: ext) = (pre ++ c :: post, (46%N : char) :: ext).
Proof.
  intros Hc1 Hc2 Hpost He1 He2. unfold splitext. cbv zeta.
  rewrite (rfind_last 46%N (pre ++ c :: post) ext He1).
  assert (rfind 47%N ((pre ++ c :: post) ++ (46%N : char) :: ext) = rfind 47%N pre) as ->.
  { rewrite <- app_assoc. apply rfind_app_absent.
    rewrite not_elem_of_app, !not_elem_of_cons. done. }
  pose proof (rfind_bound 47%N pre) as Hb. rewrite length_app. cbn [length].
  replace (rfind 47%N pre <? Z.of_nat (length pre + S (length post)))%Z with true
    by (symmetry; apply Z.ltb_lt; lia).
  rewrite (has_name_true _ (length pre) c).
  - cbn [andb]. rewrite Nat2Z.id.
    replace (length pre + S (length post)) with (length (pre ++ c :: post))
      by (rewrite length_app; done).
    by rewrite take_app_length, drop_app_length.
  - rewrite <- app_assoc.
    exact (list_lookup_middle pre (post ++ 46%N :: ext) c (length pre) eq_refl).
  - done.
  - lia.
Qed.

(** X11.  The public id asked of Cloudinary is the name of the file
    without its last extension.  When the name ends with a dot and
    characters that are neither a dot nor a slash, and before that dot,
    after the last slash, it has a character that is not a dot, the public
    id is what stands before that dot.  A name that does not end so is the
    public id as it is.  The upload goes to the folder [wardrobe] and
    overwrites. *)
Theorem public_id_of_name (filename : text) :
  ((exists (pre : text) (c : char) (post e : text),
      filename = (pre ++ c :: post) ++ (46%N : char) :: e /\
      c <> 46%N /\ c <> 47%N /\ (47%N ∉ post) /\ (46%N ∉ e) /\ (47%N ∉ e) /\
      public_id (options_for filename) = pre ++ c :: post)
   \/
   ((forall (pre : text) (c : char) (post e : text),
       filename = (pre ++ c :: post) ++ (46%N : char) :: e ->
       c <> 46%N -> c <> 47%N -> 47%N ∉ post -> 46%N ∉ e -> 47%N ∉ e -> False) /\
    public_id (options_for filename) = filename)) /\
  folder (options_for filename) = py "wardrobe" /\
  overwrite (options_for filename) = true.
Proof.
  split; [|done]. unfold options_for. cbn [public_id].
  destruct ((rfind 47%N filename <? rfind 46%N filename)%Z
            && has_name filename (Z.to_nat (rfind 47%N filename + 1))
                 (Z.to_nat (rfind 46%N filename - (rfind 47%N filename + 1)))) eqn:E.
  - left. apply andb_true_iff in E as [Hlt%Z.ltb_lt Hn].
    pose proof (rfind_bound 47%N filename) as Hb.
    pose proof (rfind_bound 46%N filename) as Hd.
    apply has_name_inv in Hn as (k & c & Hk & Hc & Hne); [|lia].
    destruct (rfind_spec 46%N filename) as [[_ Hr]|(pre0 & e & Hf & He & Hr)]; [lia|].
    assert (k < length pre0) as Hklen by lia.
    assert (pre0 !! k = Some c) as Hpre.
    { etrans; [symmetry; exact (lookup_app_l pre0 ((46%N : char) :: e) k Hklen)|].
      by rewrite <- Hf. }
    pose proof (take_drop_middle pre0 k c Hpre) as Hmid.
    assert (filename = (take k pre0 ++ c :: drop (S k) pre0) ++ (46%N : char) :: e) as Hfile.
    { etrans; [exact Hf|]. f_equal. symmetry. exact Hmid. }
    assert (47%N ∉ c :: drop (S k) pre0 ++ (46%N : char) :: e) as Hsl.
    { intros Hin. pose proof (rfind_ge 47%N (take k pre0) _ Hin) as Hge.
      rewrite length_take_le in Hge by lia.
      assert (take k pre0 ++ c :: drop (S k) pre0 ++ (46%N : char) :: e = filename) as Hg.
      { etrans; [|symmetry; exact Hfile]. apply (app_assoc _ (c :: _)). }
      assert (Z.of_nat k <= rfind 47%N filename)%Z as Hle
        by exact (eq_ind _ (fun t => (Z.of_nat k <= rfind 47%N t)%Z) Hge _ Hg).
      lia. }
    apply not_elem_of_cons in Hsl as [Hc47 Hsl].
    apply not_elem_of_app in Hsl as [Hpost He47%not_elem_of_cons].
    exists (take k pre0), c, (drop (S k) pre0), e.
    split; [done|]. split; [done|]. split; [by intros ->|]. split; [done|].
    split; [done|]. split; [tauto|].
    rewrite Hfile at 1. by rewrite splitext_stem by (done || tauto || by intros ->).
  - right. split.
    + intros pre c post e Hf Hc1 Hc2 Hpost He1 He2.
      pose proof (splitext_stem pre post e c Hc1 Hc2 Hpost He1 He2) as Hs.
      rewrite <- Hf in Hs. unfold splitext in Hs. cbv zeta in Hs.
      rewrite E in Hs. done.
    + unfold splitext. cbv zeta. by rewrite E.
Qed.

(** X12.  Two files whose names differ only in the extension are
    uploaded under the same public id, the name without the extension,
    and each upload overwrites: the second image replaces the first. *)
Theorem same_stem_same_public_id (pre post ext1 ext2 : text) (c : char) :
  c <> 46%N -> c <> 47%N -> 47%N ∉ post ->
  46%N ∉ ext1 -> 47%N ∉ ext1 -> 46%N ∉ ext2 -> 47%N ∉ ext2 ->
  let stem := pre ++ c :: post in
  public_id (options_for (stem ++ (46%N : char) :: ext1)) = stem /\
  options_for (stem ++ (46%N : char) :: ext1) = options_for (stem ++ (46%N : char) :: ext2) /\
  overwrite (options_for (stem ++ (46%N : char) :: ext2)) = true.
Proof.
  intros Hc1 Hc2 Hpost H1 H2 H3 H4 stem. unfold options_for, stem.
  rewrite !splitext_stem by done. done.
Qed.

Lemma same_stem_same_public_id_witness :
  public_id (options_for (py "shirt.png")) = py "shirt" /\
  options_for (py "shirt.png") = options_for (py "shirt.jpeg") /\
  overwrite (options_for (py "shirt.jpeg")) = true.
Proof.
  apply (same_stem_same_public_id [] (py "hirt") (py "png") (py "jpeg") 115%N);
    by_compute.
Defined.

(** ** Add New Items *)

Import Pages.

Section AddItems.
Context `{Floats}.
Variable upload : list N -> upload_options -> uploaded.
Variable preview : list N -> option text.

(** X13.  A run of the page with the button pressed, on no file or on a
    well-formed one, writes the file in one case, and in that case it
    does: an image was chosen, its preview was shown, and the upload
    returned a result with a public id and a URL that is not empty.  Then
    the file is the one [save_metadata] writes for that URL, that public
    id and the three tags, and the run shows the preview, makes the one
    upload and shows the success message.  Conversely, when the file is
    not the one before, or the success message is among what is shown,
    all of that was the case. *)
Theorem add_new_items_writes_on_success (uploaded_image : option (list N * text))
    (category category_text color color_text season season_text : text) (st : file) :
  wf_file st ->
  let r := add_new_items upload preview uploaded_image category category_text
                         color color_text season season_text st in
  (forall file_bytes name result url id,
     uploaded_image = Some (file_bytes, name) ->
     preview file_bytes = None ->
     upload file_bytes (options_for name) = Returned result ->
     secure_url result = Some url -> url <> [] ->
     returned_public_id result = Some id ->
     r = (save_metadata url id (choice category category_text) (choice color color_text)
                        (choice season season_text) st,
          ([image_preview file_bytes; upload_call file_bytes (options_for name);
            success_toast], None))) /\
  (r.1 <> st \/ success_toast ∈ r.2.1 ->
   exists file_bytes name result url id,
     uploaded_image = Some (file_bytes, name) /\
     preview file_bytes = None /\
     upload file_bytes (options_for name) = Returned result /\
     secure_url result = Some url /\ url <> [] /\
     returned_public_id result = Some id).
Proof.
  intros _ r. unfold r, add_new_items, upload_to_cloudinary. split.
  - intros file_bytes name result url id -> -> -> -> Hurl ->.
    by destruct url.
  - assert (forall (es : list event), success_toast ∉ es ->
              forall x : file, x <> x \/ success_toast ∈ es -> False) as Hno.
    { intros es Hes x [Hx|Hin]; done. }
    destruct uploaded_image as [[file_bytes name]|].
    + destruct (preview file_bytes) as [e|] eqn:Epre.
      { intros []%(Hno []); apply not_elem_of_nil. }
      destruct (upload file_bytes (options_for name)) as [result|e] eqn:Eup.
      * destruct (secure_url result) as [url|] eqn:Eurl.
        -- destruct (returned_public_id result) as [id|] eqn:Eid.
           ++ destruct url as [|c url].
              ** intros []%Hno. cbn. rewrite !not_elem_of_cons.
                 split; [done|]. split; [done|]. apply not_elem_of_nil.
              ** intros _. by exists file_bytes, name, result, (c :: url), id.
           ++ intros []%Hno. cbn. rewrite !not_elem_of_cons.
              split; [done|]. split; [done|]. split; [done|]. apply not_elem_of_nil.
        -- intros []%Hno. cbn. rewrite !not_elem_of_cons.
           split; [done|]. split; [done|]. split; [done|]. apply not_elem_of_nil.
      * intros []%Hno. cbn. rewrite !not_elem_of_cons.
        split; [done|]. split; [done|]. split; [done|]. apply not_elem_of_nil.
    + intros []%Hno. cbn. rewrite not_elem_of_cons. split; [done|]. apply not_elem_of_nil.
Qed.

(** The file after plain items have been saved, starting without a file. *)
Lemma save_all_file (it : item) (its : list item) :
  Forall plain_item (it :: its) ->
  save_all (it :: its) None
  = Some {| header := REQUIRED_COLUMNS; lines := line_of <$> it :: its |} /\
  plain_csv {| header := REQUIRED_COLUMNS; lines := line_of <$> it :: its |}.
Proof.
  intros [Hit Hits]%Forall_cons. split.
  - change (save_all (it :: its) None)
      with (save_all its (Some {| header := REQUIRED_COLUMNS; lines := [line_of it] |})).
    rewrite save_all_plain; [done|done|by apply plain_csv_first|done].
  - split; [|split]; [|done|].
    + repeat split; try by_compute. simpl. constructor; [done|].
      apply Forall_fmap, Forall_forall. by intros.
    + simpl. constructor; [done|]. apply Forall_fmap. exact Hits.
Qed.

Lemma rows_save_all (its : list item) :
  Forall plain_item its ->
  rows (load_metadata (save_all its None)) = (fun it => CStr <$> line_of it) <$> its.
Proof.
  intros Hits. destruct its as [|it its]; [done|].
  destruct (save_all_file it its Hits) as (-> & Hwf & Hreq & Hpl).
  rewrite (load_metadata_has_required _ Hreq), read_csv_plain_rows by done.
  simpl. by rewrite <- list_fmap_compose.
Qed.

Lemma save_all_snoc (its : list item) (it : item) (st : file) :
  save_all (its ++ [it]) st = save_item it (save_all its st).
Proof. unfold save_all. by rewrite foldl_app. Qed.



End AddItems.

Lemma add_new_items_writes_on_success_witness :
  let upload := fun (_ : list N) (_ : upload_options) =>
    Returned {| secure_url := Some (py "https://x/c.png");
                returned_public_id := Some (py "wardrobe/c") |} in
  let uploaded_image := Some (one_pixel, py "c.png") in
  let r := add_new_items upload shows_one_pixel uploaded_image (py "Hats") []
                         (py "Other") (py "Teal") (py "All") [] two_rows in
  ((forall file_bytes name result url id,
      uploaded_image = Some (file_bytes, name) ->
      shows_one_pixel file_bytes = None ->
      upload file_bytes (options_for name) = Returned result ->
      secure_url result = Some url -> url <> [] ->
      returned_public_id result = Some id ->
      r = (save_metadata url id (choice (py "Hats") []) (choice (py "Other") (py "Teal"))
                         (choice (py "All") []) two_rows,
           ([image_preview file_bytes; upload_call file_bytes (options_for name);
             success_toast], None))) /\
   (r.1 <> two_rows \/ success_toast ∈ r.2.1 ->
    exists file_bytes name result url id,
      uploaded_image = Some (file_bytes, name) /\
      shows_one_pixel file_bytes = None /\
      upload file_bytes (options_for name) = Returned result /\
      secure_url result = Some url /\ url <> [] /\
      returned_public_id result = Some id)) /\
  r = (save_metadata (py "https://x/c.png") (py "wardrobe/c") (py "Hats") (py "Teal")
                     (py "All") two_rows,
       ([image_preview one_pixel;
         upload_call one_pixel {| folder := py "wardrobe"; public_id := py "c";
                                  overwrite := true; resource_type := py "image" |};
         success_toast], None)).
Proof.
  intros upload uploaded_image r. split; [|by vm_compute].
  assert (wf_file two_rows) as Hwf by (repeat split; by_compute).
  exact (add_new_items_writes_on_success upload shows_one_pixel uploaded_image
           (py "Hats") [] (py "Other") (py "Teal") (py "All") [] two_rows Hwf).
Defined.



(** A file the preview cannot open: the run ends there, nothing is
    uploaded and nothing is saved. *)
Lemma add_new_items_unreadable_image :
  add_new_items (fun _ _ => Returned {| secure_url := Some (py "https://x/c.png");
                                         returned_public_id := Some (py "wardrobe/c") |})
                shows_one_pixel (Some ([255; 216; 255]%N, py "c.jpg"))
                (py "Hats") [] (py "Red") [] (py "All") [] two_rows
  = (two_rows, ([], Some (PreviewError (py "cannot identify image file")))).
Proof. reflexivity. Qed.

(** ** Your Closet *)

Section Closet.
Context `{Floats}.
Variable destroy : cell -> option text.
Variable isin : dtype -> list cell -> cell -> bool.

Lemma where_isin_loaded (T : DataFrame) (col : text) (selected : list cell)
    (rs : list (nat * list cell)) :
  text_in col (names T) = true ->
  exists rs', where_isin isin (columns T) col selected rs = Done rs' /\
              rs' `sublist_of` rs /\ (selected = [] -> rs' = rs).
Proof.
  intros (k & Hk & _)%position_Some. unfold where_isin.
  destruct selected as [|v selected]; [by exists rs|].
  fold (names T). rewrite Hk. eexists. split; [done|]. split; [|done].
  apply sublist_filter.
Qed.

Lemma labelled_lookup (T : DataFrame) (lr : nat * list cell) :
  lr ∈ labelled T <-> rows T !! lr.1 = Some lr.2.
Proof.
  unfold labelled. rewrite elem_of_lookup_imap. split.
  - by intros (i & row & -> & Hrow).
  - intros Hrow. exists lr.1, lr.2. by destruct lr.
Qed.

Lemma labelled_NoDup (T : DataFrame) : NoDup (labelled T).*1.
Proof.
  unfold labelled. rewrite fmap_imap.
  rewrite (imap_ext _ (fun i _ => i)) by done.
  rewrite (imap_seq_0 (rows T) (fun i => i)), list_fmap_id. apply NoDup_seq.
Qed.

(** X16.  On the table of the file the three filters of the closet raise
    no [KeyError], and what they keep is rows of the table, in the order
    of the table, each under its own label, its position in the table;
    with nothing selected, all rows are kept. *)
Theorem closet_shows_rows_of_table (selected_colors selected_categories selected_seasons
    : list cell) (st : file) :
  let T := load_metadata st in
  exists rs,
    filtered isin selected_colors selected_categories selected_seasons T = Done rs /\
    rs `sublist_of` labelled T /\
    Forall (fun lr => rows T !! lr.1 = Some lr.2) rs /\
    NoDup rs.*1 /\
    (selected_colors = [] -> selected_categories = [] -> selected_seasons = [] ->
     rs = labelled T).
Proof.
  intros T. unfold filtered.
  assert (forall col, col ∈ REQUIRED_COLUMNS -> text_in col (names T) = true) as Hreq
    by (intros col; apply load_metadata_required).
  rewrite !Hreq by by_compute. cbn [negb].
  destruct (where_isin_loaded T (py "Color") selected_colors (labelled T))
    as (rs1 & -> & Hs1 & He1); [apply Hreq; by_compute|].
  destruct (where_isin_loaded T (py "Category") selected_categories rs1)
    as (rs2 & -> & Hs2 & He2); [apply Hreq; by_compute|].
  destruct (where_isin_loaded T (py "Season") selected_seasons rs2)
    as (rs3 & -> & Hs3 & He3); [apply Hreq; by_compute|].
  assert (rs3 `sublist_of` labelled T) as Hsub by (by trans rs2; [|trans rs1]).
  exists rs3. split; [done|]. split; [done|]. split; [|split].
  - apply Forall_forall. intros lr Hlr. apply labelled_lookup.
    by apply (sublist_subseteq _ _ Hsub).
  - eapply sublist_NoDup; [apply labelled_NoDup|]. by apply fmap_sublist.
  - intros E1 E2 E3. by rewrite (He3 E3), (He2 E2), (He1 E1).
Qed.

Lemma card_loaded (st : file) (index : nat) (row : list cell) :
  row ∈ rows (load_metadata st) ->
  exists url category color season,
    card (columns (load_metadata st)) index row
    = Done (closet_card index url category color season).
Proof.
  intros Hrow. unfold card. fold (names (load_metadata st)).
  assert (forall col, col ∈ REQUIRED_COLUMNS ->
            is_Some (get (names (load_metadata st))
                       (as_row_dtype (row_dtype (columns (load_metadata st)).*2) <$> row)
                       col)) as Hget.
  { intros col Hcol. apply get_Some; [by apply load_metadata_required|].
    rewrite length_fmap. by apply load_metadata_row_length. }
  destruct (Hget (py "Image URL")) as [c1 ->]; [by_compute|].
  destruct (Hget (py "Category")) as [c2 ->]; [by_compute|].
  destruct (Hget (py "Color")) as [c3 ->]; [by_compute|].
  destruct (Hget (py "Season")) as [c4 ->]; [by_compute|].
  by eexists _, _, _, _.
Qed.

Lemma cards_pressed (st st' : file) (i : nat) (effects : list effect)
    (rs : list (nat * list cell)) :
  NoDup rs.*1 -> i ∈ rs.*1 ->
  Forall (fun lr => lr.2 ∈ rows (load_metadata st)) rs ->
  delete_item destroy (Z.of_nat i) st = Done (st', effects) ->
  exists before,
    cards destroy (columns (load_metadata st)) (Some i) rs st
    = Done (st', before ++ (effect_call <$> effects) ++ [st_rerun]) /\
    Forall (fun e => exists index url category color season,
                       e = closet_card index url category color season) before.
Proof.
  intros Hnd Hin Hrows Hdel. induction rs as [|[index row] rs IH].
  { by apply elem_of_nil in Hin. }
  apply Forall_cons in Hrows as [Hrow Hrows]. simpl in Hrow.
  destruct (card_loaded st index row Hrow) as (url & category & color & season & Hcard).
  cbn [cards]. rewrite Hcard.
  simpl in Hnd. apply NoDup_cons in Hnd as [Hnew Hnd].
  simpl in Hin. apply elem_of_cons in Hin as [->|Hin].
  - rewrite bool_decide_eq_true_2 by done. rewrite Hdel.
    exists [closet_card index url category color season]. split; [done|].
    constructor; [by eexists _, _, _, _, _|constructor].
  - rewrite bool_decide_eq_false_2 by (intros [= ->]; done).
    destruct (IH Hnd Hin Hrows) as (before & -> & Hbefore).
    exists (closet_card index url category color season :: before). split; [done|].
    constructor; [by eexists _, _, _, _, _|done].
Qed.

Lemma closet_shows_rows (T : DataFrame) (selected_colors selected_categories
    selected_seasons : list cell) (rs : list (nat * list cell)) :
  filtered isin selected_colors selected_categories selected_seasons T = Done rs ->
  rs `sublist_of` labelled T /\ NoDup rs.*1.
Proof.
  unfold filtered. intros Hf.
  destruct (text_in (py "Color") (names T)) eqn:E1; [|done].
  destruct (text_in (py "Category") (names T)) eqn:E2; [|done].
  destruct (text_in (py "Season") (names T)) eqn:E3; [|done].
  cbn [negb] in Hf.
  destruct (where_isin_loaded T _ selected_colors (labelled T) E1) as (rs1 & Hw1 & Hs1 & _).
  destruct (where_isin_loaded T _ selected_categories rs1 E2) as (rs2 & Hw2 & Hs2 & _).
  destruct (where_isin_loaded T _ selected_seasons rs2 E3) as (rs3 & Hw3 & Hs3 & _).
  rewrite Hw1, Hw2, Hw3 in Hf. injection Hf as <-.
  assert (rs3 `sublist_of` labelled T) as Hsub by (by trans rs2; [|trans rs1]).
  split; [done|].
  eapply sublist_NoDup; [apply labelled_NoDup|]. by apply fmap_sublist.
Qed.

(** X17.  When the delete button of a card the closet shows is pressed,
    under any filters, the item deleted is the one of that card: the
    asset store is asked to destroy the public id of the row shown, the
    file written is the table without the row at that label, and the run
    ends with a rerun; before that only the count and cards are shown. *)
Theorem closet_delete_removes_shown_item (selected_colors selected_categories
    selected_seasons : list cell) (st : file) (rs : list (nat * list cell))
    (i : nat) (row : list cell) :
  filtered isin selected_colors selected_categories selected_seasons (load_metadata st)
  = Done rs ->
  (i, row) ∈ rs ->
  let T := load_metadata st in
  exists public_id count before warnings,
    get (names T) row (py "Public ID") = Some public_id /\
    your_closet destroy isin selected_colors selected_categories selected_seasons
                (Some i) st
    = Done (Some (to_csv (drop_row T i)),
            item_count count (if length rs =? 1 then [] else py "s")
            :: before ++ effect_call (destroy_call public_id)
            :: (effect_call <$> warnings) ++ [st_rerun]) /\
    Forall (fun e => exists index url category color season,
                       e = closet_card index url category color season) before /\
    Forall (fun e => exists m, e = st_warning m) warnings.
Proof.
  intros Hf Hin T.
  destruct (closet_shows_rows T _ _ _ _ Hf) as (Hsub & Hnd).
  assert (rows T !! i = Some row) as Hrow.
  { apply (labelled_lookup T (i, row)). by apply (sublist_subseteq _ _ Hsub). }
  destruct (delete_item_run destroy (Z.of_nat i) st) as (public_id & Hat & Hdel).
  { apply lookup_lt_Some in Hrow. fold T. lia. }
  rewrite Nat2Z.id in Hat, Hdel. fold T in Hat, Hdel.
  unfold at_ in Hat. rewrite Hrow in Hat.
  change (get (names T) row (py "Public ID") = Some public_id) in Hat.
  assert (exists before,
            cards destroy (columns T) (Some i) rs st
            = Done (Some (to_csv (drop_row T i)),
                    before ++ (effect_call <$>
                      destroy_call public_id ::
                      match destroy public_id with
                      | None => []
                      | Some e => [st_warning (py "Could not delete from Cloudinary: " ++ e)]
                      end) ++ [st_rerun]) /\
            Forall (fun e => exists index url category color season,
                               e = closet_card index url category color season) before)
    as (before & Hcards & Hbefore).
  { apply cards_pressed; [done| | |done].
    - by apply (list_elem_of_fmap_2 fst _ (i, row)).
    - apply Forall_forall. intros lr Hlr.
      apply (list_elem_of_lookup_2 _ lr.1), labelled_lookup.
      by apply (sublist_subseteq _ _ Hsub). }
  exists public_id, (str_N (N.of_nat (length rs))), before,
    match destroy public_id with
    | None => []
    | Some e => [st_warning (py "Could not delete from Cloudinary: " ++ e)]
    end.
  split; [done|]. split; [|split; [done|]].
  - unfold your_closet. cbv zeta. rewrite Hf. fold T.
    assert (columns T <> []) as Hcols.
    { intros E. pose proof (load_metadata_required st (py "Color") ltac:(by_compute)) as Hc.
      fold T in Hc. unfold names in Hc. by rewrite E in Hc. }
    destruct (columns T) as [|cd cols] eqn:Ecols; [done|].
    destruct rs as [|lr rs']; [by apply elem_of_nil in Hin|].
    rewrite Hcards. by destruct (destroy public_id).
  - destruct (destroy public_id); repeat constructor. by eexists.
Qed.

End Closet.

Lemma closet_delete_removes_shown_item_witness :
  let isin := fun (_ : dtype) (values : list cell) (c : cell) =>
    match c with
    | CStr s => existsb (fun v => match v with CStr t => text_eqb s t | _ => false end) values
    | _ => false
    end in
  let row := [CStr (py "https://x/b.png"); CStr (py "b"); CStr (py "Pants");
              CStr (py "Black"); CStr (py "Winter")] in
  let T := load_metadata two_rows in
  (exists public_id count before warnings,
     get (names T) row (py "Public ID") = Some public_id /\
     your_closet (fun _ => None) isin [CStr (py "Black")] [] [] (Some 1) two_rows
     = Done (Some (to_csv (drop_row T 1)),
             item_count count (if length [(1, row)] =? 1 then [] else py "s")
             :: before ++ effect_call (destroy_call public_id)
             :: (effect_call <$> warnings) ++ [st_rerun]) /\
     Forall (fun e => exists index url category color season,
                        e = closet_card index url category color season) before /\
     Forall (fun e => exists m, e = st_warning m) warnings) /\
  your_closet (fun _ => None) isin [CStr (py "Black")] [] [] (Some 1) two_rows
  = Done (Some {| header := REQUIRED_COLUMNS;
                  lines := [[py "https://x/a.png"; py "a"; py "Shirts"; py "Blue";
                             py "Summer"]] |},
          [item_count (py "1") [];
           closet_card 1 (py "https://x/b.png") (py "Pants") (py "Black") (py "Winter");
           effect_call (destroy_call (CStr (py "b")));
           st_rerun]).
Proof.
  intros isin row T. split; [|by vm_compute].
  apply (closet_delete_removes_shown_item (fun _ => None) isin [CStr (py "Black")] [] []
           two_rows [(1, row)] 1 row).
  - by vm_compute.
  - apply elem_of_cons. by left.
Defined.

(** ** Suggest Outfits *)

Section SuggestPage.
Context `{Floats}.
Variable OPENROUTER_MODEL : text.
Variable float_is_zero : text -> bool.

Lemma empty_loaded (st : file) :
  empty (load_metadata st) = bool_decide (rows (load_metadata st) = []).
Proof.
  unfold empty.
  pose proof (load_metadata_required st (py "Color") ltac:(by_compute)) as Hc.
  unfold names in Hc.
  destruct (columns (load_metadata st)); [done|]. by destruct (rows (load_metadata st)).
Qed.

(** X18.  With an empty prompt, or with a table without rows, the page
    makes no request to the model: what it shows, one warning or the
    empty-wardrobe block, is the same whatever the model would answer,
    and nothing is raised. *)
Theorem suggest_without_request (create create' : request -> completion)
    (user_prompt : text) (st : file) :
  user_prompt = [] \/ rows (load_metadata st) = [] ->
  suggest_outfits OPENROUTER_MODEL create float_is_zero user_prompt st
  = suggest_outfits OPENROUTER_MODEL create' float_is_zero user_prompt st /\
  (suggest_outfits OPENROUTER_MODEL create float_is_zero user_prompt st
   = ([effect_call (st_warning (py "Please enter a prompt to get outfit suggestions."))],
      None) \/
   suggest_outfits OPENROUTER_MODEL create float_is_zero user_prompt st
   = ([empty_wardrobe], None)).
Proof.
  intros [->|Hrows]; [split; [done|by left]|].
  unfold suggest_outfits. destruct user_prompt as [|c p]; [split; [done|by left]|].
  rewrite empty_loaded, Hrows. split; [done|by right].
Qed.

Lemma suggest_outfits_replied (create : request -> completion) (user_prompt content : text)
    (st : file) (v : Json.value) :
  user_prompt <> [] -> rows (load_metadata st) <> [] ->
  (forall r, create r = Replied content) ->
  parse_response content = (Some v, []) ->
  suggest_outfits OPENROUTER_MODEL create float_is_zero user_prompt st
  = render float_is_zero v.
Proof.
  intros Hp Hrows Hcreate Hparse. unfold suggest_outfits.
  destruct user_prompt as [|c p]; [done|].
  rewrite empty_loaded, bool_decide_eq_false_2 by done.
  destruct (clothes_list_loaded st) as (clothes & Hc).
  unfold get_outfit_suggestions. rewrite Hc, Hcreate, Hparse.
  unfold then_. simpl. by destruct (render float_is_zero v).
Qed.

Lemma render_from_outfits (outfits : list (list text)) (i : nat) :
  Forall (fun urls => urls <> []) outfits ->
  render_from i ((fun urls : list text => Json.JArr (Json.JStr <$> urls)) <$> outfits)
  = (concat (imap (fun j urls =>
                     outfit_header (i + j + 1) :: st_columns (length urls)
                     :: (outfit_image <$> (Json.JStr <$> urls))) outfits),
     None).
Proof.
  intros Hall. revert i. induction Hall as [|urls outfits Hne _ IH]; intros i; [done|].
  destruct urls as [|url urls]; [done|].
  cbn [fmap list_fmap render_from]. unfold render_outfit at 1.
  cbn [len length fmap list_fmap then_ fst snd app iter]. rewrite length_fmap.
  change (list_fmap _ _ ?f ?l) with (f <$> l). rewrite IH.
  unfold then_. cbn [fst snd imap concat]. rewrite Nat.add_0_r.
  f_equal. f_equal. f_equal.
  apply imap_ext. intros j x _. unfold compose. do 2 f_equal. lia.
Qed.

(** X19.  When the model answers with a text that is decoded as an array
    of arrays of strings, none of them empty, the page shows the number
    of outfits, and for every outfit in order its header with its number
    counted from one, as many columns as it has images, and its images
    in order; nothing is raised. *)
Theorem suggested_outfits_rendered (create : request -> completion)
    (user_prompt content : text) (st : file) (outfits : list (list text)) :
  user_prompt <> [] -> rows (load_metadata st) <> [] ->
  (forall r, create r = Replied content) ->
  parse_response content = (Some (outfits_value outfits), []) ->
  outfits <> [] -> Forall (fun urls => urls <> []) outfits ->
  suggest_outfits OPENROUTER_MODEL create float_is_zero user_prompt st
  = (outfits_header (length outfits) (if length outfits =? 1 then [] else py "s")
     :: concat (imap (fun j urls =>
                        outfit_header (j + 1) :: st_columns (length urls)
                        :: (outfit_image <$> (Json.JStr <$> urls))) outfits),
     None).
Proof.
  intros Hp Hrows Hcreate Hparse Hne Hall.
  rewrite (suggest_outfits_replied create user_prompt content st _ Hp Hrows Hcreate Hparse).
  unfold render, outfits_value.
  destruct outfits as [|urls outfits]; [done|].
  cbn [truthy len iter]. rewrite bool_decide_eq_false_2 by done. cbn [negb].
  rewrite render_from_outfits by done. rewrite length_fmap. done.
Qed.

(** X20.  When the decoded answer is an array whose first item has no
    length (a number, a boolean, null), the page shows the number of
    items and the header of the first outfit and then raises a
    [TypeError]: the value is rendered as it was decoded, unchecked. *)
Theorem suggested_number_raises (create : request -> completion)
    (user_prompt content : text) (st : file) (x : Json.value) (rest : list Json.value) :
  user_prompt <> [] -> rows (load_metadata st) <> [] ->
  (forall r, create r = Replied content) ->
  parse_response content = (Some (Json.JArr (x :: rest)), []) ->
  len x = None ->
  suggest_outfits OPENROUTER_MODEL create float_is_zero user_prompt st
  = ([outfits_header (S (length rest)) (if S (length rest) =? 1 then [] else py "s");
      outfit_header 1],
     Some (TypeError (py "object of type '" ++ type_name x ++ py "' has no len()"))).
Proof.
  intros Hp Hrows Hcreate Hparse Hlen.
  rewrite (suggest_outfits_replied create user_prompt content st _ Hp Hrows Hcreate Hparse).
  unfold render. cbn [truthy len iter]. rewrite bool_decide_eq_false_2 by done.
  cbn [negb length render_from]. unfold render_outfit. by rewrite Hlen.
Qed.

(** X21.  When the decoded answer is a value Python takes for false (an
    empty array, an empty object, an empty string, zero, false, null),
    the page shows nothing at all: no outfit and no message. *)
Theorem suggested_falsy_shows_nothing (create : request -> completion)
    (user_prompt content : text) (st : file) (v : Json.value) :
  user_prompt <> [] -> rows (load_metadata st) <> [] ->
  (forall r, create r = Replied content) ->
  parse_response content = (Some v, []) ->
  truthy float_is_zero v = false ->
  suggest_outfits OPENROUTER_MODEL create float_is_zero user_prompt st = ([], None).
Proof.
  intros Hp Hrows Hcreate Hparse Hv.
  rewrite (suggest_outfits_replied create user_prompt content st _ Hp Hrows Hcreate Hparse).
  unfold render. by rewrite Hv.
Qed.

End SuggestPage.

Lemma suggest_without_request_witness :
  suggest_outfits (py "model") (fun _ => Replied two_outfits_json) (fun _ => false)
                  (py "dinner") None
  = suggest_outfits (py "model") (fun _ => Failed (py "timed out")) (fun _ => false)
                    (py "dinner") None /\
  (suggest_outfits (py "model") (fun _ => Replied two_outfits_json) (fun _ => false)
                   (py "dinner") None
   = ([effect_call (st_warning (py "Please enter a prompt to get outfit suggestions."))],
      None) \/
   suggest_outfits (py "model") (fun _ => Replied two_outfits_json) (fun _ => false)
                   (py "dinner") None
   = ([empty_wardrobe], None)).
Proof.
  apply (suggest_without_request (py "model") (fun _ => false)
           (fun _ => Replied two_outfits_json) (fun _ => Failed (py "timed out"))
           (py "dinner") None).
  by right.
Defined.

Lemma suggested_outfits_rendered_witness :
  suggest_outfits (py "model") (fun _ => Replied two_outfits_json) (fun _ => false)
                  (py "dinner") two_rows
  = ([outfits_header 2 (py "s");
      outfit_header 1; st_columns 2;
      outfit_image (Json.JStr (py "a")); outfit_image (Json.JStr (py "b"));
      outfit_header 2; st_columns 1; outfit_image (Json.JStr (py "c"))],
     None).
Proof.
  apply (suggested_outfits_rendered (py "model") (fun _ => false)
           (fun _ => Replied two_outfits_json) (py "dinner") two_outfits_json two_rows
           [[py "a"; py "b"]; [py "c"]]); try done.
  by repeat constructor.
Defined.

Lemma suggested_number_raises_witness :
  suggest_outfits (py "model") (fun _ => Replied (py "[1, 2]")) (fun _ => false)
                  (py "dinner") two_rows
  = ([outfits_header 2 (py "s"); outfit_header 1],
     Some (TypeError (py "object of type 'int' has no len()"))).
Proof.
  apply (suggested_number_raises (py "model") (fun _ => false)
           (fun _ => Replied (py "[1, 2]")) (py "dinner") (py "[1, 2]") two_rows
           (Json.JInt 1) [Json.JInt 2]); done.
Defined.

Lemma suggested_falsy_shows_nothing_witness :
  suggest_outfits (py "model") (fun _ => Replied (py "[]")) (fun _ => false)
                  (py "dinner") two_rows
  = ([], None).
Proof.
  apply (suggested_falsy_shows_nothing (py "model") (fun _ => false)
           (fun _ => Replied (py "[]")) (py "dinner") (py "[]") two_rows (Json.JArr []));
    done.
Defined.

(** ** The background image *)

Import Background.

Lemma alphabet_b64 (i : N) : is_b64 (b64_char i) = true.
Proof.
  unfold b64_char.
  assert (N.to_nat (N.land i 63) < 64) as Hlt.
  { change 63%N with (N.ones 6). rewrite N.land_ones.
    pose proof (N.mod_upper_bound i (2 ^ 6) ltac:(done)) as Hm.
    change (2 ^ 6)%N with 64%N in *. lia. }
  match goal with
  | |- is_b64 (default _ ?o) = true => destruct o as [c|] eqn:Hc
  end.
  - assert (Forall (fun c => is_b64 c = true) alphabet) as Hall by by_compute.
    rewrite Forall_forall in Hall. by apply Hall, (list_elem_of_lookup_2 _ _ _ Hc).
  - apply lookup_ge_None in Hc. change (length alphabet) with 64 in Hc. lia.
Qed.

Lemma b64encode_spec (n : nat) (bs : list N) :
  length bs <= n ->
  Forall (fun c => is_b64 c = true) (b64encode bs) /\
  length (b64encode bs) = 4 * ((length bs + 2) / 3).
Proof.
  revert bs. induction n as [|n IH]; intros bs Hn.
  { destruct bs; [by split|simpl in Hn; lia]. }
  destruct bs as [|a [|b [|c r]]].
  - by split.
  - split; [|done]. cbn [b64encode]. repeat constructor; apply alphabet_b64.
  - split; [|done]. cbn [b64encode]. repeat constructor; apply alphabet_b64.
  - destruct (IH r ltac:(simpl in Hn; lia)) as [Hall Hlen].
    split.
    + cbn [b64encode]. repeat (constructor; [apply alphabet_b64|]). exact Hall.
    + cbn [b64encode length]. rewrite Hlen.
      replace (S (S (S (length r))) + 2) with (1 * 3 + (length r + 2)) by lia.
      rewrite Nat.div_add_l by done. lia.
Qed.

Lemma count_app (c : char) (s t : text) : count c (s ++ t) = count c s + count c t.
Proof. induction s as [|x s IH]; [done|]. simpl. rewrite IH. lia. Qed.

Lemma count_b64 (s : text) :
  Forall (fun c => is_b64 c = true) s -> count 34%N s = 0.
Proof.
  induction 1 as [|c s Hc _ IH]; [done|]. cbn [count]. rewrite IH.
  destruct (char_eqb c 34%N) eqn:E; [|done].
  apply char_eqb_eq in E as ->. done.
Qed.

(** X22.  The encoded image in the style block consists of letters,
    digits, [+], [/] and [=] only, four characters for every three bytes
    or part thereof; so the only double quotes of the block are the two
    of the template around the URL, whatever the bytes of the image. *)
Theorem background_markup (image : list N) :
  Forall (fun c => is_b64 c = true) (b64encode image) /\
  length (b64encode image) = 4 * ((length image + 2) / 3) /\
  add_bg_from_local image = style_open ++ b64encode image ++ style_close /\
  count 34%N (add_bg_from_local image) = 2.
Proof.
  destruct (b64encode_spec (length image) image ltac:(done)) as [Hall Hlen].
  split; [done|]. split; [done|]. split; [done|].
  unfold add_bg_from_local. cbv zeta. rewrite !count_app, (count_b64 _ Hall). done.
Qed.
